(** * Snappy device agents: the Rpi3 provisioning and recovery code

    A shallow embedding of [devices/rpi3/rpi3.py] and of the image
    transfer helpers of [snappy_device_agents/__init__.py], with the
    properties of the provisioning orchestrator, the boot-mode recovery
    state machine and the image transfer stated over it.

    The Python methods run external processes, sleep and read the clock.
    They are embedded as functions in a state-and-exception monad: the
    state records every process that was spawned, the clock and the
    image server process; the outcome of each spawned process is read
    from a [world], so that a theorem quantified over the world covers
    every behaviour of the lab hardware.

    A Python [bytes] object is a [string], byte by byte.  A Python
    [str] is the [string] of its UTF-8 encoding, so that a successful
    [bytes.decode()] and [str.encode()] are the identity; equality and
    containment of [str]s are those of their encodings. *)

From Stdlib Require Import ZArith Lia Ascii String.
From stdpp Require Import base strings gmap list pretty.

Open Scope string_scope.

(** ** Python values the code handles *)

(** Exceptions that can travel through the code.  All of them are
    subclasses of Python's [Exception]; [KeyError None] is a bare
    [raise KeyError], [KeyError (Some k)] a failed dictionary lookup. *)
Inductive exn : Type :=
| KeyError (key : option string)
| ProvisioningError (msg : string)
| RecoveryError (msg : string)
| CalledProcessError (output : string)
| TimeoutExpired
| OSError
| IndexError
| ValueError
| TypeError
| UnicodeDecodeError
| UnboundLocalError.

(** A value of the YAML configuration: a string, a list of strings, or
    a scalar that is not a string ([null], a boolean, a number), which
    cannot be iterated over and which [str()] prints as [text]. *)
Inductive cfgval : Type :=
| VStr (s : string)
| VList (l : list string)
| VScalar (text : string).

(** The outcome of one spawned process, as [subprocess] reports it. *)
Inductive proc_outcome : Type :=
| Exited0 (output : string)
| ExitedNonzero (output : string)
| TimedOut
| SpawnFailed.

(** What [json.loads] makes of the output of [lsblk -J]: only the part
    that [get_image_type] reads.  An absent key is [None]. *)
Record lsblk_child : Type := { child_name : option string }.
Record lsblk_dev : Type := { dev_children : option (list lsblk_child) }.
Record lsblk_doc : Type := { blockdevices : option (list lsblk_dev) }.

(** How a polling loop of [ensure_master_image] ends. *)
Inductive poll_exit : Type :=
| Returned                            (* [return] inside the loop *)
| Rerun                               (* [return self.ensure_master_image()] *)
| Exhausted (master_booted : option bool).
                                      (* the [while] test failed; the value
                                         of [master_booted], if bound *)

(** The image server process started by [provision]. *)
Inductive server_state : Type :=
| NotStarted
| Listening
| Finished
| Terminated.

(** Everything observable that the code does.  [Entered] marks the
    entry into [setboot], [hardreset] and [wipe_test_device], the
    methods whose calls the properties speak about. *)
Inductive event : Type :=
| Exec (argv : list string) (timeout : option nat)
| Sleep (secs : nat)
| Entered (method : string)
| ServerStart
| ServerTerminate.

Record state : Type := mkState {
  trace : list event;        (* oldest first *)
  nexec : nat;               (* processes spawned so far *)
  now : nat;                 (* time.time(), in seconds *)
  file_server : server_state
}.

(** The environment: the [n]-th spawned process ends with outcome
    [fst (proc n)] after [snd (proc n)] seconds, whatever timeout it
    was given; [connects n] tells whether that process connected to
    the image server and read the stream to its end; [json_loads] is
    the JSON parser, applied to the decoded output of [lsblk]. *)
Record world : Type := mkWorld {
  proc : nat -> proc_outcome * nat;
  connects : nat -> bool;
  json_loads : string -> option lsblk_doc;
  download_fails : option exn;     (* urlretrieve raising *)
  compress_fails : option exn;     (* compress_file raising *)
  local_ip_addr : option string;   (* None: no default gateway *)
  bound_port : nat                 (* the port the image server reports *)
}.

(** The job description read by [json.load]. *)
Record job : Type := mkJob {
  provision_data : option (gmap string string);
  test_data : option (gmap string string)
}.

(** ** The monad *)

Inductive result (A : Type) : Type :=
| Ret (a : A)
| Raise (e : exn)
| OutOfFuel.
Arguments Ret {A} a.
Arguments Raise {A} e.
Arguments OutOfFuel {A}.

Definition M (A : Type) : Type := state -> result A * state.

Definition ret {A} (a : A) : M A := fun st => (Ret a, st).
Definition raise {A} (e : exn) : M A := fun st => (Raise e, st).
Definition out_of_fuel {A} : M A := fun st => (OutOfFuel, st).

Definition bind {A B} (m : M A) (k : A -> M B) : M B :=
  fun st =>
    match m st with
    | (Ret a, st') => k a st'
    | (Raise e, st') => (Raise e, st')
    | (OutOfFuel, st') => (OutOfFuel, st')
    end.

Notation "'let!' x ':=' m 'in' k" := (bind m (fun x => k))
  (at level 10, x name, m at level 100, k at level 200).
Notation "m ';;' k" := (bind m (fun _ => k))
  (at level 100, k at level 200, right associativity).

(** [try: m except Exception as e: h e] *)
Definition try_except {A} (m : M A) (h : exn -> M A) : M A :=
  fun st =>
    match m st with
    | (Raise e, st') => h e st'
    | r => r
    end.

(** [try: m finally: f].  An exception of [f] replaces the result of
    [m], whether [m] returned or raised. *)
Definition try_finally {A} (m : M A) (f : M unit) : M A :=
  fun st =>
    match m st with
    | (OutOfFuel, st') => (OutOfFuel, st')
    | (r, st') =>
        match f st' with
        | (Ret _, st'') => (r, st'')
        | (Raise e, st'') => (Raise e, st'')
        | (OutOfFuel, st'') => (OutOfFuel, st'')
        end
    end.

(** [for x in l: body x] *)
Fixpoint for_each {A} (l : list A) (body : A -> M unit) : M unit :=
  match l with
  | [] => ret tt
  | x :: l' => body x ;; for_each l' body
  end.

Definition log_event (e : event) : M unit :=
  fun st => (Ret tt, mkState (trace st ++ [e]) (nexec st) (now st) (file_server st)).

Definition time_time : M nat := fun st => (Ret (now st), st).

Definition time_sleep (secs : nat) : M unit :=
  fun st =>
    (Ret tt, mkState (trace st ++ [Sleep secs]) (nexec st) (now st + secs)
                     (file_server st)).

(** ** Strings *)

Definition byte_in (lo hi : N) (c : ascii) : bool :=
  ((lo <=? N_of_ascii c) && (N_of_ascii c <=? hi))%N.

Definition is_cont (c : ascii) : bool := byte_in 128 191 c.

(** The length in bytes, 1 to 4, of the well-formed UTF-8 sequence at
    the head of [s], 0 when there is none.  These are the sequences that
    the strict decoder of [bytes.decode()] accepts: no overlong form, no
    surrogate, nothing above U+10FFFF. *)
Definition utf8_len (s : string) : nat :=
  match s with
  | EmptyString => 0
  | String a s1 =>
      if byte_in 0 127 a then 1
      else
        match s1 with
        | EmptyString => 0
        | String b s2 =>
            if byte_in 194 223 a then (if is_cont b then 2 else 0)
            else
              match s2 with
              | EmptyString => 0
              | String c s3 =>
                  if byte_in 224 239 a then
                    if ((byte_in 224 224 a && byte_in 160 191 b)
                        || (byte_in 225 236 a && is_cont b)
                        || (byte_in 237 237 a && byte_in 128 159 b)
                        || (byte_in 238 239 a && is_cont b))
                       && is_cont c
                    then 3 else 0
                  else
                    match s3 with
                    | EmptyString => 0
                    | String d _ =>
                        if ((byte_in 240 240 a && byte_in 144 191 b)
                            || (byte_in 241 243 a && is_cont b)
                            || (byte_in 244 244 a && byte_in 128 143 b))
                           && is_cont c && is_cont d
                        then 4 else 0
                    end
              end
        end
  end.

Fixpoint str_take (n : nat) (s : string) : string :=
  match n, s with
  | S n', String c s' => String c (str_take n' s')
  | _, _ => ""
  end.

Fixpoint str_drop (n : nat) (s : string) : string :=
  match n, s with
  | S n', String _ s' => str_drop n' s'
  | _, _ => s
  end.

(** [list(s)]: the characters of a [str], each as its encoding.  On
    bytes that are not UTF-8, a byte that starts no well-formed
    sequence stands alone. *)
Fixpoint py_chars_go (fuel : nat) (s : string) : list string :=
  match fuel, s with
  | S fuel', String _ _ =>
      let n := Nat.max 1 (utf8_len s) in
      str_take n s :: py_chars_go fuel' (str_drop n s)
  | _, _ => []
  end.
Definition py_chars (s : string) : list string :=
  py_chars_go (String.length s) s.

(** [b.decode()]: [None] where Python raises [UnicodeDecodeError]. *)
Definition py_decode (b : string) : option string :=
  if forallb (fun c => negb (Nat.eqb (utf8_len c) 0)) (py_chars b)
  then Some b else None.

(** The code point that a well-formed sequence encodes. *)
Definition code_point (c : string) : N :=
  match c with
  | String a "" => N_of_ascii a
  | String a (String b "") =>
      (N_of_ascii a - 192) * 64 + (N_of_ascii b - 128)
  | String a (String b (String c "")) =>
      (N_of_ascii a - 224) * 4096 + (N_of_ascii b - 128) * 64
      + (N_of_ascii c - 128)
  | String a (String b (String c (String d ""))) =>
      (N_of_ascii a - 240) * 262144 + (N_of_ascii b - 128) * 4096
      + (N_of_ascii c - 128) * 64 + (N_of_ascii d - 128)
  | _ => 0
  end%N.

(** [str.isspace()] of one character: U+0009 to U+000D, U+001C to
    U+0020, U+0085, U+00A0, U+1680, U+2000 to U+200A, U+2028, U+2029,
    U+202F, U+205F and U+3000. *)
Definition is_space_code (n : N) : bool :=
  ((9 <=? n) && (n <=? 13) || (28 <=? n) && (n <=? 32)
   || (n =? 133) || (n =? 160) || (n =? 5760)
   || (8192 <=? n) && (n <=? 8202)
   || (n =? 8232) || (n =? 8233) || (n =? 8239) || (n =? 8287)
   || (n =? 12288))%N.

Definition is_py_space (c : string) : bool :=
  negb (Nat.eqb (utf8_len c) 0) && is_space_code (code_point c).

(** [s.split()]: the maximal runs of characters that are not white
    space. *)
Fixpoint py_split_go (cs : list string) (cur : string) : list string :=
  match cs with
  | [] => if decide (cur = "") then [] else [cur]
  | c :: cs' =>
      if is_py_space c
      then (if decide (cur = "") then [] else [cur]) ++ py_split_go cs' ""
      else py_split_go cs' (cur +:+ c)
  end.
Definition py_split (s : string) : list string := py_split_go (py_chars s) "".

Fixpoint starts_with (p s : string) : bool :=
  match p, s with
  | EmptyString, _ => true
  | String a p', String b s' => bool_decide (a = b) && starts_with p' s'
  | String _ _, EmptyString => false
  end.

(** [p in s] for strings. *)
Fixpoint py_contains (p s : string) : bool :=
  starts_with p s ||
  match s with
  | EmptyString => false
  | String _ s' => py_contains p s'
  end.

(** ** Processes *)

Section Agent.

Variable w : world.

(** The state once the next process has been spawned and has ended. *)
Definition spawned (st : state) (argv : list string) (timeout : option nat)
    : state :=
  mkState (trace st ++ [Exec argv timeout]) (S (nexec st))
          (now st + snd (proc w (nexec st)))
          match file_server st with
          | Listening => if connects w (nexec st) then Finished else Listening
          | s => s
          end.

(** [subprocess.check_output(argv, timeout=t)]: [Popen] indexes
    [argv[0]] before it spawns anything. *)
Definition check_output (argv : list string) (timeout : option nat) : M string :=
  fun st =>
    match argv with
    | [] => (Raise IndexError, st)
    | _ =>
        let st' := spawned st argv timeout in
        match fst (proc w (nexec st)) with
        | Exited0 o => (Ret o, st')
        | ExitedNonzero o => (Raise (CalledProcessError o), st')
        | TimedOut => (Raise TimeoutExpired, st')
        | SpawnFailed => (Raise OSError, st')
        end
    end.

Definition check_call (argv : list string) (timeout : option nat) : M unit :=
  check_output argv timeout ;; ret tt.

(** ** class Rpi3 *)

Variable config : gmap string cfgval.

(** [str(v)] of a configuration value, as [str.format] inserts it: a
    list prints as the [repr] of its items (items without quotes or
    escapes). *)
Definition py_str (v : cfgval) : string :=
  match v with
  | VStr s => s
  | VList l => "[" +:+ String.concat ", " ((fun s => "'" +:+ s +:+ "'") <$> l) +:+ "]"
  | VScalar text => text
  end.

(** [self.config[key]] where the code formats the value into a string. *)
Definition config_str (key : string) : M string :=
  match config !! key with
  | Some v => ret (py_str v)
  | None => raise (KeyError (Some key))
  end.

(** [for cmd in v]: the items that the loop runs over.  A string gives
    its characters; [None], a boolean or a number raises [TypeError]
    when the [for] statement asks for its iterator. *)
Definition py_iter (v : cfgval) : M (list string) :=
  match v with
  | VList l => ret l
  | VStr s => ret (py_chars s)
  | VScalar _ => raise TypeError
  end.

(** [self.config[key]] where the code iterates over the value. *)
Definition config_list (key : string) : M (list string) :=
  match config !! key with
  | Some v => py_iter v
  | None => raise (KeyError (Some key))
  end.

(** [b.decode()] *)
Definition decode (b : string) : M string :=
  match py_decode b with
  | Some s => ret s
  | None => raise UnicodeDecodeError
  end.

Definition ssh_argv (user host cmd : string) : list string :=
  ["ssh"; "-o"; "StrictHostKeyChecking=no"; "-o";
   "UserKnownHostsFile=/dev/null"; user +:+ "@" +:+ host; cmd].

(** [_run_control(cmd, timeout)] *)
Definition _run_control (cmd : string) (timeout : nat) : M string :=
  let! ip := config_str "device_ip" in
  try_except (check_output (ssh_argv "pi" ip cmd) (Some timeout))
    (fun e =>
       match e with
       | CalledProcessError o => raise (ProvisioningError o)
       | _ => raise e
       end).

(** [with self.remote_mount(remote_device, mount_point) as mp: body mp] *)
Definition remote_mount {A} (remote_device mount_point : string)
    (body : string -> M A) : M A :=
  _run_control ("sudo mount /dev/" +:+ remote_device +:+ " " +:+ mount_point) 60 ;;
  try_finally (body mount_point)
    (_run_control ("sudo umount " +:+ mount_point) 60 ;; ret tt).

(** [flash_test_image(server_ip, server_port)] *)
Definition flash_unmount : M unit :=
  try_except
    (let! dev := config_str "test_device" in
     _run_control ("sudo umount " +:+ dev +:+ "*") 30 ;; ret tt)
    (fun e =>
       match e with
       | KeyError _ => raise (RecoveryError "Device config missing test_device")
       | _ => ret tt
       end).

Definition flash_cmd (server_ip server_port dev : string) : string :=
  "nc.traditional " +:+ server_ip +:+ " " +:+ server_port
    +:+ "| xzcat| sudo dd of=" +:+ dev +:+ " bs=16M".

Definition flash_write (server_ip server_port : string) : M unit :=
  let! dev := config_str "test_device" in
  let cmd := flash_cmd server_ip server_port dev in
  try_except (_run_control cmd 1800 ;; ret tt)
    (fun _ => raise (ProvisioningError "timeout reached while flashing image!")).

Definition flash_sync : M unit :=
  try_except (_run_control "sync" 60 ;; ret tt)
    (fun _ => time_sleep 30).

Definition flash_rescan : M unit :=
  try_except
    (let! dev := config_str "test_device" in
     _run_control ("sudo hdparm -z " +:+ dev) 30 ;; ret tt)
    (fun _ => raise (ProvisioningError "Unable to run hdparm to rescan partitions")).

Definition flash_test_image (server_ip server_port : string) : M unit :=
  flash_unmount ;;
  flash_write server_ip server_port ;;
  flash_sync ;;
  flash_rescan.

(** [get_image_type()] *)
Definition IMAGE_PATH_IDS : list (string * string) :=
  [("etc", "ubuntu"); ("system-data", "core"); ("snaps", "core20")].

(** The inner [for path, img_type in self.IMAGE_PATH_IDS.items()]: the
    type of the first marker found among the directory entries. *)
Fixpoint first_marker (ids : list (string * string)) (entries : list string)
    : option string :=
  match ids with
  | [] => None
  | (path, img_type) :: ids' =>
      if bool_decide (path ∈ entries) then Some img_type
      else first_marker ids' entries
  end.

(** [lsblk_json["blockdevices"][0]["children"]] *)
Definition lsblk_children (doc : lsblk_doc) : M (list lsblk_child) :=
  match blockdevices doc with
  | None => raise (KeyError (Some "blockdevices"))
  | Some [] => raise IndexError
  | Some (d :: _) =>
      match dev_children d with
      | None => raise (KeyError (Some "children"))
      | Some cs => ret cs
      end
  end.

(** [[x.get("name") for x in children if x.get("name")]] *)
Definition named_children (cs : list lsblk_child) : list string :=
  omap (fun x => match child_name x with
                 | Some n => if decide (n = "") then None else Some n
                 | None => None
                 end) cs.

(** The [try] statement in the body of the [for dev in dev_list] loop:
    the image type to [return], if a marker was found and the
    partition could be unmounted.  [dirs.decode()] is evaluated in the
    first round of the inner loop, inside the [with] statement. *)
Definition check_partition (dev : string) : M (option string) :=
  try_except
    (remote_mount dev "/mnt" (fun _ =>
       let! dirs := _run_control "ls /mnt" 60 in
       let! listing := decode dirs in
       ret (first_marker IMAGE_PATH_IDS (py_split listing))))
    (fun _ => ret None).

(** The [for dev in dev_list] loop; [dev] is the loop variable, which
    keeps its last value when the loop ends without a [return]. *)
Fixpoint scan_partitions (dev_list : list string) (dev : string)
    : M (string * string) :=
  match dev_list with
  | [] => ret ("unknown", dev)
  | d :: rest =>
      let! found := check_partition d in
      match found with
      | Some img_type => ret (img_type, d)
      | None => scan_partitions rest d
      end
  end.

Definition get_image_type : M (string * string) :=
  let! dev := config_str "test_device" in
  let! lsblk_data := _run_control ("lsblk -J " +:+ dev) 60 in
  let! lsblk_text := decode lsblk_data in
  let! lsblk_json :=
    match json_loads w lsblk_text with
    | Some doc => ret doc
    | None => raise ValueError
    end in
  let! children := lsblk_children lsblk_json in
  scan_partitions (named_children children) dev.

(** [setboot(mode)] *)
Definition setboot (mode : string) : M unit :=
  log_event (Entered "setboot") ;;
  let! setboot_script :=
    if decide (mode = "master") then config_list "select_master_script"
    else if decide (mode = "test") then config_list "select_test_script"
    else raise (KeyError None) in
  for_each setboot_script (fun cmd =>
    try_except (check_call (py_split cmd) (Some 60))
      (fun _ => raise (ProvisioningError "timeout reaching control host!"))).

(** [hardreset()] *)
Definition hardreset : M unit :=
  log_event (Entered "hardreset") ;;
  let! reboot_script := config_list "reboot_script" in
  for_each reboot_script (fun cmd =>
    try_except (check_call (py_split cmd) (Some 120))
      (fun _ => raise (RecoveryError "timeout reaching control host!"))).

(** [is_test_image_booted()]: the command line is built before the
    [try], so a missing [device_ip] is not caught. *)
Definition is_test_image_booted : M bool :=
  let! ip := config_str "device_ip" in
  try_except (check_output (ssh_argv "ubuntu" ip "snap -h") (Some 60) ;; ret true)
    (fun _ => ret false).

(** [is_master_image_booted()].  [str(output)] is the [repr] of the
    bytes, which contains [GNU] exactly when the bytes do. *)
Definition is_master_image_booted : M bool :=
  try_except
    (let! output := _run_control "cat /etc/issue" 60 in
     ret (py_contains "GNU" output))
    (fun _ => ret false).

(** The number of times the test [now - started < budget] can succeed
    in a loop that sleeps [interval] seconds per round, plus one. *)
Definition poll_fuel (budget interval : nat) : nat := S (budget / interval).

(** [ensure_test_image(test_username, test_password)] *)
Definition sshpass_argv (user password ip : string) : list string :=
  ["sshpass"; "-p"; password; "ssh-copy-id"; "-o"; "StrictHostKeyChecking=no";
   "-o"; "UserKnownHostsFile=/dev/null"; user +:+ "@" +:+ ip].

(** The [try] statement in the body of the loop: the new value of
    [test_image_booted]. *)
Definition test_round (user password : string) : M bool :=
  try_except
    (time_sleep 10 ;;
     let! ip := config_str "device_ip" in
     check_call (sshpass_argv user password ip) None ;;
     is_test_image_booted)
    (fun _ => ret false).

Fixpoint test_poll (fuel : nat) (started : nat) (user password : string) : M bool :=
  match fuel with
  | 0 => out_of_fuel
  | S fuel' =>
      let! t := time_time in
      if (t - started <? 600)%nat then
        let! test_image_booted := test_round user password in
        if test_image_booted then ret true
        else test_poll fuel' started user password
      else ret false
  end.

Definition ensure_test_image (test_username test_password : string) : M unit :=
  setboot "test" ;;
  try_except (_run_control "sudo /sbin/reboot" 60 ;; ret tt) (fun _ => ret tt) ;;
  time_sleep 60 ;;
  let! started := time_time in
  let! test_image_booted :=
    test_poll (poll_fuel 600 10) started test_username test_password in
  if test_image_booted then ret tt
  else raise (ProvisioningError "Failed to boot test image!").

(** [ensure_master_image()] *)

(** The loop of the branch taken when the test image is booted. *)
Fixpoint master_poll (fuel : nat) (started : nat) (master_booted : option bool)
    : M poll_exit :=
  match fuel with
  | 0 => out_of_fuel
  | S fuel' =>
      let! t := time_time in
      if (t - started <? 300)%nat then
        time_sleep 10 ;;
        let! booted := is_master_image_booted in
        if booted then ret Returned
        else master_poll fuel' started (Some booted)
      else ret (Exhausted master_booted)
  end.

(** The loop of the branch taken when the device is in an unknown state. *)
Fixpoint unknown_poll (fuel : nat) (started : nat) : M poll_exit :=
  match fuel with
  | 0 => out_of_fuel
  | S fuel' =>
      let! t := time_time in
      if (t - started <? 300)%nat then
        time_sleep 10 ;;
        let! master := is_master_image_booted in
        if master then ret Returned
        else
          let! test := is_test_image_booted in
          if test then ret Rerun
          else unknown_poll fuel' started
      else ret (Exhausted None)
  end.

(** [depth] bounds the nesting of the calls of [ensure_master_image] to
    itself; the function itself has no such bound.  A run that nests
    deeper than [depth] is [OutOfFuel]: it stands for a run that the
    interpreter ends with [RecursionError] at its recursion limit. *)
Fixpoint ensure_master_image (depth : nat) : M unit :=
  match depth with
  | 0 => out_of_fuel
  | S depth' =>
      let! test_booted := is_test_image_booted in
      let! returned :=
        if test_booted then
          setboot "master" ;;
          hardreset ;;
          let! started := time_time in
          let! r := master_poll (poll_fuel 300 10) started None in
          match r with
          | Returned | Rerun => ret true
          | Exhausted None => raise UnboundLocalError
          | Exhausted (Some false) => raise (RecoveryError "Could not reboot to master!")
          | Exhausted (Some true) => ret false
          end
        else ret false in
      if returned then ret tt
      else
        let! master_booted := is_master_image_booted in
        if master_booted then ret tt
        else
          hardreset ;;
          let! started := time_time in
          let! r := unknown_poll (poll_fuel 300 10) started in
          match r with
          | Returned => ret tt
          | Rerun => ensure_master_image depth'
          | Exhausted _ =>
              raise (RecoveryError
                "Device is in an unknown state, may require manual recovery!")
          end
  end.

(** [create_user(image_type)] *)
Definition nl : string := String "010"%char "".
Definition dq : string := String "034"%char "".

Definition metadata : string := "instance_id: cloud-image".

Definition userdata : string :=
  "#cloud-config" +:+ nl +:+
  "password: ubuntu" +:+ nl +:+
  "chpasswd:" +:+ nl +:+
  "    list:" +:+ nl +:+
  "        - ubuntu:ubuntu" +:+ nl +:+
  "    expire: False" +:+ nl +:+
  "ssh_pwauth: True".

Definition uc20_ci_data : string :=
  "#cloud-config" +:+ nl +:+
  "datasource_list: [ NoCloud, None ]" +:+ nl +:+
  "datasource:" +:+ nl +:+
  "  NoCloud:" +:+ nl +:+
  "    user-data: |" +:+ nl +:+
  "      #cloud-config" +:+ nl +:+
  "      password: ubuntu" +:+ nl +:+
  "      chpasswd:" +:+ nl +:+
  "          list:" +:+ nl +:+
  "              - ubuntu:ubuntu" +:+ nl +:+
  "          expire: False" +:+ nl +:+
  "      ssh_pwauth: True" +:+ nl +:+
  "    meta-data: |" +:+ nl +:+
  "      instance_id: cloud-image".

(** [write_cmd.format(data, ci_path, name)] *)
Definition write_cmd (data ci_path name : string) : string :=
  "sudo bash -c " +:+ dq +:+ "echo '" +:+ data +:+ "' > /" +:+ ci_path
    +:+ "/" +:+ name +:+ dq.

Definition create_user (image_type : string) : M unit :=
  let base := if decide (image_type = "core") then "/mnt/system-data" else "/mnt" in
  try_except
    (if decide (image_type = "core20") then
       let ci_path := base +:+ "/data/etc/cloud/cloud.cfg.d" in
       _run_control ("sudo mkdir -p " +:+ ci_path) 60 ;;
       _run_control (write_cmd uc20_ci_data ci_path "99_nocloud.cfg") 60 ;;
       ret tt
     else
       let ci_path := base +:+ "/var/lib/cloud/seed/nocloud-net" in
       _run_control ("sudo mkdir -p " +:+ ci_path) 60 ;;
       _run_control (write_cmd metadata ci_path "meta-data") 60 ;;
       _run_control (write_cmd userdata ci_path "user-data") 60 ;;
       if decide (image_type = "ubuntu") then
         _run_control
           ("sudo rm -f " +:+ base +:+ "/etc/cloud/cloud.cfg.d/99-fake?cloud.cfg") 60 ;;
         ret tt
       else ret tt)
    (fun _ => raise (ProvisioningError "Error creating user files")).

(** [wipe_test_device()] *)
Definition wipe_test_device : M unit :=
  log_event (Entered "wipe_test_device") ;;
  try_except
    (let! test_device := config_str "test_device" in
     _run_control ("sudo wipefs -af " +:+ test_device) 60 ;; ret tt)
    (fun _ => ret tt).

(** [run_post_provision_script()]: [config.get] gives the empty list
    for a missing key. *)
Definition run_post_provision_script : M unit :=
  let! script :=
    match config !! "post_provision_script" with
    | Some v => py_iter v
    | None => ret []
    end in
  for_each script (fun cmd =>
    try_except (_run_control cmd 60 ;; ret tt) (fun _ => ret tt)).

(** [provision()] *)
Variable job_data : job.

Definition lift_failure (f : option exn) : M unit :=
  match f with
  | Some e => raise e
  | None => ret tt
  end.

(** [file_server.start()] followed by [serve_q.get()] *)
Definition file_server_start : M nat :=
  fun st =>
    (Ret (bound_port w),
     mkState (trace st ++ [ServerStart]) (nexec st) (now st) Listening).

(** [file_server.terminate()] *)
Definition file_server_terminate : M unit :=
  fun st =>
    (Ret tt,
     mkState (trace st ++ [ServerTerminate]) (nexec st) (now st)
             match file_server st with
             | Listening => Terminated
             | s => s
             end).

Definition job_field (d : option (gmap string string)) (key dflt : string)
    : string :=
  match d with
  | Some m => default dflt (m !! key)
  | None => dflt
  end.

(** The body of the [try] statement of [provision]. *)
Definition provision_body (server_ip : string) (server_port : nat)
    (test_username test_password : string) : M unit :=
  flash_test_image server_ip (pretty server_port) ;;
  file_server_terminate ;;
  let! found := get_image_type in
  let '(image_type, image_dev) := found in
  remote_mount image_dev "/mnt" (fun _ => create_user image_type) ;;
  run_post_provision_script ;;
  ensure_test_image test_username test_password.

Definition provision : M unit :=
  let! url :=
    match provision_data job_data with
    | Some pd => ret (pd !! "url")
    | None => raise (KeyError (Some "provision_data"))
    end in
  match url with
  | Some (String _ _) => lift_failure (download_fails w)
  | _ => raise (ProvisioningError "Error provisioning system")
  end ;;
  lift_failure (compress_fails w) ;;
  let test_username := job_field (test_data job_data) "test_username" "ubuntu" in
  let test_password := job_field (test_data job_data) "test_password" "ubuntu" in
  let! server_ip :=
    match local_ip_addr w with
    | Some ip => ret ip
    | None => raise (KeyError (Some "default"))
    end in
  let! server_port := file_server_start in
  try_except
    (provision_body server_ip server_port test_username test_password)
    (fun e => wipe_test_device ;; raise e).

End Agent.

(** ** The image transfer: [compress_file], [serve_file] and the flash
    command

    Files and the target device hold bytes.  The codecs are programs
    outside this repository: [gzip ws] is what a [GzipFile] opened for
    writing leaves in its file after the writes [ws] and [close];
    [gunzip] and [xzcat] are the decoders of the two formats, [None]
    when they reject their input and write nothing. *)

Module Transfer.

Abbreviation bytes := (list Byte.byte).

(** The calls that [serve_file] makes.  [Accept] is a call of [accept]
    that returned a connection; [Send data sent] is a call of
    [client.send(data)] of which the system transmitted the first
    [sent] bytes. *)
Inductive sock_event : Type :=
| Socket
| Bind (host : string) (port : nat)
| GetSockName
| QueuePut (port : nat)
| Listen (backlog : nat)
| Accept
| OpenFile
| Send (data : bytes) (sent : nat)
| ClientClose
| ServerClose.

(** What one call of [client.send(data)] does: it returns the number of
    bytes it transmitted, raises, or never returns. *)
Inductive send_outcome : Type :=
| Sent (n : nat)
| SendRaises
| SendBlocks.

(** What [serve_file] meets: the port that the system assigns, whether
    a client ever connects, and what the [i]-th call of [send] does. *)
Record net : Type := mkNet {
  os_port : nat;
  client_connects : bool;
  send_result : nat -> bytes -> send_outcome
}.

(** How a call of [serve_file] ends. *)
Inductive serve_end : Type :=
| ServeReturns
| ServeBlocks
| ServeRaises (e : exn).

(** [while True: data = f.read(bufsize); if not data: break; use data]:
    the successive values of [data]. *)
Fixpoint read_loop (fuel bufsize : nat) (f : bytes) : list bytes :=
  match fuel with
  | 0 => []
  | S fuel' =>
      match take bufsize f with
      | [] => []
      | data => data :: read_loop fuel' bufsize (drop bufsize f)
      end
  end.

Definition read_all (bufsize : nat) (f : bytes) : list bytes :=
  read_loop (length f) bufsize f.

Definition SERVE_BUFSIZE : nat := 16 * 1024 * 1024.
Definition COMPRESS_BUFSIZE : nat := 4096.

(** The loop of [serve_file] from its [i]-th [send] on, over the
    chunks read from the file.  The value that [send] returns is not
    looked at. *)
Fixpoint send_chunks (n : net) (i : nat) (chunks : list bytes)
    : list sock_event * serve_end :=
  match chunks with
  | [] => ([], ServeReturns)
  | data :: rest =>
      match send_result n i data with
      | Sent k =>
          let (evs, r) := send_chunks n (S i) rest in
          (Send data (Nat.min k (length data)) :: evs, r)
      | SendRaises => ([Send data 0], ServeRaises OSError)
      | SendBlocks => ([Send data 0], ServeBlocks)
      end
  end.

(** [serve_file(q, filename)]: the calls made and how the function
    ends.  [file] is the contents of [filename], [None] when [open]
    fails.  The calls that set the socket up are taken to succeed. *)
Definition serve_file (n : net) (file : option bytes)
    : list sock_event * serve_end :=
  let setup :=
    [Socket; Bind "0.0.0.0" 0; GetSockName; QueuePut (os_port n); Listen 1] in
  if client_connects n then
    match file with
    | None => ((setup ++ [Accept; OpenFile])%list, ServeRaises OSError)
    | Some f =>
        match send_chunks n 0 (read_all SERVE_BUFSIZE f) with
        | (evs, ServeReturns) =>
            ((setup ++ [Accept; OpenFile] ++ evs ++ [ClientClose; ServerClose])%list,
             ServeReturns)
        | (evs, r) => ((setup ++ [Accept; OpenFile] ++ evs)%list, r)
        end
    end
  else (setup, ServeBlocks).

(** A network on which a client connects and every [send] transmits
    all it is given. *)
Definition reliable (port : nat) : net :=
  mkNet port true (fun _ data => Sent (length data)).

(** What a client that reads the connection to its end receives. *)
Fixpoint received (tr : list sock_event) : bytes :=
  match tr with
  | [] => []
  | Send data sent :: tr' => take sent data ++ received tr'
  | _ :: tr' => received tr'
  end.

Section Codec.

Variable gzip : list bytes -> bytes.
Variable gunzip : bytes -> option bytes.
Variable xzcat : bytes -> option bytes.

(** [compress_file(filename)] on the file system [fs]: the new file
    system and the name returned, [None] when [filename] does not
    exist. *)
Definition compress_file (fs : gmap string bytes) (filename : string)
    : option (gmap string bytes * string) :=
  let compressed_filename := filename +:+ ".gz" in
  match fs !! filename with
  | None => None
  | Some uncompressed_image =>
      let compressed_image := gzip (read_all COMPRESS_BUFSIZE uncompressed_image) in
      Some (delete filename (<[compressed_filename := compressed_image]> fs),
            compressed_filename)
  end.

(** [dd of=device]: the input overwrites the device from its start. *)
Definition dd (input device : bytes) : bytes :=
  take (length device) input ++ drop (length input) device.

(** The remote command of [flash_test_image],
    [nc.traditional ip port | decoder | sudo dd of=device bs=16M],
    run against the stream [stream]: the contents of the device
    afterwards.  A decoder that rejects the stream writes nothing. *)
Definition flash_command (decoder : bytes -> option bytes) (stream device : bytes)
    : bytes :=
  match decoder stream with
  | Some image => dd image device
  | None => dd [] device
  end.

(** [provision]'s transfer over a reliable network: compress
    [snappy.img], serve the compressed file, run the flash command on
    the control host. *)
Definition transfer (decoder : bytes -> option bytes) (fs : gmap string bytes)
    (os_port : nat) (device : bytes) : option bytes :=
  match compress_file fs "snappy.img" with
  | None => None
  | Some (fs', image_file) =>
      match fs' !! image_file with
      | None => None
      | Some file =>
          Some (flash_command decoder
                  (received (fst (serve_file (reliable os_port) (Some file))))
                  device)
      end
  end.

End Codec.

End Transfer.


(** ** Image preparation: [download], [udf_create_image], [get_image] *)

Definition IMAGEFILE : string := "snappy.img".

(** [l.index(x)]: [None] where Python raises [ValueError]. *)
Fixpoint py_index (x : string) (l : list string) : option nat :=
  match l with
  | [] => None
  | y :: l' => if decide (x = y) then Some 0 else S <$> py_index x l'
  end.

Fixpoint ends_with_slash (s : string) : bool :=
  match s with
  | EmptyString => false
  | String c EmptyString => bool_decide (c = "/"%char)
  | String _ s' => ends_with_slash s'
  end.

(** [os.path.join(a, b)] for a relative [b]. *)
Definition py_path_join (a b : string) : string :=
  if decide (a = "") then b
  else if ends_with_slash a then a +:+ b
  else a +:+ "/" +:+ b.

(** [os.path.basename(p)]: what follows the last slash. *)
Fixpoint py_basename_go (p cur : string) : string :=
  match p with
  | EmptyString => cur
  | String c p' =>
      if bool_decide (c = "/"%char) then py_basename_go p' ""
      else py_basename_go p' (cur +:+ String c "")
  end.
Definition py_basename (p : string) : string := py_basename_go p "".

(** The command that [udf_create_image(params)] builds and runs, in the
    working directory [cwd] with the temporary directory [tmpdir].
    [cmd[output_opt + 1] = imagepath] raises [IndexError] when [-o] is
    the last word, and the bare [except] then appends as it does when
    [-o] is not there. *)
Definition udf_command (params cwd tmpdir : string) : list string :=
  let imagepath := py_path_join cwd IMAGEFILE in
  let cmd := "sudo" :: "ubuntu-device-flash" :: py_split params in
  let tmp_imagepath := py_path_join tmpdir IMAGEFILE in
  match py_index "-o" cmd with
  | Some output_opt =>
      if (S output_opt <? length cmd)%nat
      then <[S output_opt := imagepath]> cmd
      else (cmd ++ ["-o"; tmp_imagepath])%list
  | None => (cmd ++ ["-o"; tmp_imagepath])%list
  end.

Module Images.

(** The [image_reference] of the test opportunity: the keys that
    [get_image] reads, [None] for an absent key. *)
Record image_reference : Type := {
  download_files : option (list string);
  url : option string;
  udf_params : option string
}.

(** What [get_image] has done to the outside: files fetched, images
    built, files compressed. *)
Inductive action : Type :=
| Download (url filename : string)
| CreateImage (params : string)
| CompressFile (filename : string).

Definition IM (A : Type) : Type := list action -> result A * list action.

Definition iret {A} (a : A) : IM A := fun log => (Ret a, log).
Definition iraise {A} (e : exn) : IM A := fun log => (Raise e, log).

Definition ibind {A B} (m : IM A) (k : A -> IM B) : IM B :=
  fun log =>
    match m log with
    | (Ret a, log') => k a log'
    | (Raise e, log') => (Raise e, log')
    | (OutOfFuel, log') => (OutOfFuel, log')
    end.

Fixpoint ifor_each {A} (l : list A) (body : A -> IM unit) : IM unit :=
  match l with
  | [] => iret tt
  | x :: l' => ibind (body x) (fun _ => ifor_each l' body)
  end.

Section GetImage.

(** [fails a] is the exception that the action [a] ends with, if it
    fails; [cwd] is the working directory. *)
Variable fails : action -> option exn.
Variable cwd : string.

Definition perform (a : action) : IM unit :=
  fun log =>
    match fails a with
    | Some e => (Raise e, (log ++ [a])%list)
    | None => (Ret tt, (log ++ [a])%list)
    end.

(** [download(url, filename=None)] *)
Definition download (url : string) (filename : option string) : IM string :=
  let filename :=
    match filename with
    | Some f => f
    | None => py_basename url
    end in
  ibind (perform (Download url filename)) (fun _ => iret filename).

(** [udf_create_image(params)], as [get_image] sees it. *)
Definition udf_create_image (params : string) : IM string :=
  ibind (perform (CreateImage params)) (fun _ => iret (py_path_join cwd IMAGEFILE)).

(** [compress_file(filename)], as [get_image] sees it. *)
Definition compress_file (filename : string) : IM string :=
  ibind (perform (CompressFile filename)) (fun _ => iret (filename +:+ ".gz")).

(** [get_image()] on the [image_reference] of the test opportunity.
    [image] is [None] while the variable is unbound. *)
Definition get_image (ref : image_reference) : IM string :=
  ibind
    (match download_files ref with
     | Some urls =>
         ifor_each urls (fun u => ibind (download u None) (fun _ => iret tt))
     | None => iret tt
     end) (fun _ =>
  ibind
    (match url ref with
     | Some u => ibind (download u (Some IMAGEFILE)) (fun f => iret (Some f))
     | None =>
         match udf_params ref with
         | Some params => ibind (udf_create_image params) (fun f => iret (Some f))
         | None => iret None
         end
     end) (fun image =>
  match image with
  | Some image => compress_file image
  | None => iraise UnboundLocalError
  end)).

End GetImage.

End Images.
(** ** Notions used in the statements *)

Definition succeeded (o : proc_outcome) : bool :=
  match o with
  | Exited0 _ => true
  | _ => false
  end.

(** What [_run_control] makes of each way a process can end. *)
Definition control_result (o : proc_outcome) : result string :=
  match o with
  | Exited0 out => Ret out
  | ExitedNonzero out => Raise (ProvisioningError out)
  | TimedOut => Raise TimeoutExpired
  | SpawnFailed => Raise OSError
  end.

(** What [is_master_image_booted] makes of the outcome of its process. *)
Definition shows_master (o : proc_outcome) : bool :=
  match o with
  | Exited0 out => py_contains "GNU" out
  | _ => false
  end.

(** The state once a method has been entered. *)
Definition entered (st : state) (method : string) : state :=
  mkState (trace st ++ [Entered method]) (nexec st) (now st) (file_server st).

(** The state in which the [try] statement of [provision] starts. *)
Definition server_started (st : state) : state :=
  mkState (trace st ++ [ServerStart]) (nexec st) (now st) Listening.

(** The steps of [provision] before its [try] statement succeed, with
    [ip] as the local address. *)
Definition ready (w : world) (job_data : job) (ip : string) : Prop :=
  exists pd c url,
    provision_data job_data = Some pd /\ pd !! "url" = Some (String c url)
    /\ download_fails w = None /\ compress_fails w = None
    /\ local_ip_addr w = Some ip.

(** The image type that the listing printed by a process shows: none
    when the process failed, when its output is not UTF-8, or when no
    entry of the listing is a marker path. *)
Definition listed_type (o : proc_outcome) : option string :=
  match o with
  | Exited0 out =>
      match py_decode out with
      | Some listing => first_marker IMAGE_PATH_IDS (py_split listing)
      | None => None
      end
  | _ => None
  end.

(** The listings of a scan that finds no match: the scan of [parts]
    partitions that starts with the [n]-th process lists a partition
    with the process after its mount, when the mount succeeded, and
    unmounts it with the one after that. *)
Fixpoint scan_listings (w : world) (n parts : nat) : list nat :=
  match parts with
  | 0 => []
  | S parts' =>
      if succeeded (fst (proc w n))
      then S n :: scan_listings w (3 + n) parts'
      else scan_listings w (S n) parts'
  end.

(** The command that [wipe_test_device] runs on the control host, if
    the configuration lets it build one. *)
Definition wipe_events (config : gmap string cfgval) : list event :=
  match config !! "test_device", config !! "device_ip" with
  | Some dev, Some ip =>
      [Exec (ssh_argv "pi" (py_str ip) ("sudo wipefs -af " +:+ py_str dev))
         (Some 60)]
  | _, _ => []
  end.

(** [m] only moves the state along the relation [R]. *)
Definition respects {A} (R : state -> state -> Prop) (m : M A) : Prop :=
  forall st, R st (snd (m st)).

(** [m] ends: it returns or raises. *)
Definition total {A} (m : M A) : Prop :=
  forall st, fst (m st) <> OutOfFuel.

(** The clock does not go back. *)
Definition later (st st' : state) : Prop := now st <= now st'.

(** The image server is as it was. *)
Definition same_server (st st' : state) : Prop :=
  file_server st' = file_server st.

(** [file_server.terminate()] was not called in between. *)
Definition not_terminated (st st' : state) : Prop :=
  exists evs, trace st' = (trace st ++ evs)%list /\ ServerTerminate ∉ evs.

(** The number of times [hardreset] was entered. *)
Fixpoint resets (tr : list event) : nat :=
  match tr with
  | [] => 0
  | Entered method :: tr' =>
      (if decide (method = "hardreset") then 1 else 0) + resets tr'
  | _ :: tr' => resets tr'
  end.

(** The device was not reset fewer times. *)
Definition reset_le (st st' : state) : Prop :=
  resets (trace st) <= resets (trace st').

(** A run of [m] that exceeds its nesting depth has by then reset the
    device [d] more times. *)
Definition gives_up_at {A} (d : nat) (m : M A) (st : state) : Prop :=
  fst (m st) = OutOfFuel ->
  resets (trace st) + d <= resets (trace (snd (m st))).

Definition gives_up_after {A} (d : nat) (m : M A) : Prop :=
  forall st, gives_up_at d m st.


(** ** Scenarios *)

(** A no-break space, U+00A0, and a byte that no UTF-8 text holds. *)
Definition nbsp : string := String "194"%char (String "160"%char "").
Definition stray_byte : string := String "255"%char "".

Definition idle : state := mkState [] 0 0 NotStarted.

(** A control host at 10.0.0.2 that flashes /dev/sda. *)
Definition pi_config : gmap string cfgval :=
  <["device_ip" := VStr "10.0.0.2"]>
  (<["test_device" := VStr "/dev/sda"]>
  (<["reboot_script" := VList ["reset"]]>
  (<["select_master_script" := VList ["select master"]]>
  (<["select_test_script" := VList ["select test"]]> ∅)))).

(** A configuration without [test_device]. *)
Definition no_device_config : gmap string cfgval :=
  <["device_ip" := VStr "10.0.0.2"]> ∅.

Definition ubuntu_job : job :=
  mkJob (Some {[ "url" := "http://images.example/core.img" ]}) None.

(** A world in which no process reads the image stream, the download
    and the compression succeed, and the agent is at 10.0.0.1 with the
    image server on port 4000. *)
Definition quiet_world (p : nat -> proc_outcome * nat)
    (parse : string -> option lsblk_doc) : world :=
  mkWorld p (fun _ => false) parse None None (Some "10.0.0.1") 4000.

Definition two_partitions : lsblk_doc :=
  {| blockdevices :=
       Some [ {| dev_children :=
                   Some [ {| child_name := Some "sda1" |};
                          {| child_name := Some "sda2" |} ] |} ] |}.

(** Every process succeeds at once and prints nothing. *)
Definition obliging_world : world :=
  quiet_world (fun _ => (Exited0 "", 0)) (fun _ => Some two_partitions).

(** The control host cannot be reached: every process exits non-zero. *)
Definition unreachable_world : world :=
  quiet_world (fun _ => (ExitedNonzero "ssh: connect to host: No route to host", 5))
              (fun _ => None).

(** The unmount and the sync fail, the write and the rescan succeed. *)
Definition grumbling_world : world :=
  quiet_world
    (fun n =>
       match n with
       | 0 => (ExitedNonzero "umount: /dev/sda*: not mounted", 1)
       | 2 => (TimedOut, 60)
       | _ => (Exited0 "", 1)
       end)
    (fun _ => None).

(** [lsblk] answers; sda1 mounts and unmounts, and its listing, which
    names [etc], is not UTF-8; sda2 does not mount. *)
Definition unmarked_world : world :=
  quiet_world
    (fun n =>
       match n with
       | 0 => (Exited0 "{...}", 1)
       | 1 => (Exited0 "", 1)
       | 2 => (Exited0 ("etc" +:+ nl +:+ "photo-" +:+ stray_byte +:+ ".jpg"), 1)
       | 3 => (Exited0 "", 1)
       | _ => (ExitedNonzero "mount: wrong fs type", 1)
       end)
    (fun _ => Some two_partitions).

(** [lsblk] prints something that is not JSON. *)
Definition garbled_world : world :=
  quiet_world (fun _ => (Exited0 "lsblk: not json", 1)) (fun _ => None).

(** [lsblk] prints bytes that are not UTF-8. *)
Definition binary_world : world :=
  quiet_world (fun _ => (Exited0 (String "255"%char ""), 1)) (fun _ => None).

(** [lsblk] fails. *)
Definition no_lsblk_world : world :=
  quiet_world (fun _ => (ExitedNonzero "lsblk: /dev/sda: not a block device", 1))
              (fun _ => None).

(** The device has an empty list of children. *)
Definition no_partition_world : world :=
  quiet_world (fun _ => (Exited0 "{...}", 1))
              (fun _ => Some {| blockdevices := Some [ {| dev_children := Some [] |} ] |}).

(** The device runs the master image: the probe for the test image
    fails, [/etc/issue] names a GNU system. *)
Definition settled_world : world :=
  quiet_world
    (fun n =>
       match n with
       | 0 => (ExitedNonzero "ssh: Permission denied", 1)
       | _ => (Exited0 "Raspbian GNU/Linux 10", 1)
       end)
    (fun _ => None).

(** A device stuck in a boot loop of the test image: it answers the
    probe for the test image only once after each reset, and never the
    probe for the master image.  In each round of five processes, the
    first, second and fourth (probes) fail, the third (the reset) and
    the fifth (the probe for the test image after the reset) succeed. *)
Definition flapping_proc (n : nat) : proc_outcome * nat :=
  match n mod 5 with
  | 2 => (Exited0 "", 1)
  | 4 => (Exited0 "usage: snap", 1)
  | _ => (ExitedNonzero "ssh: connect to host 10.0.0.2: Connection refused", 1)
  end.

Definition flapping_world : world := quiet_world flapping_proc (fun _ => None).

(** Stand-ins for the codecs, enough to tell the formats apart: the
    compressed stream is the data behind the two magic bytes of a gzip
    member; each decoder strips the magic of its own format and rejects
    every other stream. *)
Definition toy_gzip (ws : list Transfer.bytes) : Transfer.bytes :=
  (Byte.x1f :: Byte.x8b :: concat ws)%list.

Definition toy_gunzip (s : Transfer.bytes) : option Transfer.bytes :=
  match s with
  | Byte.x1f :: Byte.x8b :: data => Some data
  | _ => None
  end.

Definition toy_xzcat (s : Transfer.bytes) : option Transfer.bytes :=
  match s with
  | Byte.xfd :: Byte.x37 :: Byte.x7a :: Byte.x58 :: Byte.x5a :: Byte.x00 :: data =>
      Some data
  | _ => None
  end.

Definition image_on_disk : gmap string Transfer.bytes :=
  {[ "snappy.img" := [Byte.x55; Byte.xaa] ]}.

Definition blank_device : Transfer.bytes := [Byte.x00; Byte.x00; Byte.x00].



(** ** Notions used in the further properties *)

(** How many of the [len] processes from the [n]-th on succeed before
    the first one that does not. *)
Fixpoint leading_ok (w : world) (n len : nat) : nat :=
  match len with
  | 0 => 0
  | S len' =>
      if succeeded (fst (proc w n)) then S (leading_ok w (S n) len') else 0
  end.

(** The local processes that run the commands of a script. *)
Definition script_events (timeout : nat) (cmds : list string) : list event :=
  (fun cmd => Exec (py_split cmd) (Some timeout)) <$> cmds.

(** The remote commands that [_run_control] runs for [cmds] on the
    control host at [ip]. *)
Definition control_events (ip : string) (timeout : nat) (cmds : list string)
    : list event :=
  (fun cmd => Exec (ssh_argv "pi" ip cmd) (Some timeout)) <$> cmds.

(** The last process of a state was the probe for the master image,
    run on the control host at [ip], and its output shows the master
    image. *)
Definition ended_on_master_probe (w : world) (ip : string) (st : state) : Prop :=
  exists tr k,
    trace st = (tr ++ [Exec (ssh_argv "pi" ip "cat /etc/issue") (Some 60)])%list
    /\ nexec st = S k
    /\ shows_master (fst (proc w k)) = true.

(** Since [st] a process ran, and the last one was the probe for the
    master image, which answered yes. *)
Definition master_probed (w : world) (config : gmap string cfgval)
    (st st' : state) : Prop :=
  nexec st < nexec st'
  /\ exists ip, config !! "device_ip" = Some ip
               /\ ended_on_master_probe w (py_str ip) st'.

(** No more processes were spawned before. *)
Definition nexec_le (st st' : state) : Prop := nexec st <= nexec st'.

(** Once the image server has stopped listening it stays so, and the
    call of [file_server.terminate()] stays in the trace. *)
Definition server_gone (st st' : state) : Prop :=
  (file_server st <> Listening -> file_server st' <> Listening)
  /\ (ServerTerminate ∈ trace st -> ServerTerminate ∈ trace st').

(** The loop of [setboot] and [hardreset] over the commands of a
    script, which raises [err] at the first command that fails. *)
Definition run_script (w : world) (timeout : nat) (err : exn)
    (script : list string) : M unit :=
  for_each script (fun cmd =>
    try_except (check_call w (py_split cmd) (Some timeout))
      (fun _ => raise err)).




(** ** Further scenarios *)

(** A state in which one process has run before. *)
Definition after_one : state := mkState [] 1 0 NotStarted.

(** A device reset through a relay board in three commands, the second
    written with a no-break space, with a post-provision script of
    two. *)
Definition relay_config : gmap string cfgval :=
  <["reboot_script" :=
      VList ["relay off"; "relay" +:+ nbsp +:+ "on"; "relay status"]]>
  (<["post_provision_script" := VList ["sudo sync"; "sudo partprobe"]]> pi_config).

(** [lsblk] answers; sda1 mounts, holds a Core image and unmounts. *)
Definition core_image_world : world :=
  quiet_world
    (fun n =>
       match n with
       | 2 => (Exited0 "snap system-data user-data", 1)
       | _ => (Exited0 "", 1)
       end)
    (fun _ => Some two_partitions).

(** The partition mounts and holds a classic image, but is busy when it
    is unmounted. *)
Definition busy_world : world :=
  quiet_world
    (fun n =>
       match n with
       | 1 => (Exited0 "bin etc home var", 1)
       | 2 => (ExitedNonzero "umount: /mnt: target is busy", 1)
       | _ => (Exited0 "", 1)
       end)
    (fun _ => None).

(** The boot script runs; the device answers nothing afterwards. *)
Definition silent_device_world : world :=
  quiet_world
    (fun n =>
       match n with
       | 0 => (Exited0 "", 1)
       | _ => (TimedOut, 60)
       end)
    (fun _ => None).

(** A job whose [provision_data] is empty. *)
Definition empty_job : job := mkJob (Some ∅) None.

(** Image references: one that names a url and parameters for
    [ubuntu-device-flash] at once, one that names neither. *)
Definition both_sources : Images.image_reference :=
  {| Images.download_files := Some ["http://images.example/gadget.snap"];
     Images.url := Some "http://images.example/core.img";
     Images.udf_params := Some "core rolling" |}.

Definition no_source : Images.image_reference :=
  {| Images.download_files := Some ["http://images.example/gadget.snap"];
     Images.url := None;
     Images.udf_params := None |}.

Definition nothing_fails : Images.action -> option exn := fun _ => None.

(** A configuration that names the device to flash but not the control
    host. *)
Definition no_ip_config : gmap string cfgval :=
  <["test_device" := VStr "/dev/sda"]> ∅.

(** The exceptions that leave [ensure_master_image]. *)
Definition recovery_errors : list exn :=
  [TypeError;
   KeyError (Some "device_ip");
   KeyError (Some "select_master_script");
   KeyError (Some "reboot_script");
   ProvisioningError "timeout reaching control host!";
   RecoveryError "timeout reaching control host!";
   RecoveryError "Could not reboot to master!";
   RecoveryError "Device is in an unknown state, may require manual recovery!"].

(** The last process of a state was a probe for the test image, run as
    [ubuntu] on the device at [ip], and it succeeded. *)
Definition ended_on_test_probe (w : world) (ip : string) (st : state) : Prop :=
  exists tr k,
    trace st = (tr ++ [Exec (ssh_argv "ubuntu" ip "snap -h") (Some 60)])%list
    /\ nexec st = S k
    /\ succeeded (fst (proc w k)) = true.

(** The device boots the test image at the third probe. *)
Definition slow_boot_world : world :=
  quiet_world
    (fun n =>
       match n with
       | 0 | 1 => (Exited0 "", 1)
       | 2 | 3 => (ExitedNonzero "ssh: connect to host 10.0.0.2: Connection refused", 5)
       | _ => (Exited0 "", 2)
       end)
    (fun _ => None).

(** A configuration whose [reboot_script] is left empty in the YAML
    file, which [yaml.safe_load] reads as [None]. *)
Definition null_script_config : gmap string cfgval :=
  <["reboot_script" := VScalar "None"]> pi_config.

(** ** Properties *)

Section AgentFacts.

Variable w : world.
Variable config : gmap string cfgval.

Lemma run_control_spec cmd timeout st v :
  config !! "device_ip" = Some v ->
  _run_control w config cmd timeout st =
    (control_result (fst (proc w (nexec st))),
     spawned w st (ssh_argv "pi" (py_str v) cmd) (Some timeout)).
Proof.
  intros Hip. unfold _run_control, config_str, bind, try_except, check_output.
  rewrite Hip. cbn.
  destruct (fst (proc w (nexec st))); reflexivity.
Qed.

Lemma run_control_no_ip cmd timeout st :
  config !! "device_ip" = None ->
  _run_control w config cmd timeout st = (Raise (KeyError (Some "device_ip")), st).
Proof.
  intros Hip. unfold _run_control, config_str, bind. rewrite Hip. reflexivity.
Qed.

(** [_run_control] ends: it returns or raises. *)
Lemma run_control_total cmd timeout st :
  fst (_run_control w config cmd timeout st) <> OutOfFuel.
Proof.
  destruct (config !! "device_ip") as [v|] eqn:Hip.
  - rewrite (run_control_spec _ _ _ _ Hip). cbn.
    destruct (fst (proc w (nexec st))); discriminate.
  - rewrite (run_control_no_ip _ _ _ Hip). discriminate.
Qed.

(** C7: without [test_device] in the configuration, [flash_test_image]
    raises [RecoveryError] and leaves the state as it found it: no
    process was spawned, so neither the unmount, nor the write, nor the
    rescan ran. *)
Theorem flash_without_test_device server_ip server_port st :
  config !! "test_device" = None ->
  flash_test_image w config server_ip server_port st =
    (Raise (RecoveryError "Device config missing test_device"), st).
Proof.
  intros Hdev.
  unfold flash_test_image, flash_unmount, bind, try_except, config_str.
  rewrite Hdev. reflexivity.
Qed.

(** C4: with [test_device] and [device_ip] configured, the result of
    [flash_test_image] is decided by the write (the second process) and
    the rescan (the fourth) alone: a failed write raises
    [ProvisioningError], a failed rescan after a good write raises
    [ProvisioningError], and otherwise the flash returns, whatever the
    unmount (the first process) and the sync (the third) did.  The
    write is run after the unmount whether the unmount failed or not,
    and the rescan after the sync whether the sync failed or not. *)
Theorem flash_failure_handling server_ip server_port st dev ip :
  config !! "test_device" = Some dev ->
  config !! "device_ip" = Some ip ->
  let n := nexec st in
  let ok k := succeeded (fst (proc w k)) in
  let run cmd t := Exec (ssh_argv "pi" (py_str ip) cmd) (Some t) in
  let out := flash_test_image w config server_ip server_port st in
  fst out =
    (if negb (ok (1 + n))
     then Raise (ProvisioningError "timeout reached while flashing image!")
     else if negb (ok (3 + n))
     then Raise (ProvisioningError "Unable to run hdparm to rescan partitions")
     else Ret tt)
  /\ trace (snd out) =
      (trace st
       ++ [run ("sudo umount " +:+ py_str dev +:+ "*") 30;
           run (flash_cmd server_ip server_port (py_str dev)) 1800]
       ++ (if ok (1 + n)
           then [run "sync" 60]
                ++ (if ok (2 + n) then [] else [Sleep 30])
                ++ [run ("sudo hdparm -z " +:+ py_str dev) 30]
           else []))%list.
Proof.
  intros Hdev Hip n ok run out. subst out ok run n.
  unfold flash_test_image, flash_unmount, flash_write, flash_sync, flash_rescan.
  unfold bind, try_except, config_str. rewrite Hdev. cbn.
  rewrite !(run_control_spec _ _ _ _ Hip). cbn.
  destruct (fst (proc w (nexec st))) eqn:Ea; cbn;
    rewrite !(run_control_spec _ _ _ _ Hip); cbn;
    destruct (fst (proc w (S (nexec st)))) eqn:Eb; cbn;
    try (split; [reflexivity | rewrite <- !app_assoc; reflexivity]);
    rewrite !(run_control_spec _ _ _ _ Hip); cbn;
    destruct (fst (proc w (S (S (nexec st))))) eqn:Ec; cbn;
    rewrite !(run_control_spec _ _ _ _ Hip); cbn;
    destruct (fst (proc w (S (S (S (nexec st)))))) eqn:Ed; cbn;
    (split; [reflexivity | rewrite <- !app_assoc; reflexivity]).
Qed.

(** *** The boot verifier *)

Lemma is_test_image_booted_spec st v :
  config !! "device_ip" = Some v ->
  is_test_image_booted w config st =
    (Ret (succeeded (fst (proc w (nexec st)))),
     spawned w st (ssh_argv "ubuntu" (py_str v) "snap -h") (Some 60)).
Proof.
  intros Hip. unfold is_test_image_booted, config_str, bind, try_except, check_output.
  rewrite Hip. cbn. destruct (fst (proc w (nexec st))); reflexivity.
Qed.

Lemma is_test_image_booted_no_ip st :
  config !! "device_ip" = None ->
  is_test_image_booted w config st = (Raise (KeyError (Some "device_ip")), st).
Proof.
  intros Hip. unfold is_test_image_booted, config_str, bind. rewrite Hip. reflexivity.
Qed.

Lemma is_master_image_booted_spec st v :
  config !! "device_ip" = Some v ->
  is_master_image_booted w config st =
    (Ret (shows_master (fst (proc w (nexec st)))),
     spawned w st (ssh_argv "pi" (py_str v) "cat /etc/issue") (Some 60)).
Proof.
  intros Hip. unfold is_master_image_booted, bind, try_except.
  rewrite (run_control_spec _ _ _ _ Hip).
  destruct (fst (proc w (nexec st))); reflexivity.
Qed.

Lemma is_master_image_booted_no_ip st :
  config !! "device_ip" = None ->
  is_master_image_booted w config st = (Ret false, st).
Proof.
  intros Hip. unfold is_master_image_booted, bind, try_except.
  rewrite (run_control_no_ip _ _ _ Hip). reflexivity.
Qed.

(** C9: a mode other than [master] and [test] makes [setboot] raise a
    bare [KeyError], whatever the configuration holds; the state only
    records that the method was entered: no process was spawned. *)
Theorem setboot_rejects_other_modes mode st :
  mode <> "master" ->
  mode <> "test" ->
  setboot w config mode st = (Raise (KeyError None), entered st "setboot").
Proof.
  intros Hm Ht. unfold setboot, bind, log_event. cbn.
  destruct (decide (mode = "master")) as [E|_]; [contradiction|].
  destruct (decide (mode = "test")) as [E|_]; [contradiction|].
  reflexivity.
Qed.

(** C10: when the first probe for the test image answers no and the
    first probe for the master image answers yes, [ensure_master_image]
    returns in the state the two probes left: the only events since the
    call are the two probe processes, so neither [setboot] nor
    [hardreset] was entered and no other command ran. *)
Theorem master_already_booted depth st st1 st2 :
  is_test_image_booted w config st = (Ret false, st1) ->
  is_master_image_booted w config st1 = (Ret true, st2) ->
  ensure_master_image w config (S depth) st = (Ret tt, st2)
  /\ exists ip,
       trace st2 =
         (trace st
          ++ [Exec (ssh_argv "ubuntu" ip "snap -h") (Some 60);
              Exec (ssh_argv "pi" ip "cat /etc/issue") (Some 60)])%list.
Proof.
  intros Htest Hmaster. split.
  - cbn [ensure_master_image]. unfold bind at 1. rewrite Htest.
    unfold bind at 1. unfold ret at 1. unfold bind at 1. rewrite Hmaster.
    reflexivity.
  - destruct (config !! "device_ip") as [v|] eqn:Hip.
    + rewrite (is_test_image_booted_spec _ _ Hip) in Htest.
      injection Htest as _ <-.
      rewrite (is_master_image_booted_spec _ _ Hip) in Hmaster.
      injection Hmaster as _ <-.
      exists (py_str v). cbn. rewrite <- app_assoc. reflexivity.
    + rewrite (is_test_image_booted_no_ip _ Hip) in Htest. discriminate.
Qed.

(** *** The image inspector *)

(** What the scan makes of one partition: a type only when the
    partition mounted, its listing shows a marker and it unmounted
    again; one process when the mount fails, three otherwise. *)
Lemma check_partition_result dev st ip :
  config !! "device_ip" = Some ip ->
  let n := nexec st in
  let ok k := succeeded (fst (proc w k)) in
  let out := check_partition w config dev st in
  fst out =
    Ret (if ok n && ok (2 + n) then listed_type (fst (proc w (1 + n))) else None)
  /\ nexec (snd out) = (if ok n then 3 + n else 1 + n).
Proof.
  intros Hip n ok out. subst out ok n.
  unfold check_partition, remote_mount, try_except, try_finally, bind.
  rewrite (run_control_spec _ _ _ _ Hip).
  destruct (fst (proc w (nexec st))) eqn:Emount; cbn [control_result fst snd succeeded andb];
    try (split; reflexivity).
  rewrite (run_control_spec _ _ _ _ Hip). cbn [spawned nexec].
  destruct (fst (proc w (S (nexec st)))) as [out| | |] eqn:Els;
    cbn [control_result fst snd ret]; unfold decode;
    try destruct (py_decode out) as [listing|] eqn:Edec;
    cbn [ret raise fst snd];
    rewrite (run_control_spec _ _ _ _ Hip); cbn [spawned nexec];
    destruct (fst (proc w (S (S (nexec st))))) eqn:Eumount;
    cbn [control_result fst snd ret succeeded listed_type Nat.add];
    rewrite ?Els, ?Eumount; cbn [succeeded listed_type];
    rewrite ?Edec;
    split; try reflexivity;
    destruct (first_marker IMAGE_PATH_IDS (py_split listing)); reflexivity.
Qed.

Lemma last_cons_default {A} (l : list A) (d dev : A) :
  default dev (last (d :: l)) = default d (last l).
Proof.
  revert d dev. induction l as [|x l IH]; intros d dev; [reflexivity|].
  change (last (d :: x :: l)) with (last (x :: l)).
  rewrite (IH x dev), (IH x d). reflexivity.
Qed.

Lemma scan_partitions_no_match dev_list dev st ip :
  config !! "device_ip" = Some ip ->
  Forall (fun k => listed_type (fst (proc w k)) = None)
    (scan_listings w (nexec st) (length dev_list)) ->
  fst (scan_partitions w config dev_list dev st) =
    Ret ("unknown", default dev (last dev_list)).
Proof.
  intros Hip. revert dev st.
  induction dev_list as [|d rest IH]; intros dev st Hno.
  - reflexivity.
  - cbn [scan_partitions]. unfold bind at 1.
    destruct (check_partition_result d st ip Hip) as [Hres Hn].
    destruct (check_partition w config d st) as [r st'].
    cbn [fst snd] in Hres, Hn. cbn [length scan_listings] in Hno.
    destruct (succeeded (fst (proc w (nexec st)))) eqn:Emount.
    + apply Forall_cons in Hno as [Hls Hno].
      cbn [Nat.add] in Hres. rewrite Hls in Hres.
      assert (Hr : r = Ret None).
      { rewrite Hres. cbn [andb].
        destruct (succeeded (fst (proc w (S (S (nexec st)))))); reflexivity. }
      rewrite Hr. cbv beta iota. rewrite IH by (rewrite Hn; exact Hno).
      rewrite last_cons_default. reflexivity.
    + cbn [andb] in Hres. rewrite Hres. cbv beta iota.
      rewrite IH by (rewrite Hn; exact Hno).
      rewrite last_cons_default. reflexivity.
Qed.

(** C3, amended: when [lsblk] answers, its output decodes and parses,
    the first block device has at least one named child, and no
    listing of a partition that mounted shows a marker path,
    [get_image_type] returns [unknown] with the last named child,
    whatever the mounts, listings and unmounts do. *)
Theorem get_image_type_unknown st dev ip out text doc d ds cs p :
  config !! "test_device" = Some dev ->
  config !! "device_ip" = Some ip ->
  fst (proc w (nexec st)) = Exited0 out ->
  py_decode out = Some text ->
  json_loads w text = Some doc ->
  blockdevices doc = Some (d :: ds) ->
  dev_children d = Some cs ->
  last (named_children cs) = Some p ->
  Forall (fun k => listed_type (fst (proc w k)) = None)
    (scan_listings w (S (nexec st)) (length (named_children cs))) ->
  fst (get_image_type w config st) = Ret ("unknown", p).
Proof.
  intros Hdev Hip Hlsblk Hdec Hjson Hbd Hcs Hlast Hno.
  unfold get_image_type, config_str. rewrite Hdev.
  unfold bind at 1. cbn [ret].
  unfold bind at 1. rewrite (run_control_spec _ _ _ _ Hip), Hlsblk.
  cbn [control_result]. unfold bind at 1. unfold decode. rewrite Hdec. cbn [ret].
  rewrite Hjson.
  unfold bind at 1. cbn [ret].
  unfold bind at 1. unfold lsblk_children. rewrite Hbd, Hcs. cbn [ret].
  rewrite (scan_partitions_no_match _ _ _ ip Hip) by exact Hno.
  rewrite Hlast. reflexivity.
Qed.

End AgentFacts.

Lemma get_image_type_unknown_witness :
  fst (get_image_type unmarked_world pi_config idle) = Ret ("unknown", "sda2").
Proof.
  apply (get_image_type_unknown unmarked_world pi_config idle
           (VStr "/dev/sda") (VStr "10.0.0.2") "{...}" "{...}" two_partitions
           {| dev_children :=
                Some [ {| child_name := Some "sda1" |};
                       {| child_name := Some "sda2" |} ] |}
           []
           [ {| child_name := Some "sda1" |}; {| child_name := Some "sda2" |} ]
           "sda2");
    try reflexivity.
  repeat constructor.
Defined.

(** C3 as stated fails: output of [lsblk] that is not JSON, or not
    UTF-8, makes [get_image_type] raise, and so does a failing [lsblk];
    with an empty list of children the name returned is the configured
    device, not a partition. *)
Lemma get_image_type_can_raise :
  fst (get_image_type garbled_world pi_config idle) = Raise ValueError
  /\ fst (get_image_type binary_world pi_config idle) = Raise UnicodeDecodeError
  /\ fst (get_image_type no_lsblk_world pi_config idle) =
       Raise (ProvisioningError "lsblk: /dev/sda: not a block device")
  /\ fst (get_image_type no_partition_world pi_config idle) =
       Ret ("unknown", "/dev/sda").
Proof.
  repeat split; vm_compute; reflexivity.
Qed.

(** *** How the combinators and the methods move the state *)

Create HintDb respects.

Section Respects.

Variable R : state -> state -> Prop.
Hypothesis R_refl : forall st, R st st.
Hypothesis R_trans : forall a b c, R a b -> R b c -> R a c.

Lemma respects_ret {A} (a : A) : respects R (ret a).
Proof. intros st. apply R_refl. Qed.

Lemma respects_raise {A} (e : exn) : respects R (@raise A e).
Proof. intros st. apply R_refl. Qed.

Lemma respects_bind {A B} (m : M A) (k : A -> M B) :
  respects R m -> (forall a, respects R (k a)) -> respects R (bind m k).
Proof.
  intros Hm Hk st. unfold bind. specialize (Hm st).
  destruct (m st) as [[a|e|] st']; cbn in *; try assumption.
  eapply R_trans; [exact Hm | apply Hk].
Qed.

Lemma respects_try_except {A} (m : M A) (h : exn -> M A) :
  respects R m -> (forall e, respects R (h e)) -> respects R (try_except m h).
Proof.
  intros Hm Hh st. unfold try_except. specialize (Hm st).
  destruct (m st) as [[a|e|] st']; cbn in *; try assumption.
  eapply R_trans; [exact Hm | apply Hh].
Qed.

Lemma respects_try_finally {A} (m : M A) (f : M unit) :
  respects R m -> respects R f -> respects R (try_finally m f).
Proof.
  intros Hm Hf st. unfold try_finally. specialize (Hm st).
  destruct (m st) as [[a|e|] st']; cbn in *; try assumption;
    specialize (Hf st'); destruct (f st') as [[[]|e'|] st'']; cbn in *;
    eapply R_trans; eassumption.
Qed.

Lemma respects_for_each {A} (l : list A) (body : A -> M unit) :
  (forall x, respects R (body x)) -> respects R (for_each l body).
Proof.
  intros Hb. induction l as [|x l IH]; cbn [for_each].
  - apply respects_ret.
  - apply respects_bind; [apply Hb | intros _; exact IH].
Qed.

(** The methods of the agent, for a relation that every spawned
    process, every entry mark and every sleep respects. *)

Variable w : world.
Variable config : gmap string cfgval.
Hypothesis R_spawned : forall st argv timeout, R st (spawned w st argv timeout).
Hypothesis R_entered : forall st method, R st (entered st method).
Hypothesis R_sleep : forall st secs, R st (snd (time_sleep secs st)).

Local Hint Resolve respects_ret respects_raise respects_bind
  respects_try_except respects_try_finally respects_for_each : respects.

Lemma respects_check_output argv timeout :
  respects R (check_output w argv timeout).
Proof.
  intros st. unfold check_output. destruct argv as [|a argv]; [apply R_refl|].
  destruct (fst (proc w (nexec st))); apply R_spawned.
Qed.

Lemma respects_check_call argv timeout :
  respects R (check_call w argv timeout).
Proof.
  unfold check_call. apply respects_bind; auto using respects_check_output with respects.
Qed.

Lemma respects_config_str key : respects R (config_str config key).
Proof. unfold config_str. destruct (config !! key); auto with respects. Qed.

Lemma respects_py_iter v : respects R (py_iter v).
Proof. destruct v; [apply respects_ret | apply respects_ret | apply respects_raise]. Qed.

Lemma respects_config_list key : respects R (config_list config key).
Proof.
  unfold config_list. destruct (config !! key);
    auto using respects_py_iter with respects.
Qed.

Lemma respects_decode b : respects R (decode b).
Proof. unfold decode. destruct (py_decode b); auto with respects. Qed.

Lemma respects_time_time : respects R time_time.
Proof. intros st. apply R_refl. Qed.

Lemma respects_time_sleep secs : respects R (time_sleep secs).
Proof. intros st. apply R_sleep. Qed.

Lemma respects_entered method : respects R (log_event (Entered method)).
Proof. intros st. apply R_entered. Qed.

Local Hint Resolve respects_check_output respects_check_call respects_config_str
  respects_config_list respects_py_iter respects_decode respects_time_time
  respects_time_sleep respects_entered : respects.

Lemma respects_run_control cmd timeout :
  respects R (_run_control w config cmd timeout).
Proof.
  unfold _run_control. apply respects_bind; [auto with respects|]. intros ip.
  apply respects_try_except; [auto with respects|].
  intros []; auto with respects.
Qed.

Local Hint Resolve respects_run_control : respects.

Ltac step :=
  first
    [ solve [auto with respects]
    | apply respects_bind; [| intro]
    | apply respects_try_except; [| intro]
    | apply respects_try_finally
    | apply respects_for_each; intro ].

Lemma respects_remote_mount {A} dev mp (body : string -> M A) :
  (forall p, respects R (body p)) -> respects R (remote_mount w config dev mp body).
Proof. intros Hb. unfold remote_mount. repeat step. Qed.

Lemma respects_flash_test_image ip port :
  respects R (flash_test_image w config ip port).
Proof.
  unfold flash_test_image, flash_unmount, flash_write, flash_sync, flash_rescan.
  repeat step; destruct e; auto with respects.
Qed.

Lemma respects_check_partition dev : respects R (check_partition w config dev).
Proof.
  unfold check_partition.
  apply respects_try_except; [|auto with respects].
  apply respects_remote_mount. intro. repeat step.
Qed.

Lemma respects_scan_partitions dev_list dev :
  respects R (scan_partitions w config dev_list dev).
Proof.
  revert dev. induction dev_list as [|d rest IH]; intros dev; cbn [scan_partitions].
  - auto with respects.
  - apply respects_bind; [apply respects_check_partition|].
    intros [t|]; auto with respects.
Qed.

Lemma respects_get_image_type : respects R (get_image_type w config).
Proof.
  unfold get_image_type.
  apply respects_bind; [auto with respects|]. intros dev.
  apply respects_bind; [auto with respects|]. intros lsblk_data.
  apply respects_bind; [auto with respects|]. intros lsblk_text.
  apply respects_bind.
  { destruct (json_loads w lsblk_text); auto with respects. }
  intros doc. apply respects_bind; [|intros; apply respects_scan_partitions].
  unfold lsblk_children.
  destruct (blockdevices doc) as [[|d ds]|]; auto with respects.
  destruct (dev_children d); auto with respects.
Qed.

Lemma respects_setboot mode : respects R (setboot w config mode).
Proof.
  unfold setboot. repeat step.
  destruct (decide (mode = "master")); [auto with respects|].
  destruct (decide (mode = "test")); auto with respects.
Qed.

Lemma respects_hardreset : respects R (hardreset w config).
Proof. unfold hardreset. repeat step. Qed.

Lemma respects_is_test_image_booted : respects R (is_test_image_booted w config).
Proof. unfold is_test_image_booted. repeat step. Qed.

Lemma respects_is_master_image_booted : respects R (is_master_image_booted w config).
Proof. unfold is_master_image_booted. repeat step. Qed.

Local Hint Resolve respects_setboot respects_hardreset
  respects_is_test_image_booted respects_is_master_image_booted : respects.

Lemma respects_test_poll fuel started user password :
  respects R (test_poll w config fuel started user password).
Proof.
  induction fuel as [|fuel IH]; cbn [test_poll].
  - intros st. apply R_refl.
  - apply respects_bind; [auto with respects|]. intros t.
    destruct (t - started <? 600)%nat; [|auto with respects].
    apply respects_bind; [unfold test_round; repeat step|].
    intros []; auto with respects.
Qed.

Lemma respects_ensure_test_image user password :
  respects R (ensure_test_image w config user password).
Proof.
  unfold ensure_test_image.
  apply respects_bind; [auto with respects|]. intros _.
  apply respects_bind; [repeat step|]. intros _.
  apply respects_bind; [auto with respects|]. intros _.
  apply respects_bind; [auto with respects|]. intros started.
  apply respects_bind; [apply respects_test_poll|].
  intros [|]; auto with respects.
Qed.

Lemma respects_master_poll fuel started mb :
  respects R (master_poll w config fuel started mb).
Proof.
  revert mb. induction fuel as [|fuel IH]; intros mb; cbn [master_poll].
  - intros st. apply R_refl.
  - apply respects_bind; [auto with respects|]. intros t.
    destruct (t - started <? 300)%nat; [|auto with respects].
    apply respects_bind; [auto with respects|]. intros _.
    apply respects_bind; [auto with respects|].
    intros [|]; auto with respects.
Qed.

Lemma respects_unknown_poll fuel started :
  respects R (unknown_poll w config fuel started).
Proof.
  induction fuel as [|fuel IH]; cbn [unknown_poll].
  - intros st. apply R_refl.
  - apply respects_bind; [auto with respects|]. intros t.
    destruct (t - started <? 300)%nat; [|auto with respects].
    apply respects_bind; [auto with respects|]. intros _.
    apply respects_bind; [auto with respects|].
    intros [|]; [auto with respects|].
    apply respects_bind; [auto with respects|].
    intros [|]; auto with respects.
Qed.

Lemma respects_create_user image_type : respects R (create_user w config image_type).
Proof.
  unfold create_user. repeat step.
  destruct (decide (image_type = "core20")); repeat step.
  destruct (decide (image_type = "ubuntu")); repeat step.
Qed.

Lemma respects_wipe_test_device : respects R (wipe_test_device w config).
Proof. unfold wipe_test_device. repeat step. Qed.

Lemma respects_run_post_provision_script :
  respects R (run_post_provision_script w config).
Proof.
  unfold run_post_provision_script.
  apply respects_bind; [|intro; repeat step].
  destruct (config !! "post_provision_script"); auto with respects.
Qed.


End Respects.

Lemma total_ret {A} (a : A) : total (ret a).
Proof. intros st. discriminate. Qed.

Lemma total_raise {A} (e : exn) : total (@raise A e).
Proof. intros st. discriminate. Qed.

Lemma total_bind {A B} (m : M A) (k : A -> M B) :
  total m -> (forall a, total (k a)) -> total (bind m k).
Proof.
  intros Hm Hk st. unfold bind. specialize (Hm st).
  destruct (m st) as [[a|e|] st']; cbn in *; solve [congruence | apply Hk].
Qed.

Lemma total_try_except {A} (m : M A) (h : exn -> M A) :
  total m -> (forall e, total (h e)) -> total (try_except m h).
Proof.
  intros Hm Hh st. unfold try_except. specialize (Hm st).
  destruct (m st) as [[a|e|] st']; cbn in *; solve [congruence | apply Hh].
Qed.

Lemma total_try_finally {A} (m : M A) (f : M unit) :
  total m -> total f -> total (try_finally m f).
Proof.
  intros Hm Hf st. unfold try_finally. specialize (Hm st).
  destruct (m st) as [[a|e|] st']; cbn in *; try congruence;
    specialize (Hf st'); destruct (f st') as [[[]|e'|] st'']; cbn in *;
    congruence.
Qed.

Lemma total_for_each {A} (l : list A) (body : A -> M unit) :
  (forall x, total (body x)) -> total (for_each l body).
Proof.
  intros Hb. induction l as [|x l IH]; cbn [for_each].
  - apply total_ret.
  - apply total_bind; [apply Hb | intros _; exact IH].
Qed.

(** *** Termination of the methods *)

Create HintDb total.

Section Totality.

Variable w : world.
Variable config : gmap string cfgval.

Local Hint Resolve total_ret total_raise total_bind total_try_except
  total_try_finally total_for_each : total.

Lemma total_check_output argv timeout : total (check_output w argv timeout).
Proof.
  intros st. unfold check_output. destruct argv; [discriminate|].
  destruct (fst (proc w (nexec st))); discriminate.
Qed.

Lemma total_check_call argv timeout : total (check_call w argv timeout).
Proof. unfold check_call. auto using total_check_output with total. Qed.

Lemma total_config_str key : total (config_str config key).
Proof. unfold config_str. destruct (config !! key); auto with total. Qed.

Lemma total_py_iter v : total (py_iter v).
Proof. destruct v; [apply total_ret | apply total_ret | apply total_raise]. Qed.

Lemma total_config_list key : total (config_list config key).
Proof.
  unfold config_list. destruct (config !! key); auto using total_py_iter with total.
Qed.

Lemma total_decode b : total (decode b).
Proof. unfold decode. destruct (py_decode b); auto with total. Qed.

Lemma total_time_time : total time_time.
Proof. intros st. discriminate. Qed.

Lemma total_time_sleep secs : total (time_sleep secs).
Proof. intros st. discriminate. Qed.

Lemma total_log_event e : total (log_event e).
Proof. intros st. discriminate. Qed.

Lemma total_run_control cmd timeout : total (_run_control w config cmd timeout).
Proof. intros st. apply run_control_total. Qed.

Local Hint Resolve total_check_output total_check_call total_config_str
  total_config_list total_py_iter total_decode total_time_time total_time_sleep
  total_log_event total_run_control : total.

Ltac tstep :=
  first
    [ solve [auto with total]
    | apply total_bind; [| intro]
    | apply total_try_except; [| intro]
    | apply total_try_finally
    | apply total_for_each; intro ].

Lemma total_remote_mount {A} dev mp (body : string -> M A) :
  (forall p, total (body p)) -> total (remote_mount w config dev mp body).
Proof. intros Hb. unfold remote_mount. repeat tstep. Qed.

Lemma total_flash_test_image ip port : total (flash_test_image w config ip port).
Proof.
  unfold flash_test_image, flash_unmount, flash_write, flash_sync, flash_rescan.
  repeat tstep; destruct e; auto with total.
Qed.

Lemma total_check_partition dev : total (check_partition w config dev).
Proof.
  unfold check_partition.
  apply total_try_except; [|auto with total].
  apply total_remote_mount. intro. repeat tstep.
Qed.

Lemma total_scan_partitions dev_list dev :
  total (scan_partitions w config dev_list dev).
Proof.
  revert dev. induction dev_list as [|d rest IH]; intros dev; cbn [scan_partitions].
  - auto with total.
  - apply total_bind; [apply total_check_partition|].
    intros [t|]; auto with total.
Qed.

Lemma total_get_image_type : total (get_image_type w config).
Proof.
  unfold get_image_type.
  apply total_bind; [auto with total|]. intros dev.
  apply total_bind; [auto with total|]. intros lsblk_data.
  apply total_bind; [auto with total|]. intros lsblk_text.
  apply total_bind.
  { destruct (json_loads w lsblk_text); auto with total. }
  intros doc. apply total_bind; [|intros; apply total_scan_partitions].
  unfold lsblk_children.
  destruct (blockdevices doc) as [[|d ds]|]; auto with total.
  destruct (dev_children d); auto with total.
Qed.

Lemma total_setboot mode : total (setboot w config mode).
Proof.
  unfold setboot. repeat tstep.
  destruct (decide (mode = "master")); [auto with total|].
  destruct (decide (mode = "test")); auto with total.
Qed.

Lemma total_hardreset : total (hardreset w config).
Proof. unfold hardreset. repeat tstep. Qed.

Lemma total_is_test_image_booted : total (is_test_image_booted w config).
Proof. unfold is_test_image_booted. repeat tstep. Qed.

Lemma total_is_master_image_booted : total (is_master_image_booted w config).
Proof. unfold is_master_image_booted. repeat tstep. Qed.

Lemma total_create_user image_type : total (create_user w config image_type).
Proof.
  unfold create_user. repeat tstep.
  destruct (decide (image_type = "core20")); repeat tstep.
  destruct (decide (image_type = "ubuntu")); repeat tstep.
Qed.

Lemma total_wipe_test_device : total (wipe_test_device w config).
Proof. unfold wipe_test_device. repeat tstep. Qed.

Lemma total_run_post_provision_script :
  total (run_post_provision_script w config).
Proof.
  unfold run_post_provision_script.
  apply total_bind; [|intro; repeat tstep].
  destruct (config !! "post_provision_script"); auto with total.
Qed.

End Totality.

(** *** The polling loops end within their budget *)

Section Polling.

Variable w : world.
Variable config : gmap string cfgval.

Lemma later_refl st : later st st.
Proof. unfold later. lia. Qed.

Lemma later_trans a b c : later a b -> later b c -> later a c.
Proof. unfold later. lia. Qed.

Lemma later_spawned st argv timeout : later st (spawned w st argv timeout).
Proof. unfold later. cbn. lia. Qed.

Lemma later_entered st method : later st (entered st method).
Proof. unfold later. cbn. lia. Qed.

Lemma later_sleep st secs : later st (snd (time_sleep secs st)).
Proof. unfold later. cbn. lia. Qed.

Lemma later_is_master_image_booted st :
  now st <= now (snd (is_master_image_booted w config st)).
Proof.
  apply (respects_is_master_image_booted later later_refl later_trans w config
           later_spawned).
Qed.

Lemma later_is_test_image_booted st :
  now st <= now (snd (is_test_image_booted w config st)).
Proof.
  apply (respects_is_test_image_booted later later_refl later_trans w config
           later_spawned).
Qed.

(** The loop that waits for the master image after a reset makes at
    most [budget / interval] rounds. *)
Lemma master_poll_total fuel started mb st :
  started + 300 <= now st + 10 * fuel ->
  fst (master_poll w config (S fuel) started mb st) <> OutOfFuel.
Proof.
  revert mb st. induction fuel as [|fuel IH]; intros mb st Hbudget;
    cbn [master_poll]; unfold bind at 1; cbn [time_time];
    destruct (now st - started <? 300)%nat eqn:E; try discriminate;
    apply Nat.ltb_lt in E; [lia|].
  unfold bind at 1. cbn [time_sleep].
  set (st1 := mkState _ _ _ _).
  unfold bind at 1.
  pose proof (later_is_master_image_booted st1) as Hlater.
  pose proof (total_is_master_image_booted w config st1) as Htotal.
  destruct (is_master_image_booted w config st1) as [[[|]|e|] st2];
    cbn in Hlater, Htotal; try discriminate; try congruence.
  apply IH. subst st1. cbn in Hlater. lia.
Qed.

Lemma unknown_poll_total fuel started st :
  started + 300 <= now st + 10 * fuel ->
  fst (unknown_poll w config (S fuel) started st) <> OutOfFuel.
Proof.
  revert st. induction fuel as [|fuel IH]; intros st Hbudget;
    cbn [unknown_poll]; unfold bind at 1; cbn [time_time];
    destruct (now st - started <? 300)%nat eqn:E; try discriminate;
    apply Nat.ltb_lt in E; [lia|].
  unfold bind at 1. cbn [time_sleep].
  set (st1 := mkState _ _ _ _).
  unfold bind at 1.
  pose proof (later_is_master_image_booted st1) as Hlater.
  pose proof (total_is_master_image_booted w config st1) as Htotal.
  destruct (is_master_image_booted w config st1) as [[[|]|e|] st2];
    cbn in Hlater, Htotal; try discriminate; try congruence.
  unfold bind at 1.
  pose proof (later_is_test_image_booted st2) as Hlater'.
  pose proof (total_is_test_image_booted w config st2) as Htotal'.
  destruct (is_test_image_booted w config st2) as [[[|]|e|] st3];
    cbn in Hlater', Htotal'; try discriminate; try congruence.
  apply IH. subst st1. cbn in Hlater. lia.
Qed.

(** One round of the wait for the test image takes ten seconds or more. *)
Lemma test_round_later user password st :
  now st + 10 <= now (snd (test_round w config user password st)).
Proof.
  unfold test_round, try_except. unfold bind at 1. cbn [time_sleep].
  set (st1 := mkState _ _ _ _).
  set (rest := bind _ _).
  assert (Hrest : respects later rest).
  { subst rest.
    apply (respects_bind later later_trans);
      [apply (respects_config_str later later_refl)|]. intros ip.
    apply (respects_bind later later_trans);
      [apply (respects_check_call later later_refl later_trans w later_spawned)|].
    intros _.
    apply (respects_is_test_image_booted later later_refl later_trans w config
             later_spawned). }
  specialize (Hrest st1). unfold later in Hrest.
  destruct (rest st1) as [[b|e|] st2]; cbn in Hrest |- *; subst st1; cbn in Hrest; lia.
Qed.

Lemma test_round_total user password : total (test_round w config user password).
Proof.
  unfold test_round. apply total_try_except; [|intros; apply total_ret].
  apply total_bind; [apply total_time_sleep|]. intros _.
  apply total_bind; [apply total_config_str|]. intros ip.
  apply total_bind; [apply total_check_call|]. intros _.
  apply total_is_test_image_booted.
Qed.

Lemma test_poll_total fuel started user password st :
  started + 600 <= now st + 10 * fuel ->
  fst (test_poll w config (S fuel) started user password st) <> OutOfFuel.
Proof.
  revert st. induction fuel as [|fuel IH]; intros st Hbudget;
    cbn [test_poll]; unfold bind at 1; cbn [time_time];
    destruct (now st - started <? 600)%nat eqn:E; try discriminate;
    apply Nat.ltb_lt in E; [lia|].
  unfold bind at 1.
  pose proof (test_round_later user password st) as Hlater.
  pose proof (test_round_total user password st) as Htotal.
  destruct (test_round w config user password st) as [[[|]|e|] st2];
    cbn in Hlater, Htotal; try discriminate; try congruence.
  apply IH. lia.
Qed.

(** [ensure_test_image] ends: it returns or raises. *)
Lemma total_ensure_test_image user password :
  total (ensure_test_image w config user password).
Proof.
  unfold ensure_test_image.
  apply total_bind; [apply total_setboot|]. intros _.
  apply total_bind.
  { apply total_try_except; [|intros; apply total_ret].
    apply total_bind; [apply total_run_control | intros; apply total_ret]. }
  intros _. apply total_bind; [apply total_time_sleep|]. intros _.
  intros st. unfold bind at 1. cbn [time_time]. unfold bind at 1.
  pose proof (test_poll_total (600 / 10) (now st) user password st) as Hpoll.
  unfold poll_fuel.
  destruct (test_poll w config (S (600 / 10)) (now st) user password st)
    as [[[|]|e|] st2]; cbn in Hpoll |- *; try discriminate.
  exfalso. apply Hpoll; [|reflexivity]. lia.
Qed.

End Polling.

(** *** The recovery state machine *)

Lemma hardreset_single w config st cmd a argv :
  config !! "reboot_script" = Some (VList [cmd]) ->
  py_split cmd = a :: argv ->
  succeeded (fst (proc w (nexec st))) = true ->
  hardreset w config st =
    (Ret tt, spawned w (entered st "hardreset") (a :: argv) (Some 120)).
Proof.
  intros Hcfg Hsplit Hok.
  unfold hardreset, bind, log_event, config_list. rewrite Hcfg.
  cbn [py_iter ret for_each].
  unfold bind, try_except, check_call, bind, check_output. rewrite Hsplit.
  cbn [nexec]. destruct (fst (proc w (nexec st))); try discriminate. reflexivity.
Qed.

Lemma resets_app tr tr' : resets (tr ++ tr') = resets tr + resets tr'.
Proof.
  induction tr as [|[] tr IH]; cbn [resets app]; rewrite ?IH; lia.
Qed.

Lemma flapping_proc_round n k :
  n mod 5 = 0 -> k < 5 -> flapping_proc (k + n) = flapping_proc k.
Proof.
  intros Hn Hk. unfold flapping_proc.
  replace ((k + n) mod 5) with (k mod 5); [reflexivity|].
  rewrite Nat.Div0.add_mod, Hn, Nat.add_0_r, Nat.Div0.mod_mod. reflexivity.
Qed.

Lemma pi_config_ip : pi_config !! "device_ip" = Some (VStr "10.0.0.2").
Proof. reflexivity. Qed.

(** One round against the flapping device: both probes fail, the reset
    goes through, the master probe fails again, the test probe
    succeeds, and [ensure_master_image] calls itself, five processes
    and one reset later. *)
Lemma flapping_round depth st :
  nexec st mod 5 = 0 ->
  exists st',
    ensure_master_image flapping_world pi_config (S depth) st =
      ensure_master_image flapping_world pi_config depth st'
    /\ nexec st' mod 5 = 0
    /\ resets (trace st') = S (resets (trace st)).
Proof.
  intros Hn.
  pose proof (flapping_proc_round (nexec st) 0 Hn ltac:(lia)) as H0.
  pose proof (flapping_proc_round (nexec st) 1 Hn ltac:(lia)) as H1.
  pose proof (flapping_proc_round (nexec st) 2 Hn ltac:(lia)) as H2.
  pose proof (flapping_proc_round (nexec st) 3 Hn ltac:(lia)) as H3.
  pose proof (flapping_proc_round (nexec st) 4 Hn ltac:(lia)) as H4.
  cbn [Nat.add] in *.
  unfold flapping_proc at 2 in H0. unfold flapping_proc at 2 in H1.
  unfold flapping_proc at 2 in H2. unfold flapping_proc at 2 in H3.
  unfold flapping_proc at 2 in H4. cbn in H0, H1, H2, H3, H4.
  cbn [ensure_master_image]. unfold bind at 1.
  rewrite (is_test_image_booted_spec _ _ _ _ pi_config_ip).
  change (proc flapping_world) with flapping_proc.
  rewrite H0. cbn [fst succeeded].
  unfold bind at 1. cbn [ret]. unfold bind at 1.
  rewrite (is_master_image_booted_spec _ _ _ _ pi_config_ip).
  change (proc flapping_world) with flapping_proc.
  cbn [nexec spawned]. rewrite H1. cbn [fst shows_master].
  unfold bind at 1.
  erewrite hardreset_single; [| reflexivity | reflexivity |].
  2:{ change (proc flapping_world) with flapping_proc. cbn [nexec spawned].
      rewrite H2. reflexivity. }
  unfold bind at 1. cbn [time_time]. unfold bind at 1.
  cbn [poll_fuel unknown_poll]. unfold bind at 1. cbn [time_time].
  rewrite Nat.sub_diag. cbn [Nat.ltb Nat.leb].
  unfold bind at 1. cbn [time_sleep]. unfold bind at 1.
  rewrite (is_master_image_booted_spec _ _ _ _ pi_config_ip).
  change (proc flapping_world) with flapping_proc.
  cbn [nexec spawned entered]. rewrite H3. cbn [fst shows_master].
  unfold bind at 1.
  rewrite (is_test_image_booted_spec _ _ _ _ pi_config_ip).
  change (proc flapping_world) with flapping_proc.
  cbn [nexec spawned entered]. rewrite H4. cbn [fst succeeded ret].
  eexists. split; [reflexivity|]. split.
  - cbn [nexec spawned].
    change (S (S (S (S (S (nexec st)))))) with (5 + nexec st).
    rewrite Nat.Div0.add_mod, Hn. reflexivity.
  - cbn [trace spawned entered]. rewrite !resets_app. cbn.
    destruct (decide ("hardreset" = "hardreset")); [lia | congruence].
Qed.

Lemma flapping_rounds depth st :
  nexec st mod 5 = 0 ->
  fst (ensure_master_image flapping_world pi_config depth st) = OutOfFuel
  /\ resets (trace (snd (ensure_master_image flapping_world pi_config depth st)))
     = resets (trace st) + depth.
Proof.
  revert st. induction depth as [|depth IH]; intros st Hn.
  - cbn. split; [reflexivity | lia].
  - destruct (flapping_round depth st Hn) as (st' & -> & Hn' & Hresets).
    destruct (IH st' Hn') as [Hout Hcount]. split; [exact Hout|].
    rewrite Hcount, Hresets. lia.
Qed.

(** C2 fails on the code: against the flapping device no nesting depth
    is enough for [ensure_master_image] to return or raise; a run
    allowed [depth] nested calls has reset the device [depth] times
    and is about to call itself again. *)
Theorem ensure_master_image_reruns_forever depth :
  fst (ensure_master_image flapping_world pi_config depth idle) = OutOfFuel
  /\ resets (trace (snd (ensure_master_image flapping_world pi_config depth idle)))
     = depth.
Proof.
  apply (flapping_rounds depth idle). reflexivity.
Qed.

(** *** Every level of the recovery ends *)

Section Levels.
Variable w : world.
Variable config : gmap string cfgval.

Lemma reset_le_refl st : reset_le st st.
Proof. unfold reset_le. lia. Qed.

Lemma reset_le_trans a b c : reset_le a b -> reset_le b c -> reset_le a c.
Proof. unfold reset_le. lia. Qed.

Lemma reset_le_spawned st argv timeout : reset_le st (spawned w st argv timeout).
Proof. unfold reset_le. cbn. rewrite resets_app. lia. Qed.

Lemma reset_le_entered st method : reset_le st (entered st method).
Proof. unfold reset_le. cbn. rewrite resets_app. lia. Qed.

Lemma reset_le_sleep st secs : reset_le st (snd (time_sleep secs st)).
Proof. unfold reset_le. cbn. rewrite resets_app. lia. Qed.

Lemma gives_up_total {A} d (m : M A) : total m -> gives_up_after d m.
Proof. intros Hm st Hout. destruct (Hm st Hout). Qed.

Lemma gives_up_bind {A B} d (m : M A) (k : A -> M B) :
  total m -> respects reset_le m -> (forall a, gives_up_after d (k a)) ->
  gives_up_after d (bind m k).
Proof.
  intros Ht Hr Hk st. unfold gives_up_at, bind.
  specialize (Ht st). specialize (Hr st). unfold reset_le in Hr.
  destruct (m st) as [[a|e|] st']; cbn in *; try discriminate; try congruence.
  intros Hout. specialize (Hk a st' Hout). lia.
Qed.

Lemma hardreset_counts st :
  S (resets (trace st)) <= resets (trace (snd (hardreset w config st))).
Proof.
  unfold hardreset. unfold bind at 1. cbn [log_event].
  fold (entered st "hardreset").
  set (rest := bind _ _).
  assert (Hrest : respects reset_le rest).
  { subst rest.
    apply (respects_bind reset_le reset_le_trans);
      [apply (respects_config_list reset_le reset_le_refl)|]. intros script.
    apply (respects_for_each reset_le reset_le_refl reset_le_trans). intros cmd.
    apply (respects_try_except reset_le reset_le_trans);
      [|intros; apply (respects_raise reset_le reset_le_refl)].
    apply (respects_check_call reset_le reset_le_refl reset_le_trans w
             reset_le_spawned). }
  specialize (Hrest (entered st "hardreset")). unfold reset_le in Hrest.
  cbn [entered trace] in Hrest. rewrite resets_app in Hrest. cbn in Hrest.
  destruct (decide ("hardreset" = "hardreset")) as [_|Hne]; [|congruence].
  destruct (rest (entered st "hardreset")) as [[[]|e|] st']; cbn in *; lia.
Qed.

Lemma gives_up_hardreset {B} d (k : M B) :
  gives_up_after d k -> gives_up_after (S d) (hardreset w config ;; k).
Proof.
  intros Hk st. unfold gives_up_at, bind.
  pose proof (hardreset_counts st) as Hcount.
  pose proof (total_hardreset w config st) as Htotal.
  destruct (hardreset w config st) as [[[]|e|] st']; cbn in *;
    try discriminate; try congruence.
  intros Hout. specialize (Hk st' Hout). lia.
Qed.

Lemma gives_up_bind_at {A B} d (m : M A) (k : A -> M B) st :
  fst (m st) <> OutOfFuel -> reset_le st (snd (m st)) ->
  (forall a, gives_up_after d (k a)) ->
  gives_up_at d (bind m k) st.
Proof.
  intros Ht Hr Hk. unfold gives_up_at, bind. unfold reset_le in Hr.
  destruct (m st) as [[a|e|] st']; cbn in *; try discriminate; try congruence.
  intros Hout. specialize (Hk a st' Hout). lia.
Qed.

Lemma total_bind_at {A B} (m : M A) (k : A -> M B) st :
  fst (m st) <> OutOfFuel -> (forall a, total (k a)) ->
  fst (bind m k st) <> OutOfFuel.
Proof.
  intros Hm Hk. unfold bind.
  destruct (m st) as [[a|e|] st']; cbn in *; solve [congruence | apply Hk].
Qed.

Lemma total_time {B} (k : nat -> M B) st :
  fst (k (now st) st) <> OutOfFuel -> fst (bind time_time k st) <> OutOfFuel.
Proof. intros Hk. exact Hk. Qed.

(** The wait for the master image after a reset ends. *)
Lemma total_master_wait {B} (k : poll_exit -> M B) :
  (forall r, total (k r)) ->
  total (let! started := time_time in
         let! r := master_poll w config (poll_fuel 300 10) started None in
         k r).
Proof.
  intros Hk st. apply total_time. apply total_bind_at; [|exact Hk].
  unfold poll_fuel. apply master_poll_total. cbn. lia.
Qed.

Lemma gives_up_time {B} d (k : nat -> M B) st :
  gives_up_at d (k (now st)) st -> gives_up_at d (bind time_time k) st.
Proof. intros Hk. exact Hk. Qed.

Lemma gives_up_master_wait {B} d (k : poll_exit -> M B) :
  (forall r, gives_up_after d (k r)) ->
  gives_up_after d
    (let! started := time_time in
     let! r := master_poll w config (poll_fuel 300 10) started None in
     k r).
Proof.
  intros Hk st. apply gives_up_time.
  apply (gives_up_bind_at d); [| |exact Hk].
  - unfold poll_fuel. apply master_poll_total. cbn. lia.
  - apply (respects_master_poll reset_le reset_le_refl reset_le_trans w config
             reset_le_spawned reset_le_sleep).
Qed.

Lemma gives_up_unknown_wait {B} d (k : poll_exit -> M B) :
  (forall r, gives_up_after d (k r)) ->
  gives_up_after d
    (let! started := time_time in
     let! r := unknown_poll w config (poll_fuel 300 10) started in
     k r).
Proof.
  intros Hk st. apply gives_up_time.
  apply (gives_up_bind_at d); [| |exact Hk].
  - unfold poll_fuel. apply unknown_poll_total. cbn. lia.
  - apply (respects_unknown_poll reset_le reset_le_refl reset_le_trans w config
             reset_le_spawned reset_le_sleep).
Qed.

(** A run of [ensure_master_image] that exceeds the nesting depth
    [depth] has reset the device [depth] times: every level ends within
    its budgets, and only the call of the function to itself goes on. *)
Lemma ensure_master_image_levels depth :
  gives_up_after depth (ensure_master_image w config depth).
Proof.
  induction depth as [|depth IH].
  - intros st _. cbn. lia.
  - cbn [ensure_master_image].
    apply gives_up_bind;
      [apply total_is_test_image_booted
      |apply (respects_is_test_image_booted reset_le reset_le_refl reset_le_trans
                w config reset_le_spawned)|].
    intros test_booted.
    assert (Htail : forall returned : bool,
      gives_up_after (S depth)
        (if returned then ret tt
         else
           let! master_booted := is_master_image_booted w config in
           if master_booted then ret tt
           else
             hardreset w config ;;
             let! started := time_time in
             let! r := unknown_poll w config (poll_fuel 300 10) started in
             match r with
             | Returned => ret tt
             | Rerun => ensure_master_image w config depth
             | Exhausted _ =>
                 raise (RecoveryError
                   "Device is in an unknown state, may require manual recovery!")
             end)).
    { intros [|]; [apply gives_up_total, total_ret|].
      apply gives_up_bind;
        [apply total_is_master_image_booted
        |apply (respects_is_master_image_booted reset_le reset_le_refl
                  reset_le_trans w config reset_le_spawned)|].
      intros [|]; [apply gives_up_total, total_ret|].
      apply gives_up_hardreset, gives_up_unknown_wait.
      intros [| |mb]; [apply gives_up_total, total_ret | exact IH
                      | apply gives_up_total, total_raise]. }
    destruct test_booted; [|apply gives_up_bind;
                              [apply total_ret
                              |apply (respects_ret reset_le reset_le_refl)
                              |intros returned; apply Htail]].
    apply gives_up_bind; [| |exact Htail].
    + apply total_bind; [apply total_setboot|]. intros _.
      apply total_bind; [apply total_hardreset|]. intros _.
      apply total_master_wait.
      intros [| |[[|]|]]; solve [apply total_ret | apply total_raise].
    + apply (respects_bind reset_le reset_le_trans);
        [apply (respects_setboot reset_le reset_le_refl reset_le_trans w config
                  reset_le_spawned reset_le_entered)|]. intros _.
      apply (respects_bind reset_le reset_le_trans);
        [apply (respects_hardreset reset_le reset_le_refl reset_le_trans w config
                  reset_le_spawned reset_le_entered)|]. intros _.
      apply (respects_bind reset_le reset_le_trans);
        [apply (respects_time_time reset_le reset_le_refl)|]. intros started.
      apply (respects_bind reset_le reset_le_trans);
        [apply (respects_master_poll reset_le reset_le_refl reset_le_trans w
                  config reset_le_spawned reset_le_sleep)|].
      intros [| |[[|]|]];
        solve [apply (respects_ret reset_le reset_le_refl)
              |apply (respects_raise reset_le reset_le_refl)].
Qed.

End Levels.

(** *** The provisioning run *)

Section Provision.

Variable w : world.
Variable config : gmap string cfgval.
Variable job_data : job.

(** [wipe_test_device] never raises. *)
Lemma wipe_returns st : fst (wipe_test_device w config st) = Ret tt.
Proof.
  unfold wipe_test_device, bind, log_event, try_except, config_str.
  destruct (config !! "test_device") as [dev|]; [|reflexivity].
  cbn [ret]. destruct (config !! "device_ip") as [ip|] eqn:Hip.
  - rewrite (run_control_spec _ _ _ _ _ _ Hip).
    destruct (fst (proc w _)); reflexivity.
  - rewrite (run_control_no_ip _ _ _ _ _ Hip). reflexivity.
Qed.

Lemma wipe_entered st :
  Entered "wipe_test_device" ∈ trace (snd (wipe_test_device w config st)).
Proof.
  unfold wipe_test_device, bind, log_event, try_except, config_str.
  destruct (config !! "test_device") as [dev|].
  - cbn [ret]. destruct (config !! "device_ip") as [ip|] eqn:Hip.
    + rewrite (run_control_spec _ _ _ _ _ _ Hip).
      destruct (fst (proc w _)); cbn;
        rewrite !elem_of_app, !list_elem_of_singleton; auto.
    + rewrite (run_control_no_ip _ _ _ _ _ Hip). cbn.
      rewrite !elem_of_app, !list_elem_of_singleton; auto.
  - cbn. rewrite !elem_of_app, !list_elem_of_singleton; auto.
Qed.

(** What [wipe_test_device] does: the one command, if it can build
    it. *)
Lemma wipe_trace st :
  trace (snd (wipe_test_device w config st)) =
    (trace st ++ Entered "wipe_test_device" :: wipe_events config)%list.
Proof.
  unfold wipe_test_device, wipe_events, bind, log_event, try_except, config_str.
  destruct (config !! "test_device") as [dev|]; [|reflexivity].
  cbn [ret]. destruct (config !! "device_ip") as [ip|] eqn:Hip.
  - rewrite (run_control_spec _ _ _ _ _ _ Hip).
    destruct (fst (proc w _)); cbn; rewrite <- app_assoc; reflexivity.
  - rewrite (run_control_no_ip _ _ _ _ _ Hip). reflexivity.
Qed.

Lemma provision_ready st ip :
  ready w job_data ip ->
  provision w config job_data st =
    try_except
      (provision_body w config ip (bound_port w)
         (job_field (test_data job_data) "test_username" "ubuntu")
         (job_field (test_data job_data) "test_password" "ubuntu"))
      (fun e => wipe_test_device w config ;; raise e)
      (server_started st).
Proof.
  intros (pd & c & url & Hpd & Hurl & Hdl & Hgz & Hip).
  unfold provision. rewrite Hpd. unfold bind at 1. cbn [ret].
  rewrite Hurl, Hdl. unfold bind at 1. cbn [lift_failure ret].
  rewrite Hgz. unfold bind at 1. cbn [lift_failure ret].
  rewrite Hip. unfold bind at 1. cbn [ret].
  unfold bind at 1. reflexivity.
Qed.

Lemma provision_raises st ip e st1 :
  ready w job_data ip ->
  provision_body w config ip (bound_port w)
    (job_field (test_data job_data) "test_username" "ubuntu")
    (job_field (test_data job_data) "test_password" "ubuntu")
    (server_started st) = (Raise e, st1) ->
  provision w config job_data st = (Raise e, snd (wipe_test_device w config st1)).
Proof.
  intros Hready Hbody.
  rewrite (provision_ready st ip Hready). unfold try_except. rewrite Hbody.
  unfold bind. pose proof (wipe_returns st1) as Hwipe.
  destruct (wipe_test_device w config st1) as [[[]|e'|] st2];
    cbn in Hwipe; try discriminate. reflexivity.
Qed.

(** C5: an exception [e] that leaves the [try] statement of
    [provision] (raised by the flash, the inspection, the seeding, the
    post-provision script or the boot of the test image) makes
    [provision] run [wipe_test_device] and then raise the same [e].
    The wipe runs [wipefs] on the test device, on the control host,
    when [test_device] and [device_ip] are configured, and it returns
    whatever happens to that command. *)
Theorem provision_reraises st ip e st1 :
  ready w job_data ip ->
  provision_body w config ip (bound_port w)
    (job_field (test_data job_data) "test_username" "ubuntu")
    (job_field (test_data job_data) "test_password" "ubuntu")
    (server_started st) = (Raise e, st1) ->
  provision w config job_data st = (Raise e, snd (wipe_test_device w config st1))
  /\ fst (wipe_test_device w config st1) = Ret tt
  /\ Entered "wipe_test_device" ∈ trace (snd (wipe_test_device w config st1))
  /\ trace (snd (wipe_test_device w config st1)) =
       (trace st1 ++ Entered "wipe_test_device" :: wipe_events config)%list.
Proof.
  intros Hready Hbody. split; [|split; [|split]].
  - apply (provision_raises st ip e st1 Hready Hbody).
  - apply wipe_returns.
  - apply wipe_entered.
  - apply wipe_trace.
Qed.

(** [provision] ends: it returns or raises. *)
Lemma total_provision : total (provision w config job_data).
Proof.
  unfold provision.
  apply total_bind.
  { destruct (provision_data job_data); [apply total_ret | apply total_raise]. }
  intros url. apply total_bind.
  { destruct url as [[|c url]|]; try apply total_raise.
    unfold lift_failure. destruct (download_fails w);
      [apply total_raise | apply total_ret]. }
  intros _. apply total_bind.
  { unfold lift_failure. destruct (compress_fails w);
      [apply total_raise | apply total_ret]. }
  intros _. apply total_bind.
  { destruct (local_ip_addr w); [apply total_ret | apply total_raise]. }
  intros server_ip. apply total_bind; [intros st; discriminate|].
  intros server_port. apply total_try_except.
  - unfold provision_body.
    apply total_bind; [apply total_flash_test_image|]. intros _.
    apply total_bind; [intros st; discriminate|]. intros _.
    apply total_bind; [apply total_get_image_type|]. intros [image_type image_dev].
    apply total_bind.
    { apply total_remote_mount. intros _. apply total_create_user. }
    intros _.
    apply total_bind; [apply total_run_post_provision_script|]. intros _.
    apply total_ensure_test_image.
  - intros e. apply total_bind; [apply total_wipe_test_device|].
    intros _. apply total_raise.
Qed.

Lemma same_server_refl st : same_server st st.
Proof. reflexivity. Qed.

Lemma same_server_trans a b c : same_server a b -> same_server b c -> same_server a c.
Proof. unfold same_server. congruence. Qed.

Lemma same_server_spawned st argv timeout :
  (forall k, connects w k = false) -> same_server st (spawned w st argv timeout).
Proof.
  intros Hno. unfold same_server. cbn. rewrite Hno.
  destruct (file_server st); reflexivity.
Qed.

Lemma not_terminated_refl st : not_terminated st st.
Proof. exists []. split; [symmetry; apply app_nil_r | apply not_elem_of_nil]. Qed.

Lemma not_terminated_trans a b c :
  not_terminated a b -> not_terminated b c -> not_terminated a c.
Proof.
  intros (e1 & H1 & N1) (e2 & H2 & N2). exists (e1 ++ e2)%list. split.
  - rewrite H2, H1, app_assoc. reflexivity.
  - apply not_elem_of_app. split; assumption.
Qed.

Lemma not_terminated_event st st' e :
  trace st' = (trace st ++ [e])%list -> e <> ServerTerminate -> not_terminated st st'.
Proof.
  intros Htr Hne. exists [e]. split; [exact Htr|].
  rewrite list_elem_of_singleton. congruence.
Qed.

Lemma not_terminated_spawned st argv timeout :
  not_terminated st (spawned w st argv timeout).
Proof. eapply not_terminated_event; [reflexivity | discriminate]. Qed.

Lemma not_terminated_entered st method : not_terminated st (entered st method).
Proof. eapply not_terminated_event; [reflexivity | discriminate]. Qed.

Lemma not_terminated_sleep st secs : not_terminated st (snd (time_sleep secs st)).
Proof. eapply not_terminated_event; [reflexivity | discriminate]. Qed.

(** C6 fails on the code: when no process gets to read the image
    stream and the flash raises, [provision] raises the same exception
    with the image server still listening; [file_server.terminate()]
    has not been called. *)
Theorem failed_flash_leaves_server_listening st ip e st1 :
  ready w job_data ip ->
  (forall k, connects w k = false) ->
  flash_test_image w config ip (pretty (bound_port w)) (server_started st)
    = (Raise e, st1) ->
  exists st2,
    provision w config job_data st = (Raise e, st2)
    /\ file_server st2 = Listening
    /\ not_terminated (server_started st) st2.
Proof.
  intros Hready Hno Hflash.
  exists (snd (wipe_test_device w config st1)).
  assert (Hbody : provision_body w config ip (bound_port w)
            (job_field (test_data job_data) "test_username" "ubuntu")
            (job_field (test_data job_data) "test_password" "ubuntu")
            (server_started st) = (Raise e, st1)).
  { unfold provision_body. unfold bind at 1. rewrite Hflash. reflexivity. }
  split; [apply (provision_raises st ip e st1 Hready Hbody)|].
  pose proof (respects_flash_test_image same_server same_server_refl
                same_server_trans w config
                (fun st argv t => same_server_spawned st argv t Hno)
                (fun st secs => eq_refl)
                ip (pretty (bound_port w)) (server_started st)) as Hs1.
  pose proof (respects_wipe_test_device same_server same_server_refl
                same_server_trans w config
                (fun st argv t => same_server_spawned st argv t Hno)
                (fun st m => eq_refl) st1) as Hs2.
  pose proof (respects_flash_test_image not_terminated not_terminated_refl
                not_terminated_trans w config not_terminated_spawned
                not_terminated_sleep
                ip (pretty (bound_port w)) (server_started st)) as Hn1.
  pose proof (respects_wipe_test_device not_terminated not_terminated_refl
                not_terminated_trans w config not_terminated_spawned
                not_terminated_entered st1) as Hn2.
  rewrite Hflash in Hs1, Hn1. cbn [snd] in Hs1, Hn1. split.
  - unfold same_server in Hs1, Hs2. rewrite Hs2, Hs1. reflexivity.
  - eapply not_terminated_trans; eassumption.
Qed.

End Provision.

(** *** The image transfer *)

Section TransferFacts.

Import Transfer.

Lemma read_loop_concat bufsize fuel (f : bytes) :
  0 < bufsize -> length f <= fuel ->
  concat (read_loop fuel bufsize f) = f.
Proof.
  intros Hpos. revert f. induction fuel as [|fuel IH]; intros f Hlen.
  - destruct f; [reflexivity | cbn in Hlen; lia].
  - cbn [read_loop]. destruct (take bufsize f) as [|b data] eqn:Htake.
    + destruct bufsize; [lia|]. destruct f; [reflexivity | cbn in Htake; discriminate].
    + cbn [concat]. rewrite IH.
      * rewrite <- Htake. apply take_drop.
      * rewrite length_drop. destruct f; [cbn in Htake; destruct bufsize; discriminate|].
        cbn in Hlen |- *. lia.
Qed.

Lemma read_all_concat bufsize (f : bytes) :
  0 < bufsize -> concat (read_all bufsize f) = f.
Proof. intros Hpos. apply read_loop_concat; [exact Hpos | lia]. Qed.

(** Every chunk read is non-empty and no longer than the buffer. *)
Lemma read_loop_sizes bufsize fuel (f : bytes) :
  Forall (fun d => 0 < length d <= bufsize) (read_loop fuel bufsize f).
Proof.
  revert f. induction fuel as [|fuel IH]; intros f; cbn [read_loop].
  - constructor.
  - destruct (take bufsize f) as [|b data] eqn:Htake; constructor.
    + rewrite <- Htake, length_take. split; [|lia].
      assert (length (take bufsize f) = S (length data)) as Hl
        by (rewrite Htake; reflexivity).
      rewrite length_take in Hl. lia.
    + apply IH.
Qed.


Lemma received_app tr tr' :
  received (tr ++ tr') = (received tr ++ received tr')%list.
Proof.
  induction tr as [|[] tr IH]; cbn [app received]; rewrite ?IH;
    rewrite ?app_assoc; reflexivity.
Qed.


Lemma serve_bufsize_pos : 0 < SERVE_BUFSIZE.
Proof. unfold SERVE_BUFSIZE. lia. Qed.



(** The loop comes to its end when no [send] raises or blocks. *)
Lemma send_chunks_ends n i chunks :
  (forall j data, exists k, send_result n j data = Sent k) ->
  snd (send_chunks n i chunks) = ServeReturns.
Proof.
  intros Hsent. revert i. induction chunks as [|data rest IH]; intros i;
    cbn [send_chunks]; [reflexivity|].
  destruct (Hsent i data) as [k ->]. specialize (IH (S i)).
  destruct (send_chunks n (S i) rest) as [evs r]. exact IH.
Qed.

(** When every [send] transmits all it is given, the client receives
    the chunks. *)
Lemma send_chunks_received n i chunks :
  (forall j data, send_result n j data = Sent (length data)) ->
  received (fst (send_chunks n i chunks)) = concat chunks.
Proof.
  intros Hfull. revert i. induction chunks as [|data rest IH]; intros i;
    cbn [send_chunks]; [reflexivity|].
  rewrite Hfull. specialize (IH (S i)).
  destruct (send_chunks n (S i) rest) as [evs r]. cbn [fst received concat] in *.
  rewrite IH, Nat.min_id, firstn_all. reflexivity.
Qed.



(** What the client of [serve_file] receives over a reliable network
    is the file. *)
Lemma received_serve_file port file :
  received (fst (serve_file (reliable port) (Some file))) = file.
Proof.
  unfold serve_file. cbn [client_connects reliable].
  pose proof (send_chunks_received (reliable port) 0 (read_all SERVE_BUFSIZE file)
                (fun _ _ => eq_refl)) as Hrecv.
  pose proof (send_chunks_ends (reliable port) 0 (read_all SERVE_BUFSIZE file)
                (fun _ data => ex_intro _ (length data) eq_refl)) as Hend.
  destruct (send_chunks (reliable port) 0 (read_all SERVE_BUFSIZE file)) as [evs r].
  cbn [fst snd] in Hrecv, Hend. subst r. cbn [fst].
  rewrite !received_app, Hrecv. cbn [received]. rewrite app_nil_r.
  apply read_all_concat, serve_bufsize_pos.
Qed.


Lemma dd_nothing (device : bytes) : dd [] device = device.
Proof. unfold dd. rewrite take_nil. reflexivity. Qed.

Lemma dd_image (image device : bytes) :
  length image <= length device ->
  dd image device = (image ++ drop (length image) device)%list.
Proof. intros Hfit. unfold dd. rewrite take_ge by lia. reflexivity. Qed.

Variable gzip : list bytes -> bytes.
Variable gunzip : bytes -> option bytes.
Variable xzcat : bytes -> option bytes.

Lemma transfer_stream decoder (fs : gmap string bytes) os_port device src :
  fs !! "snappy.img" = Some src ->
  transfer gzip decoder fs os_port device =
    Some (flash_command decoder (gzip (read_all COMPRESS_BUFSIZE src)) device).
Proof.
  intros Hsrc. unfold transfer, compress_file. rewrite Hsrc.
  rewrite lookup_delete_ne by discriminate. rewrite lookup_insert_eq.
  rewrite received_serve_file. reflexivity.
Qed.

(** With the decoder of the format that [compress_file] writes, the
    image lands on the device. *)
Lemma transfer_with_gunzip (fs : gmap string bytes) os_port device src :
  (forall ws, gunzip (gzip ws) = Some (concat ws)) ->
  fs !! "snappy.img" = Some src ->
  length src <= length device ->
  transfer gzip gunzip fs os_port device =
    Some (src ++ drop (length src) device)%list.
Proof.
  intros Hcodec Hsrc Hfit. rewrite (transfer_stream _ _ _ _ _ Hsrc).
  unfold flash_command. rewrite Hcodec, read_all_concat by (unfold COMPRESS_BUFSIZE; lia).
  rewrite dd_image by exact Hfit. reflexivity.
Qed.

(** C1 fails on the code: [compress_file] writes a gzip stream and the
    flash command decodes with [xzcat], which rejects it; nothing is
    written and the device keeps what it held. *)
Theorem transfer_leaves_device (fs : gmap string bytes) os_port device src :
  (forall ws, xzcat (gzip ws) = None) ->
  fs !! "snappy.img" = Some src ->
  transfer gzip xzcat fs os_port device = Some device.
Proof.
  intros Hcodec Hsrc. rewrite (transfer_stream _ _ _ _ _ Hsrc).
  unfold flash_command. rewrite Hcodec, dd_nothing. reflexivity.
Qed.

End TransferFacts.

(** *** The theorems at concrete inputs *)

Lemma flash_without_test_device_witness :
  no_device_config !! "test_device" = None
  /\ flash_test_image obliging_world no_device_config "10.0.0.1" "4000" idle =
       (Raise (RecoveryError "Device config missing test_device"), idle).
Proof.
  split; [reflexivity|].
  apply (flash_without_test_device obliging_world no_device_config
           "10.0.0.1" "4000" idle).
  reflexivity.
Defined.

Lemma flash_failure_handling_witness :
  fst (flash_test_image grumbling_world pi_config "10.0.0.1" "4000" idle) = Ret tt
  /\ fst (flash_test_image unreachable_world pi_config "10.0.0.1" "4000" idle) =
       Raise (ProvisioningError "timeout reached while flashing image!").
Proof.
  split.
  - exact (proj1 (flash_failure_handling grumbling_world pi_config
                    "10.0.0.1" "4000" idle (VStr "/dev/sda") (VStr "10.0.0.2")
                    eq_refl eq_refl)).
  - exact (proj1 (flash_failure_handling unreachable_world pi_config
                    "10.0.0.1" "4000" idle (VStr "/dev/sda") (VStr "10.0.0.2")
                    eq_refl eq_refl)).
Defined.

Lemma setboot_rejects_other_modes_witness :
  setboot obliging_world pi_config "recovery" idle =
    (Raise (KeyError None), entered idle "setboot").
Proof.
  apply (setboot_rejects_other_modes obliging_world pi_config "recovery" idle);
    discriminate.
Defined.

Lemma master_already_booted_witness :
  fst (ensure_master_image settled_world pi_config 1 idle) = Ret tt
  /\ trace (snd (ensure_master_image settled_world pi_config 1 idle)) =
       [Exec (ssh_argv "ubuntu" "10.0.0.2" "snap -h") (Some 60);
        Exec (ssh_argv "pi" "10.0.0.2" "cat /etc/issue") (Some 60)].
Proof.
  destruct (master_already_booted settled_world pi_config 0 idle
              (snd (is_test_image_booted settled_world pi_config idle))
              (snd (is_master_image_booted settled_world pi_config
                      (snd (is_test_image_booted settled_world pi_config idle))))
              eq_refl eq_refl) as [Hrun _].
  rewrite Hrun. split; reflexivity.
Defined.

Lemma provision_reraises_witness :
  exists st1,
    provision unreachable_world pi_config ubuntu_job idle =
      (Raise (ProvisioningError "timeout reached while flashing image!"),
       snd (wipe_test_device unreachable_world pi_config st1))
    /\ fst (wipe_test_device unreachable_world pi_config st1) = Ret tt
    /\ Entered "wipe_test_device"
         ∈ trace (snd (wipe_test_device unreachable_world pi_config st1))
    /\ trace (snd (wipe_test_device unreachable_world pi_config st1)) =
         (trace st1
          ++ [Entered "wipe_test_device";
              Exec (ssh_argv "pi" "10.0.0.2" "sudo wipefs -af /dev/sda")
                (Some 60)])%list.
Proof.
  eexists.
  apply (provision_reraises unreachable_world pi_config ubuntu_job idle "10.0.0.1").
  - exists {[ "url" := "http://images.example/core.img" ]}, "h"%char,
      "ttp://images.example/core.img".
    repeat split; reflexivity.
  - vm_compute. reflexivity.
Defined.

Lemma failed_flash_leaves_server_listening_witness :
  exists st2,
    provision obliging_world no_device_config ubuntu_job idle =
      (Raise (RecoveryError "Device config missing test_device"), st2)
    /\ file_server st2 = Listening
    /\ not_terminated (server_started idle) st2.
Proof.
  apply (failed_flash_leaves_server_listening obliging_world no_device_config
           ubuntu_job idle "10.0.0.1" _ (server_started idle)).
  - exists {[ "url" := "http://images.example/core.img" ]}, "h"%char,
      "ttp://images.example/core.img".
    repeat split; reflexivity.
  - reflexivity.
  - reflexivity.
Defined.

Lemma transfer_leaves_device_witness :
  Transfer.transfer toy_gzip toy_xzcat image_on_disk 4000 blank_device
    = Some blank_device
  /\ Some blank_device <> Some [Byte.x55; Byte.xaa; Byte.x00].
Proof.
  split.
  - apply (transfer_leaves_device toy_gzip toy_xzcat image_on_disk 4000
             blank_device [Byte.x55; Byte.xaa]).
    + intros ws. reflexivity.
    + reflexivity.
  - discriminate.
Defined.



(** ** Further properties of the agent *)

Section MountFacts.

Variable w : world.
Variable config : gmap string cfgval.

(** [remote_mount] releases the mount point on every exit of its body:
    once the mount has succeeded, the unmount is the next process after
    the body, whether the body returned or raised; the result is the
    body's unless the unmount fails, whose exception then replaces
    it. *)
Theorem remote_mount_releases {A} dev mp (body : string -> M A) st ip :
  config !! "device_ip" = Some ip ->
  succeeded (fst (proc w (nexec st))) = true ->
  let st1 := spawned w st
               (ssh_argv "pi" (py_str ip) ("sudo mount /dev/" +:+ dev +:+ " " +:+ mp))
               (Some 60) in
  fst (body mp st1) <> OutOfFuel ->
  let st2 := snd (body mp st1) in
  let out := remote_mount w config dev mp body st in
  snd out = spawned w st2 (ssh_argv "pi" (py_str ip) ("sudo umount " +:+ mp)) (Some 60)
  /\ fst out =
       match control_result (fst (proc w (nexec st2))) with
       | Ret _ => fst (body mp st1)
       | Raise e => Raise e
       | OutOfFuel => OutOfFuel
       end.
Proof.
  intros Hip Hmount st1 Hbody st2 out. subst out st2.
  unfold remote_mount, try_finally, bind.
  rewrite (run_control_spec _ _ _ _ _ _ Hip).
  destruct (fst (proc w (nexec st))) eqn:Emount; try discriminate.
  cbn [control_result]. fold st1.
  destruct (body mp st1) as [[a|e|] st2]; cbn [fst snd] in *;
    try congruence;
    rewrite (run_control_spec _ _ _ _ _ _ Hip);
    destruct (fst (proc w (nexec st2))); cbn; split; reflexivity.
Qed.

(** When the mount fails the body is not run and nothing is unmounted:
    the mount is the only process, and its failure is the result. *)
Theorem remote_mount_failed_mount {A} dev mp (body : string -> M A) st ip :
  config !! "device_ip" = Some ip ->
  succeeded (fst (proc w (nexec st))) = false ->
  exists e,
    remote_mount w config dev mp body st =
      (Raise e,
       spawned w st
         (ssh_argv "pi" (py_str ip) ("sudo mount /dev/" +:+ dev +:+ " " +:+ mp))
         (Some 60))
    /\ control_result (fst (proc w (nexec st))) = Raise e.
Proof.
  intros Hip Hmount. unfold remote_mount. unfold bind at 1.
  rewrite (run_control_spec _ _ _ _ _ _ Hip).
  destruct (fst (proc w (nexec st))) eqn:Emount; try discriminate;
    cbn [control_result]; eexists; split; reflexivity.
Qed.

(** [check_partition] reports an image type only when the partition
    mounted, its listing shows a marker, and it unmounted again: a
    marker found on a partition that then fails to unmount is lost.
    One process is spawned when the mount fails, three otherwise. *)
Theorem check_partition_outcome dev st ip :
  config !! "device_ip" = Some ip ->
  let n := nexec st in
  let ok k := succeeded (fst (proc w k)) in
  let out := check_partition w config dev st in
  fst out =
    Ret (if ok n && ok (2 + n) then listed_type (fst (proc w (1 + n))) else None)
  /\ nexec (snd out) = (if ok n then 3 + n else 1 + n).
Proof. exact (check_partition_result w config dev st ip). Qed.

End MountFacts.

(** *** The inspector on a partition that matches *)

Section InspectorFacts.

Variable w : world.
Variable config : gmap string cfgval.

(** The scan stops at the first match: when the output of [lsblk]
    decodes and parses and the first named child mounts, lists a marker
    in a listing that decodes, and unmounts, [get_image_type] returns
    the type of that marker with that child, after four processes
    ([lsblk], mount, listing, unmount); no later partition is
    mounted. *)
Theorem get_image_type_first_match st dev ip out text doc d ds cs p rest t :
  config !! "test_device" = Some dev ->
  config !! "device_ip" = Some ip ->
  fst (proc w (nexec st)) = Exited0 out ->
  py_decode out = Some text ->
  json_loads w text = Some doc ->
  blockdevices doc = Some (d :: ds) ->
  dev_children d = Some cs ->
  named_children cs = p :: rest ->
  succeeded (fst (proc w (1 + nexec st))) = true ->
  listed_type (fst (proc w (2 + nexec st))) = Some t ->
  succeeded (fst (proc w (3 + nexec st))) = true ->
  fst (get_image_type w config st) = Ret (t, p)
  /\ nexec (snd (get_image_type w config st)) = 4 + nexec st.
Proof.
  intros Hdev Hip Hlsblk Hdec Hjson Hbd Hcs Hnamed Hmount Hls Humount.
  assert (Hrun : exists st', get_image_type w config st = (Ret (t, p), st')
                             /\ nexec st' = 4 + nexec st).
  { unfold get_image_type, config_str. rewrite Hdev.
    unfold bind at 1. cbn [ret].
    unfold bind at 1. rewrite (run_control_spec _ _ _ _ _ _ Hip), Hlsblk.
    cbn [control_result]. unfold bind at 1. unfold decode. rewrite Hdec. cbn [ret].
    rewrite Hjson.
    unfold bind at 1. cbn [ret].
    unfold bind at 1. unfold lsblk_children. rewrite Hbd, Hcs. cbn [ret].
    rewrite Hnamed. cbn [scan_partitions]. unfold bind.
    match goal with
    | |- context [check_partition w config p ?s] =>
        destruct (check_partition_result w config p s ip Hip) as [Hres Hn];
        cbn [nexec spawned Nat.add] in Hres, Hn;
        cbn [Nat.add] in Hmount, Hls, Humount;
        rewrite Hmount, Humount, Hls in Hres; cbn [andb] in Hres;
        rewrite Hmount in Hn;
        destruct (check_partition w config p s) as [r st2]
    end.
    cbn [fst snd] in Hres, Hn. subst r. cbn [ret].
    eexists. split; [reflexivity | exact Hn]. }
  destruct Hrun as (st' & -> & Hn). split; [reflexivity | exact Hn].
Qed.

End InspectorFacts.

(** *** The boot-mode scripts *)

Section ScriptFacts.

Variable w : world.

Lemma leading_ok_le n len : leading_ok w n len <= len.
Proof.
  revert n. induction len as [|len IH]; intros n; cbn; [lia|].
  destruct (succeeded _); [specialize (IH (S n)); lia | lia].
Qed.

Lemma run_script_cons timeout err cmd script st a argv :
  py_split cmd = a :: argv ->
  run_script w timeout err (cmd :: script) st =
    if succeeded (fst (proc w (nexec st)))
    then run_script w timeout err script (spawned w st (a :: argv) (Some timeout))
    else (Raise err, spawned w st (a :: argv) (Some timeout)).
Proof.
  intros Hsplit. unfold run_script. cbn [for_each].
  unfold bind at 1. unfold try_except, check_call, bind, check_output.
  rewrite Hsplit. destruct (fst (proc w (nexec st))); reflexivity.
Qed.

(** A script runs its commands in order up to and including the first
    one that fails, and raises [err] then. *)
Lemma run_script_spec timeout err script st :
  Forall (fun cmd => py_split cmd <> []) script ->
  let k := leading_ok w (nexec st) (length script) in
  let out := run_script w timeout err script st in
  fst out = (if (k <? length script)%nat then Raise err else Ret tt)
  /\ trace (snd out) = (trace st ++ script_events timeout (take (S k) script))%list
  /\ nexec (snd out) = nexec st + length (take (S k) script).
Proof.
  intros Hne. revert st. induction Hne as [|cmd script Hcmd Hne IH]; intros st k out.
  - subst out k. cbn. rewrite app_nil_r. repeat split; lia.
  - subst out k.
    destruct (py_split cmd) as [|a argv] eqn:Hsplit; [contradiction|].
    rewrite (run_script_cons _ _ _ _ _ _ _ Hsplit).
    cbn [length leading_ok].
    destruct (succeeded (fst (proc w (nexec st)))) eqn:Eok.
    + specialize (IH (spawned w st (a :: argv) (Some timeout))).
      cbn zeta in IH. cbn [nexec spawned] in IH.
      destruct IH as (Hres & Htr & Hn).
      rewrite Hres, Htr, Hn.
      change (S ?x <? S ?y)%nat with (x <? y)%nat.
      cbn [take script_events fmap list_fmap trace spawned nexec length].
      rewrite Hsplit, <- app_assoc. repeat split; solve [reflexivity | lia].
    + cbn [Nat.ltb Nat.leb take script_events fmap list_fmap trace spawned
           nexec length fst snd].
      rewrite Hsplit, take_0. repeat split; solve [reflexivity | cbn; lia].
Qed.

(** A script raises nothing but [err]. *)
Lemma run_script_raises timeout err script st e :
  fst (run_script w timeout err script st) = Raise e -> e = err.
Proof.
  revert st. induction script as [|cmd script IH]; intros st.
  - discriminate.
  - unfold run_script. cbn [for_each]. unfold bind at 1.
    unfold try_except at 1.
    destruct (check_call w (py_split cmd) (Some timeout) st) as [[[]|e'|] st'];
      cbn [raise fst].
    + apply IH.
    + intros [= <-]. reflexivity.
    + discriminate.
Qed.

Variable config : gmap string cfgval.

Lemma hardreset_script st script :
  config_list config "reboot_script" (entered st "hardreset") =
    (Ret script, entered st "hardreset") ->
  hardreset w config st =
    run_script w 120 (RecoveryError "timeout reaching control host!") script
      (entered st "hardreset").
Proof.
  intros Hcfg. unfold hardreset. unfold bind at 1. cbn [log_event].
  fold (entered st "hardreset"). unfold bind at 1. rewrite Hcfg. reflexivity.
Qed.

(** [hardreset] runs the commands of [reboot_script] in order, each
    split at white space and given 120 seconds, up to and including
    the first one that fails; it raises [RecoveryError] at that one and
    runs none of the commands after it. *)
Theorem hardreset_runs_until_failure st script :
  config !! "reboot_script" = Some (VList script) ->
  Forall (fun cmd => py_split cmd <> []) script ->
  let k := leading_ok w (nexec st) (length script) in
  let out := hardreset w config st in
  fst out = (if (k <? length script)%nat
             then Raise (RecoveryError "timeout reaching control host!")
             else Ret tt)
  /\ trace (snd out) =
      (trace st ++ Entered "hardreset" :: script_events 120 (take (S k) script))%list.
Proof.
  intros Hcfg Hne k out. subst out k.
  rewrite (hardreset_script st script)
    by (unfold config_list; rewrite Hcfg; reflexivity).
  destruct (run_script_spec 120 (RecoveryError "timeout reaching control host!")
              script (entered st "hardreset") Hne) as (Hres & Htr & _).
  cbn [nexec entered] in Hres, Htr. rewrite Hres, Htr.
  cbn [trace entered]. rewrite <- app_assoc. split; reflexivity.
Qed.

Lemma hardreset_errors st e :
  fst (hardreset w config st) = Raise e ->
  e = KeyError (Some "reboot_script")
  \/ e = RecoveryError "timeout reaching control host!"
  \/ (e = TypeError /\ exists text, config !! "reboot_script" = Some (VScalar text)).
Proof.
  unfold hardreset. unfold bind at 1. cbn [log_event]. unfold bind at 1.
  unfold config_list.
  destruct (config !! "reboot_script") as [[s|l|text]|]; cbn [py_iter ret raise fst].
  - intros H. right. left. exact (run_script_raises _ _ _ _ _ H).
  - intros H. right. left. exact (run_script_raises _ _ _ _ _ H).
  - intros [= <-]. right. right. eauto.
  - intros [= <-]. left. reflexivity.
Qed.

(** Whatever the commands do, [hardreset] raises nothing but the
    [KeyError] of a missing [reboot_script], its [RecoveryError], and
    the [TypeError] of a [reboot_script] that cannot be iterated over
    ([null], a boolean or a number), which the [for] statement raises
    outside the [try]. *)
Theorem hardreset_raises st e :
  fst (hardreset w config st) = Raise e ->
  e = KeyError (Some "reboot_script")
  \/ e = RecoveryError "timeout reaching control host!"
  \/ (e = TypeError /\ exists text, config !! "reboot_script" = Some (VScalar text)).
Proof. exact (hardreset_errors st e). Qed.

(** [setboot] in the mode [master] or [test] runs the commands of the
    script configured for that mode, each given 60 seconds, up to and
    including the first one that fails, and raises [ProvisioningError]
    at that one. *)
Theorem setboot_runs_until_failure mode key st script :
  (mode = "master" /\ key = "select_master_script")
  \/ (mode = "test" /\ key = "select_test_script") ->
  config !! key = Some (VList script) ->
  Forall (fun cmd => py_split cmd <> []) script ->
  let k := leading_ok w (nexec st) (length script) in
  let out := setboot w config mode st in
  fst out = (if (k <? length script)%nat
             then Raise (ProvisioningError "timeout reaching control host!")
             else Ret tt)
  /\ trace (snd out) =
      (trace st ++ Entered "setboot" :: script_events 60 (take (S k) script))%list.
Proof.
  intros Hmode Hcfg Hne k out. subst out k.
  assert (Hrun : setboot w config mode st =
            run_script w 60 (ProvisioningError "timeout reaching control host!")
              script (entered st "setboot")).
  { unfold setboot. unfold bind at 1. cbn [log_event].
    fold (entered st "setboot"). unfold bind at 1.
    destruct Hmode as [[-> ->]|[-> ->]]; cbn; unfold config_list;
      rewrite Hcfg; reflexivity. }
  rewrite Hrun.
  destruct (run_script_spec 60 (ProvisioningError "timeout reaching control host!")
              script (entered st "setboot") Hne) as (Hres & Htr & _).
  cbn [nexec entered] in Hres, Htr. rewrite Hres, Htr.
  cbn [trace entered]. rewrite <- app_assoc. split; reflexivity.
Qed.

Lemma setboot_master_errors st e :
  fst (setboot w config "master" st) = Raise e ->
  e = KeyError (Some "select_master_script")
  \/ e = ProvisioningError "timeout reaching control host!"
  \/ e = TypeError.
Proof.
  unfold setboot. unfold bind at 1. cbn [log_event]. unfold bind at 1.
  cbn. unfold config_list.
  destruct (config !! "select_master_script") as [[s|l|text]|]; cbn [py_iter ret raise fst].
  - intros H. right. left. exact (run_script_raises _ _ _ _ _ H).
  - intros H. right. left. exact (run_script_raises _ _ _ _ _ H).
  - intros [= <-]. auto.
  - intros [= <-]. left. reflexivity.
Qed.

Lemma setboot_test_errors st e :
  fst (setboot w config "test" st) = Raise e ->
  e = KeyError (Some "select_test_script")
  \/ e = ProvisioningError "timeout reaching control host!"
  \/ e = TypeError.
Proof.
  unfold setboot. unfold bind at 1. cbn [log_event]. unfold bind at 1.
  cbn. unfold config_list.
  destruct (config !! "select_test_script") as [[s|l|text]|]; cbn [py_iter ret raise fst].
  - intros H. right. left. exact (run_script_raises _ _ _ _ _ H).
  - intros H. right. left. exact (run_script_raises _ _ _ _ _ H).
  - intros [= <-]. auto.
  - intros [= <-]. left. reflexivity.
Qed.

(** Whatever the mode and the commands, [setboot] raises nothing but
    a [KeyError] (bare for an unknown mode, of the script's key when
    the script is not configured), its [ProvisioningError], and the
    [TypeError] of a script that cannot be iterated over ([null], a
    boolean or a number), which the [for] statement raises outside the
    [try]. *)
Theorem setboot_raises mode st e :
  fst (setboot w config mode st) = Raise e ->
  e = KeyError None
  \/ e = KeyError (Some "select_master_script")
  \/ e = KeyError (Some "select_test_script")
  \/ e = ProvisioningError "timeout reaching control host!"
  \/ (e = TypeError
      /\ exists key text,
           (mode = "master" /\ key = "select_master_script"
            \/ mode = "test" /\ key = "select_test_script")
           /\ config !! key = Some (VScalar text)).
Proof.
  unfold setboot. unfold bind at 1. cbn [log_event]. unfold bind at 1.
  destruct (decide (mode = "master")) as [Hm|_];
    [|destruct (decide (mode = "test")) as [Ht|_]];
    unfold config_list;
    try (match goal with
         | |- context [config !! ?key] =>
             destruct (config !! key) as [[s|l|text]|] eqn:Hcfg
         end);
    cbn [py_iter ret raise fst];
    try (intros H; right; right; right; left; exact (run_script_raises _ _ _ _ _ H));
    intros [= <-]; eauto 12.
Qed.

End ScriptFacts.

(** *** The control channel and the boot probes *)

Section ChannelFacts.

Variable w : world.
Variable config : gmap string cfgval.

(** [_run_control] runs its command over [ssh] as [pi] on the control
    host with the timeout given, and makes of each way the process can
    end what follows: the output when it exits with status zero,
    [ProvisioningError] carrying the output when it exits with another
    status, and the exception of [subprocess] unchanged when it times
    out or cannot be spawned.  Without [device_ip] it raises [KeyError]
    and spawns nothing. *)
Theorem run_control_outcomes cmd timeout st :
  _run_control w config cmd timeout st =
    match config !! "device_ip" with
    | None => (Raise (KeyError (Some "device_ip")), st)
    | Some ip =>
        (match fst (proc w (nexec st)) with
         | Exited0 out => Ret out
         | ExitedNonzero out => Raise (ProvisioningError out)
         | TimedOut => Raise TimeoutExpired
         | SpawnFailed => Raise OSError
         end,
         spawned w st (ssh_argv "pi" (py_str ip) cmd) (Some timeout))
    end.
Proof.
  destruct (config !! "device_ip") as [ip|] eqn:Hip.
  - rewrite (run_control_spec _ _ _ _ _ _ Hip).
    destruct (fst (proc w (nexec st))); reflexivity.
  - apply (run_control_no_ip _ _ _ _ _ Hip).
Qed.

(** The probe for the master image never raises: every failure of its
    command, a missing [device_ip] included, is the answer [false];
    the answer is [true] only for output that holds [GNU].  The probe
    for the test image answers whether its command succeeded, and
    raises only the [KeyError] of a missing [device_ip]. *)
Theorem boot_probes_results st :
  (exists b, fst (is_master_image_booted w config st) = Ret b
             /\ (b = true ->
                 exists out, fst (proc w (nexec st)) = Exited0 out
                             /\ py_contains "GNU" out = true))
  /\ (fst (is_test_image_booted w config st) =
        Ret (succeeded (fst (proc w (nexec st))))
      \/ (config !! "device_ip" = None
          /\ is_test_image_booted w config st =
               (Raise (KeyError (Some "device_ip")), st))).
Proof.
  destruct (config !! "device_ip") as [ip|] eqn:Hip.
  - rewrite (is_master_image_booted_spec _ _ _ _ Hip).
    rewrite (is_test_image_booted_spec _ _ _ _ Hip). cbn [fst]. split.
    + eexists. split; [reflexivity|]. intros Hb.
      destruct (fst (proc w (nexec st))) as [out| | |]; try discriminate.
      exists out. auto.
    + left. reflexivity.
  - rewrite (is_master_image_booted_no_ip _ _ _ Hip).
    rewrite (is_test_image_booted_no_ip _ _ _ Hip). split.
    + exists false. split; [reflexivity | discriminate].
    + right. auto.
Qed.

End ChannelFacts.

(** *** The post-provision script and the user seeder *)

Section SeederFacts.

Variable w : world.
Variable config : gmap string cfgval.

Lemma post_step_returns cmd st :
  fst (try_except (_run_control w config cmd 60 ;; ret tt) (fun _ => ret tt) st)
    = Ret tt.
Proof.
  unfold try_except, bind.
  pose proof (run_control_total w config cmd 60 st) as Htotal.
  destruct (_run_control w config cmd 60 st) as [[out|e|] st'];
    cbn in *; congruence.
Qed.

Lemma post_script_returns script st :
  fst (for_each script (fun cmd =>
         try_except (_run_control w config cmd 60 ;; ret tt) (fun _ => ret tt)) st)
    = Ret tt.
Proof.
  revert st. induction script as [|cmd script IH]; intros st; [reflexivity|].
  cbn [for_each]. unfold bind at 1.
  pose proof (post_step_returns cmd st) as Hstep.
  destruct (try_except _ _ st) as [[[]|e|] st']; cbn in Hstep; try discriminate.
  apply IH.
Qed.

(** [run_post_provision_script] swallows every failure of its
    commands: it returns whenever [post_provision_script] is missing, a
    list or a string.  The one exception that leaves it is the
    [TypeError] of a [post_provision_script] that cannot be iterated
    over ([null], a boolean or a number), raised by the [for] statement
    before any command runs. *)
Theorem post_provision_result st :
  match config !! "post_provision_script" with
  | Some (VScalar _) =>
      run_post_provision_script w config st = (Raise TypeError, st)
  | _ => fst (run_post_provision_script w config st) = Ret tt
  end.
Proof.
  unfold run_post_provision_script. unfold bind at 1.
  destruct (config !! "post_provision_script") as [[s|l|text]|];
    cbn [py_iter ret raise]; solve [reflexivity | apply post_script_returns].
Qed.

Lemma post_step_spawns cmd st ip :
  config !! "device_ip" = Some ip ->
  try_except (_run_control w config cmd 60 ;; ret tt) (fun _ => ret tt) st =
    (Ret tt, spawned w st (ssh_argv "pi" (py_str ip) cmd) (Some 60)).
Proof.
  intros Hip. unfold try_except, bind. rewrite (run_control_spec _ _ _ _ _ _ Hip).
  destruct (fst (proc w (nexec st))); reflexivity.
Qed.

Lemma post_script_trace script st ip :
  config !! "device_ip" = Some ip ->
  let out := for_each script (fun cmd =>
               try_except (_run_control w config cmd 60 ;; ret tt)
                 (fun _ => ret tt)) st in
  trace (snd out) = (trace st ++ control_events (py_str ip) 60 script)%list
  /\ nexec (snd out) = nexec st + length script.
Proof.
  intros Hip. revert st. induction script as [|cmd script IH]; intros st out; subst out.
  - cbn. rewrite app_nil_r. split; [reflexivity | lia].
  - match goal with
    | |- context [for_each (cmd :: script) ?body st] =>
        assert (Hstep : for_each (cmd :: script) body st =
                  for_each script body
                    (spawned w st (ssh_argv "pi" (py_str ip) cmd) (Some 60)))
          by (cbn [for_each]; unfold bind at 1;
              rewrite (post_step_spawns cmd st ip Hip); reflexivity);
        rewrite Hstep
    end.
    destruct (IH (spawned w st (ssh_argv "pi" (py_str ip) cmd) (Some 60)))
      as [IHtr IHn].
    rewrite IHtr, IHn. cbn [trace nexec spawned control_events fmap list_fmap length].
    rewrite <- app_assoc. split; [reflexivity | lia].
Qed.

(** With [device_ip] configured, [run_post_provision_script] runs every
    command of [post_provision_script] on the control host, once and in
    order, whether the commands before it failed or not. *)
Theorem post_provision_runs_all st ip script :
  config !! "device_ip" = Some ip ->
  config !! "post_provision_script" = Some (VList script) ->
  trace (snd (run_post_provision_script w config st)) =
    (trace st ++ control_events (py_str ip) 60 script)%list
  /\ nexec (snd (run_post_provision_script w config st)) = nexec st + length script.
Proof.
  intros Hip Hcfg. unfold run_post_provision_script. rewrite Hcfg.
  unfold bind at 1. cbn [py_iter ret].
  apply (post_script_trace script st ip Hip).
Qed.

(** [create_user] raises nothing but its own [ProvisioningError]:
    every failure of a command, a missing [device_ip] included, is
    reported under that one message. *)
Theorem create_user_raises image_type st e :
  fst (create_user w config image_type st) = Raise e ->
  e = ProvisioningError "Error creating user files".
Proof.
  unfold create_user, try_except.
  match goal with
  | |- context [match ?m st with _ => _ end] => destruct (m st) as [[[]|e'|] st']
  end; cbn [raise fst]; congruence.
Qed.



End SeederFacts.

(** *** The boot of the test image *)

Section BootFacts.

Variable w : world.
Variable config : gmap string cfgval.

Lemma test_poll_false fuel started user password st st' :
  test_poll w config fuel started user password st = (Ret false, st') ->
  started + 600 <= now st'.
Proof.
  revert st. induction fuel as [|fuel IH]; intros st; cbn [test_poll].
  - discriminate.
  - unfold bind at 1. cbn [time_time].
    destruct (now st - started <? 600)%nat eqn:E.
    + unfold bind at 1.
      destruct (test_round w config user password st) as [[[|]|e|] st2];
        try discriminate. apply IH.
    + intros [= <-]. apply Nat.ltb_ge in E. lia.
Qed.

Lemma test_round_returns user password st :
  exists b, fst (test_round w config user password st) = Ret b.
Proof.
  unfold test_round, try_except.
  pose proof (test_round_total w config user password st) as Htotal.
  unfold test_round, try_except in Htotal.
  match goal with
  | |- context [match ?m st with _ => _ end] =>
      destruct (m st) as [[b|e|] st']
  end; cbn in *; eauto; congruence.
Qed.

Lemma test_poll_never_raises fuel started user password st e :
  fst (test_poll w config fuel started user password st) <> Raise e.
Proof.
  revert st. induction fuel as [|fuel IH]; intros st; cbn [test_poll].
  - discriminate.
  - unfold bind at 1. cbn [time_time].
    destruct (now st - started <? 600)%nat; [|discriminate].
    unfold bind at 1.
    destruct (test_round_returns user password st) as [b Hb].
    destruct (test_round w config user password st) as [r st2].
    cbn [fst] in Hb. subst r. destruct b; [discriminate | apply IH].
Qed.

(** [ensure_test_image] raises nothing but the errors of [setboot]
    (the [KeyError] of a missing script, the [TypeError] of one that
    cannot be iterated over, its [ProvisioningError]) and its own
    [ProvisioningError], and it gives the test image its whole budget:
    when it reports that the test image failed to boot, 660 seconds or
    more have passed since the call, the 60 seconds of settling and the
    600 seconds of polling. *)
Theorem ensure_test_image_failure user password st e :
  fst (ensure_test_image w config user password st) = Raise e ->
  e = KeyError (Some "select_test_script")
  \/ e = ProvisioningError "timeout reaching control host!"
  \/ e = TypeError
  \/ (e = ProvisioningError "Failed to boot test image!"
      /\ now st + 660 <= now (snd (ensure_test_image w config user password st))).
Proof.
  destruct (ensure_test_image w config user password st) as [r stf] eqn:Hrun.
  cbn [fst snd]. intros ->.
  unfold ensure_test_image in Hrun. unfold bind at 1 in Hrun.
  pose proof (setboot_test_errors w config st) as Hset.
  pose proof (respects_setboot later later_refl later_trans w config
                (later_spawned w) later_entered "test" st) as Hl1.
  destruct (setboot w config "test" st) as [[[]|e1|] st1]; cbn [fst snd] in *.
  2:{ injection Hrun as <- <-. destruct (Hset e1 eq_refl) as [->|[->| ->]]; auto. }
  2:{ discriminate. }
  unfold bind at 1 in Hrun.
  set (reboot := try_except _ _) in Hrun.
  assert (Hreboot : respects later reboot).
  { subst reboot. apply (respects_try_except later later_trans);
      [|intros; apply (respects_ret later later_refl)].
    apply (respects_bind later later_trans);
      [apply (respects_run_control later later_refl later_trans w config
                (later_spawned w))
      |intros; apply (respects_ret later later_refl)]. }
  specialize (Hreboot st1).
  pose proof (post_step_returns w config "sudo /sbin/reboot" st1) as Hret.
  fold reboot in Hret.
  destruct (reboot st1) as [[[]|e2|] st2]; cbn [fst snd] in *; try discriminate.
  unfold bind at 1 in Hrun. cbn [time_sleep] in Hrun.
  unfold bind at 1 in Hrun. cbn [time_time now] in Hrun.
  unfold bind at 1 in Hrun.
  match type of Hrun with
  | context [test_poll w config ?f ?s user password ?st0] =>
      pose proof (test_poll_false f s user password st0) as Hfalse;
      pose proof (test_poll_never_raises f s user password st0) as Hnever;
      destruct (test_poll w config f s user password st0) as [[[|]|e3|] st3]
  end; cbn [fst snd ret raise] in *; try discriminate.
  - injection Hrun as <- <-. right. right. right. split; [reflexivity|].
    specialize (Hfalse st3 eq_refl). unfold later in *. lia.
  - exfalso. exact (Hnever e3 eq_refl).
Qed.
End BootFacts.

(** *** The recovery, level by level *)

Section RecoveryFacts.

Variable w : world.
Variable config : gmap string cfgval.

Lemma is_master_returns st :
  exists b, fst (is_master_image_booted w config st) = Ret b.
Proof.
  destruct (config !! "device_ip") as [ip|] eqn:Hip.
  - rewrite (is_master_image_booted_spec _ _ _ _ Hip). eauto.
  - rewrite (is_master_image_booted_no_ip _ _ _ Hip). eauto.
Qed.

Lemma master_poll_exit fuel started mb st r st' :
  master_poll w config fuel started mb st = (Ret r, st') ->
  r = Returned \/ r = Exhausted mb \/ r = Exhausted (Some false).
Proof.
  revert mb st. induction fuel as [|fuel IH]; intros mb st; cbn [master_poll].
  - discriminate.
  - unfold bind at 1. cbn [time_time].
    destruct (now st - started <? 300)%nat.
    + unfold bind at 1. cbn [time_sleep]. unfold bind at 1.
      destruct (is_master_image_booted w config _) as [[[|]|e|] st2];
        try discriminate.
      * intros [= <- <-]. auto.
      * intros H. destruct (IH _ _ H) as [->|[->| ->]]; auto.
    + intros [= <- <-]. auto.
Qed.

Lemma master_poll_never_raises fuel started mb st e :
  fst (master_poll w config fuel started mb st) <> Raise e.
Proof.
  revert mb st. induction fuel as [|fuel IH]; intros mb st; cbn [master_poll].
  - discriminate.
  - unfold bind at 1. cbn [time_time].
    destruct (now st - started <? 300)%nat; [|discriminate].
    unfold bind at 1. cbn [time_sleep]. unfold bind at 1.
    match goal with
    | |- context [is_master_image_booted w config ?s] =>
        destruct (is_master_returns s) as [b Hb];
        destruct (is_master_image_booted w config s) as [r0 st2]
    end.
    cbn [fst] in Hb. subst r0. destruct b; [discriminate | apply IH].
Qed.

(** After a reset the wait for the master image makes at least one
    round: it ends with a [return] or with [master_booted] false. *)
Lemma master_wait_exit st r st' :
  master_poll w config (poll_fuel 300 10) (now st) None st = (Ret r, st') ->
  r = Returned \/ r = Exhausted (Some false).
Proof.
  unfold poll_fuel. cbn [master_poll]. unfold bind at 1. cbn [time_time].
  rewrite Nat.sub_diag. cbn [Nat.ltb Nat.leb].
  unfold bind at 1. cbn [time_sleep]. unfold bind at 1.
  destruct (is_master_image_booted w config _) as [[[|]|e|] st2];
    try discriminate.
  - intros [= <- <-]. auto.
  - intros H. destruct (master_poll_exit _ _ _ _ _ _ H) as [->|[->| ->]]; auto.
Qed.

(** With the test image booted on entry, [ensure_master_image] ends
    at its first level, whatever the later probes answer: it returns,
    or raises its [RecoveryError] once the 300 seconds are spent, or
    raises an error of [setboot] or [hardreset] (the [TypeError] of a
    script that cannot be iterated over among them); it does not call
    itself. *)
Theorem test_booted_recovery_ends depth st st1 :
  is_test_image_booted w config st = (Ret true, st1) ->
  let r := fst (ensure_master_image w config (S depth) st) in
  r = Ret tt
  \/ r = Raise (RecoveryError "Could not reboot to master!")
  \/ r = Raise (RecoveryError "timeout reaching control host!")
  \/ r = Raise (ProvisioningError "timeout reaching control host!")
  \/ r = Raise (KeyError (Some "select_master_script"))
  \/ r = Raise (KeyError (Some "reboot_script"))
  \/ r = Raise TypeError.
Proof.
  intros Htest r. subst r.
  destruct (ensure_master_image w config (S depth) st) as [r stf] eqn:Hrun.
  cbn [fst]. cbn [ensure_master_image] in Hrun.
  unfold bind at 1 in Hrun. rewrite Htest in Hrun.
  unfold bind at 1 in Hrun. unfold bind at 1 in Hrun.
  pose proof (setboot_master_errors w config st1) as Hset.
  pose proof (total_setboot w config "master" st1) as Hset_total.
  destruct (setboot w config "master" st1) as [[[]|e1|] st2]; cbn [fst] in *;
    try congruence.
  2:{ injection Hrun as <- <-.
      destruct (Hset e1 eq_refl) as [->|[->| ->]]; auto 8. }
  unfold bind at 1 in Hrun.
  pose proof (hardreset_errors w config st2) as Hreset.
  pose proof (total_hardreset w config st2) as Hreset_total.
  destruct (hardreset w config st2) as [[[]|e2|] st3]; cbn [fst] in *;
    try congruence.
  2:{ injection Hrun as <- <-.
      destruct (Hreset e2 eq_refl) as [->|[->|[-> _]]]; auto 8. }
  unfold bind at 1 in Hrun. cbn [time_time] in Hrun. unfold bind at 1 in Hrun.
  pose proof (master_wait_exit st3) as Hexit.
  pose proof (master_poll_never_raises (poll_fuel 300 10) (now st3) None st3) as Hnever.
  pose proof (master_poll_total w config (300 / 10) (now st3) None st3) as Htotal.
  change (S (300 / 10)) with (poll_fuel 300 10) in Htotal.
  destruct (master_poll w config (poll_fuel 300 10) (now st3) None st3)
    as [[r0|e3|] st4]; cbn [fst] in *.
  - destruct (Hexit r0 st4 eq_refl) as [->| ->]; cbn in Hrun;
      injection Hrun as <- <-; auto.
  - exfalso. exact (Hnever e3 eq_refl).
  - exfalso. apply Htotal; [cbn; lia | reflexivity].
Qed.

Lemma nexec_le_refl st : nexec_le st st.
Proof. unfold nexec_le. lia. Qed.

Lemma nexec_le_trans a b c : nexec_le a b -> nexec_le b c -> nexec_le a c.
Proof. unfold nexec_le. lia. Qed.

Lemma nexec_le_spawned st argv timeout : nexec_le st (spawned w st argv timeout).
Proof. unfold nexec_le. cbn. lia. Qed.

Lemma nexec_le_entered st method : nexec_le st (entered st method).
Proof. unfold nexec_le. cbn. lia. Qed.

Lemma nexec_le_sleep st secs : nexec_le st (snd (time_sleep secs st)).
Proof. unfold nexec_le. cbn. lia. Qed.

Lemma master_probed_before a b c :
  nexec a <= nexec b -> master_probed w config b c -> master_probed w config a c.
Proof. intros Hle [Hlt Hprobe]. split; [lia | exact Hprobe]. Qed.

Lemma is_master_true st st' :
  is_master_image_booted w config st = (Ret true, st') ->
  master_probed w config st st'.
Proof.
  destruct (config !! "device_ip") as [ip|] eqn:Hip.
  - rewrite (is_master_image_booted_spec _ _ _ _ Hip). intros [= Hb <-].
    split; [cbn; lia|]. exists ip. split; [exact Hip|].
    exists (trace st), (nexec st). repeat split; solve [reflexivity | exact Hb].
  - rewrite (is_master_image_booted_no_ip _ _ _ Hip). discriminate.
Qed.

Lemma is_master_nexec st :
  nexec st <= nexec (snd (is_master_image_booted w config st)).
Proof.
  apply (respects_is_master_image_booted nexec_le nexec_le_refl nexec_le_trans
           w config nexec_le_spawned).
Qed.

Lemma is_test_nexec st :
  nexec st <= nexec (snd (is_test_image_booted w config st)).
Proof.
  apply (respects_is_test_image_booted nexec_le nexec_le_refl nexec_le_trans
           w config nexec_le_spawned).
Qed.

Lemma master_poll_returned fuel started mb st st' :
  master_poll w config fuel started mb st = (Ret Returned, st') ->
  master_probed w config st st'.
Proof.
  revert mb st. induction fuel as [|fuel IH]; intros mb st; cbn [master_poll].
  - discriminate.
  - unfold bind at 1. cbn [time_time].
    destruct (now st - started <? 300)%nat; [|discriminate].
    unfold bind at 1. cbn [time_sleep]. unfold bind at 1.
    match goal with
    | |- context [is_master_image_booted w config ?s] =>
        pose proof (is_master_true s) as Htrue;
        pose proof (is_master_nexec s) as Hle;
        destruct (is_master_image_booted w config s) as [[[|]|e|] st2]
    end; cbn [snd nexec] in *; try discriminate.
    + intros [= <-]. eapply master_probed_before; [|apply Htrue; reflexivity].
      cbn. lia.
    + intros H. apply (master_probed_before st st2 st'); [lia|]. exact (IH _ _ H).
Qed.

Lemma unknown_poll_exit fuel started st r st' :
  unknown_poll w config fuel started st = (Ret r, st') ->
  (r = Returned -> master_probed w config st st') /\ nexec st <= nexec st'.
Proof.
  revert st. induction fuel as [|fuel IH]; intros st; cbn [unknown_poll].
  - discriminate.
  - unfold bind at 1. cbn [time_time].
    destruct (now st - started <? 300)%nat.
    2:{ intros [= <- <-]. split; [discriminate | lia]. }
    unfold bind at 1. cbn [time_sleep]. unfold bind at 1.
    match goal with
    | |- context [is_master_image_booted w config ?s] =>
        pose proof (is_master_true s) as Htrue;
        pose proof (is_master_nexec s) as Hle;
        destruct (is_master_image_booted w config s) as [[[|]|e|] st2]
    end; cbn [snd nexec] in *; try discriminate.
    + intros [= <- <-]. split; [|lia]. intros _.
      eapply master_probed_before; [|apply Htrue; reflexivity]. cbn. lia.
    + unfold bind at 1.
      pose proof (is_test_nexec st2) as Hle2.
      destruct (is_test_image_booted w config st2) as [[[|]|e|] st3];
        cbn [snd] in *; try discriminate.
      * intros [= <- <-]. split; [discriminate | lia].
      * intros H. destruct (IH _ H) as [Hseen Hn]. split; [|lia].
        intros Hr. apply (master_probed_before st st3 st'); [lia | auto].
Qed.

(** The branch taken when the test image is booted: [true] when it
    returned, and then the master image was seen. *)
Lemma reset_branch_sound st a st' :
  (setboot w config "master" ;;
   hardreset w config ;;
   let! started := time_time in
   let! r := master_poll w config (poll_fuel 300 10) started None in
   match r with
   | Returned | Rerun => ret true
   | Exhausted None => raise UnboundLocalError
   | Exhausted (Some false) => raise (RecoveryError "Could not reboot to master!")
   | Exhausted (Some true) => ret false
   end) st = (Ret a, st') ->
  nexec st <= nexec st' /\ (a = true -> master_probed w config st st').
Proof.
  unfold bind at 1.
  pose proof (respects_setboot nexec_le nexec_le_refl nexec_le_trans w config
                nexec_le_spawned nexec_le_entered "master" st) as Hn1.
  destruct (setboot w config "master" st) as [[[]|e1|] st1]; try discriminate.
  unfold bind at 1.
  pose proof (respects_hardreset nexec_le nexec_le_refl nexec_le_trans w config
                nexec_le_spawned nexec_le_entered st1) as Hn2.
  destruct (hardreset w config st1) as [[[]|e2|] st2]; try discriminate.
  unfold bind at 1. cbn [time_time]. unfold bind at 1.
  pose proof (respects_master_poll nexec_le nexec_le_refl nexec_le_trans w config
                nexec_le_spawned nexec_le_sleep (poll_fuel 300 10) (now st2) None st2)
    as Hn3.
  pose proof (master_poll_returned (poll_fuel 300 10) (now st2) None st2) as Hseen.
  pose proof (master_poll_exit (poll_fuel 300 10) (now st2) None st2) as Hexit.
  destruct (master_poll w config (poll_fuel 300 10) (now st2) None st2)
    as [[r|e3|] st3]; try discriminate.
  unfold nexec_le in *. cbn [snd] in *.
  destruct (Hexit r st3 eq_refl) as [->|[->| ->]]; cbn [ret raise];
    try discriminate.
  intros [= <- <-]. split; [lia|]. intros _.
  apply (master_probed_before st st2 st3); [lia|]. apply Hseen. reflexivity.
Qed.

(** [ensure_master_image] returns only on the strength of a probe:
    the last process it ran is its probe for the master image,
    [cat /etc/issue] on the control host, and the output of that
    process holds [GNU].  It never reports a device as recovered on the
    strength of a reset alone. *)
Theorem ensure_master_image_sound depth st :
  fst (ensure_master_image w config depth st) = Ret tt ->
  master_probed w config st (snd (ensure_master_image w config depth st)).
Proof.
  revert st. induction depth as [|depth IH]; intros st; [discriminate|].
  destruct (ensure_master_image w config (S depth) st) as [r stf] eqn:Hrun.
  cbn [fst snd]. intros ->. cbn [ensure_master_image] in Hrun.
  unfold bind at 1 in Hrun.
  pose proof (is_test_nexec st) as Hn1.
  destruct (is_test_image_booted w config st) as [[tb|e|] st1];
    cbn [snd] in *; try discriminate.
  unfold bind at 1 in Hrun.
  assert (Hfirst : forall a st2,
            (if tb
             then
               setboot w config "master" ;;
               hardreset w config ;;
               let! started := time_time in
               let! r := master_poll w config (poll_fuel 300 10) started None in
               match r with
               | Returned | Rerun => ret true
               | Exhausted None => raise UnboundLocalError
               | Exhausted (Some false) =>
                   raise (RecoveryError "Could not reboot to master!")
               | Exhausted (Some true) => ret false
               end
             else ret false) st1 = (Ret a, st2) ->
            nexec st1 <= nexec st2 /\ (a = true -> master_probed w config st1 st2)).
  { intros a st2. destruct tb.
    - apply reset_branch_sound.
    - intros [= <- <-]. split; [lia | discriminate]. }
  match type of Hrun with
  | context [let (_, _) := ?m st1 in _] =>
      destruct (m st1) as [[a|e|] st2]; try discriminate
  end.
  destruct (Hfirst a st2 eq_refl) as [Hn2 Hseen1]. clear Hfirst.
  destruct a.
  { injection Hrun as <-. apply (master_probed_before st st1 st2); [lia | auto]. }
  unfold bind at 1 in Hrun.
  pose proof (is_master_true st2) as Htrue.
  pose proof (is_master_nexec st2) as Hn3.
  destruct (is_master_image_booted w config st2) as [[[|]|e|] st3];
    cbn [snd] in *; try discriminate.
  { injection Hrun as <-. apply (master_probed_before st st2 st3); [lia|].
    apply Htrue. reflexivity. }
  unfold bind at 1 in Hrun.
  pose proof (respects_hardreset nexec_le nexec_le_refl nexec_le_trans w config
                nexec_le_spawned nexec_le_entered st3) as Hn4.
  destruct (hardreset w config st3) as [[[]|e2|] st4]; try discriminate.
  unfold bind at 1 in Hrun. cbn [time_time] in Hrun. unfold bind at 1 in Hrun.
  pose proof (unknown_poll_exit (poll_fuel 300 10) (now st4) st4) as Hexit.
  destruct (unknown_poll w config (poll_fuel 300 10) (now st4) st4)
    as [[r|e3|] st5]; try discriminate.
  destruct (Hexit r st5 eq_refl) as [Hseen Hn5].
  unfold nexec_le in *. cbn [snd] in *.
  destruct r as [| |mb]; cbn [ret raise] in Hrun; try discriminate.
  - injection Hrun as <-. apply (master_probed_before st st4 st5); [lia | auto].
  - specialize (IH st5). rewrite Hrun in IH. cbn [fst snd] in IH.
    apply (master_probed_before st st5 stf); [lia | auto].
Qed.

End RecoveryFacts.

(** *** The provisioning run, before and after its [try] statement *)

Section ProvisionFacts.

Variable w : world.
Variable config : gmap string cfgval.
Variable job_data : job.

(** A job whose [provision_data] has no [url], or an empty one, makes
    [provision] raise [ProvisioningError] at once: nothing is
    downloaded, the image server is not started, no command runs and
    the device is not wiped. *)
Theorem provision_rejects_missing_url st pd :
  provision_data job_data = Some pd ->
  pd !! "url" = None \/ pd !! "url" = Some "" ->
  provision w config job_data st =
    (Raise (ProvisioningError "Error provisioning system"), st).
Proof.
  intros Hpd Hurl. unfold provision. rewrite Hpd. unfold bind at 1. cbn [ret].
  destruct Hurl as [-> | ->]; reflexivity.
Qed.

Lemma server_gone_refl st : server_gone st st.
Proof. split; auto. Qed.

Lemma server_gone_trans a b c : server_gone a b -> server_gone b c -> server_gone a c.
Proof. intros [H1 H2] [H3 H4]. split; auto. Qed.

Lemma server_gone_spawned st argv timeout : server_gone st (spawned w st argv timeout).
Proof.
  split; cbn.
  - destruct (file_server st); try discriminate; congruence.
  - intros H. apply elem_of_app. auto.
Qed.

Lemma server_gone_entered st method : server_gone st (entered st method).
Proof. split; cbn; [auto|]. intros H. apply elem_of_app. auto. Qed.

Lemma server_gone_sleep st secs : server_gone st (snd (time_sleep secs st)).
Proof. split; cbn; [auto|]. intros H. apply elem_of_app. auto. Qed.

(** When [provision] returns, [file_server.terminate()] has been
    called and the image server is not listening any more. *)
Theorem provision_success_stops_server st :
  fst (provision w config job_data st) = Ret tt ->
  file_server (snd (provision w config job_data st)) <> Listening
  /\ ServerTerminate ∈ trace (snd (provision w config job_data st)).
Proof.
  destruct (provision w config job_data st) as [r stf] eqn:Hrun.
  cbn [fst snd]. intros ->. unfold provision in Hrun.
  unfold bind at 1 in Hrun.
  destruct (provision_data job_data) as [pd|]; [|discriminate]. cbn [ret] in Hrun.
  unfold bind at 1 in Hrun.
  destruct (pd !! "url") as [[|c url]|]; try discriminate.
  unfold lift_failure at 1 in Hrun.
  destruct (download_fails w); [discriminate|]. cbn [ret] in Hrun.
  unfold bind at 1 in Hrun. unfold lift_failure at 1 in Hrun.
  destruct (compress_fails w); [discriminate|]. cbn [ret] in Hrun.
  unfold bind at 1 in Hrun.
  destruct (local_ip_addr w) as [ip|]; [|discriminate]. cbn [ret] in Hrun.
  unfold bind at 1 in Hrun. cbn [file_server_start] in Hrun.
  unfold try_except in Hrun.
  match type of Hrun with
  | context [provision_body w config ip ?port ?u ?p ?s] =>
      destruct (provision_body w config ip port u p s) as [[[]|e|] st1] eqn:Hbody
  end; try discriminate.
  2:{ unfold bind in Hrun. destruct (wipe_test_device w config st1) as [[[]|e'|] st2];
      discriminate. }
  injection Hrun as <-.
  unfold provision_body in Hbody. unfold bind at 1 in Hbody.
  match type of Hbody with
  | context [flash_test_image w config ip ?port ?s] =>
      destruct (flash_test_image w config ip port s) as [[[]|e|] st2];
        try discriminate
  end.
  unfold bind at 1 in Hbody. cbn [file_server_terminate] in Hbody.
  set (st3 := mkState _ _ _ _) in Hbody.
  set (rest := bind _ _) in Hbody.
  assert (Hrest : respects server_gone rest).
  { subst rest.
    apply (respects_bind server_gone server_gone_trans);
      [apply (respects_get_image_type server_gone server_gone_refl
                server_gone_trans w config server_gone_spawned)|].
    intros [image_type image_dev].
    apply (respects_bind server_gone server_gone_trans).
    { apply (respects_remote_mount server_gone server_gone_refl
               server_gone_trans w config server_gone_spawned).
      intros _. apply (respects_create_user server_gone server_gone_refl
                         server_gone_trans w config server_gone_spawned). }
    intros _. apply (respects_bind server_gone server_gone_trans).
    { apply (respects_run_post_provision_script server_gone server_gone_refl
               server_gone_trans w config server_gone_spawned). }
    intros _. apply (respects_ensure_test_image server_gone server_gone_refl
                       server_gone_trans w config server_gone_spawned
                       server_gone_entered server_gone_sleep). }
  specialize (Hrest st3). rewrite Hbody in Hrest. cbn [snd] in Hrest.
  destruct Hrest as [Hgone Hterm]. split.
  - apply Hgone. subst st3. cbn. destruct (file_server st2); discriminate.
  - apply Hterm. subst st3. cbn. apply elem_of_app. right.
    apply list_elem_of_singleton. reflexivity.
Qed.

End ProvisionFacts.

(** *** The preparation of the image *)

Section ImageFacts.

Lemma py_index_absent x (l : list string) : x ∉ l -> py_index x l = None.
Proof.
  induction l as [|y l IH]; intros Hx; [reflexivity|].
  cbn. apply not_elem_of_cons in Hx as [Hne Hx].
  destruct (decide (x = y)); [contradiction|]. rewrite IH by exact Hx. reflexivity.
Qed.

Lemma py_index_first x (pre post : list string) :
  x ∉ pre -> py_index x (pre ++ x :: post) = Some (length pre).
Proof.
  induction pre as [|y pre IH]; intros Hx; cbn.
  - destruct (decide (x = x)); [reflexivity | congruence].
  - apply not_elem_of_cons in Hx as [Hne Hx].
    destruct (decide (x = y)); [contradiction|]. rewrite IH by exact Hx. reflexivity.
Qed.

(** Without [-o] among the words of [params], [udf_create_image] runs
    [sudo ubuntu-device-flash] with the words of [params] followed by
    [-o] and [snappy.img] in the temporary directory. *)
Theorem udf_command_appends_output params cwd tmpdir :
  "-o" ∉ py_split params ->
  udf_command params cwd tmpdir =
    ("sudo" :: "ubuntu-device-flash" :: py_split params
     ++ ["-o"; py_path_join tmpdir IMAGEFILE])%list.
Proof.
  intros Hno. unfold udf_command.
  rewrite py_index_absent; [reflexivity|].
  rewrite !not_elem_of_cons. repeat split; try discriminate. exact Hno.
Qed.

(** When [params] holds [-o] followed by a word, the word after the
    first [-o] is replaced by [snappy.img] in the working directory and
    nothing is appended: the path the caller gave is not used, and
    neither is the temporary directory. *)
Theorem udf_command_redirects_output params cwd tmpdir pre old post :
  py_split params = (pre ++ "-o" :: old :: post)%list ->
  "-o" ∉ pre ->
  udf_command params cwd tmpdir =
    ("sudo" :: "ubuntu-device-flash" :: pre
     ++ "-o" :: py_path_join cwd IMAGEFILE :: post)%list.
Proof.
  intros Hsplit Hno. unfold udf_command. rewrite Hsplit.
  change ("sudo" :: "ubuntu-device-flash" :: pre ++ "-o" :: old :: post)%list
    with (("sudo" :: "ubuntu-device-flash" :: pre) ++ "-o" :: old :: post)%list.
  rewrite py_index_first
    by (rewrite !not_elem_of_cons; repeat split; try discriminate; exact Hno).
  rewrite length_app. cbn [length].
  destruct (S (S (S (length pre))) <? S (S (length pre)) + S (S (length post)))%nat eqn:E;
    [|apply Nat.ltb_ge in E; lia].
  cbn [app].
  change (<[S (S (S (length pre))) := py_path_join cwd IMAGEFILE]>
            ("sudo" :: "ubuntu-device-flash" :: pre ++ "-o" :: old :: post)%list)
    with ("sudo" :: "ubuntu-device-flash"
          :: <[S (length pre) := py_path_join cwd IMAGEFILE]>
               (pre ++ "-o" :: old :: post)%list).
  do 2 f_equal.
  replace (S (length pre)) with (length pre + 1) by lia.
  rewrite insert_app_r. reflexivity.
Qed.

(** When the only [-o] of [params] is its last word, the assignment
    behind it is out of range and the [except] clause appends [-o] and
    the temporary path: the command then holds [-o] twice in a row. *)
Theorem udf_command_trailing_option params cwd tmpdir pre :
  py_split params = (pre ++ ["-o"])%list ->
  "-o" ∉ pre ->
  udf_command params cwd tmpdir =
    ("sudo" :: "ubuntu-device-flash" :: pre
     ++ ["-o"; "-o"; py_path_join tmpdir IMAGEFILE])%list.
Proof.
  intros Hsplit Hno. unfold udf_command. rewrite Hsplit.
  change ("sudo" :: "ubuntu-device-flash" :: pre ++ ["-o"])%list
    with (("sudo" :: "ubuntu-device-flash" :: pre) ++ ["-o"])%list.
  rewrite py_index_first
    by (rewrite !not_elem_of_cons; repeat split; try discriminate; exact Hno).
  rewrite length_app. cbn [length].
  destruct (S (S (S (length pre))) <? S (S (length pre)) + 1)%nat eqn:E;
    [apply Nat.ltb_lt in E; lia|].
  cbn [app]. rewrite <- app_assoc. reflexivity.
Qed.

Import Images.

Lemma downloads_succeed fails urls log :
  (forall u, fails (Download u (py_basename u)) = None) ->
  ifor_each urls (fun u => ibind (download fails u None) (fun _ => iret tt)) log =
    (Ret tt, (log ++ ((fun u => Download u (py_basename u)) <$> urls))%list).
Proof.
  intros Hok. revert log. induction urls as [|u urls IH]; intros log.
  - cbn. rewrite app_nil_r. reflexivity.
  - cbn [ifor_each]. unfold ibind at 1. unfold ibind at 1. unfold download.
    unfold ibind at 1. unfold perform. rewrite Hok. cbn [iret].
    rewrite IH. cbn [fmap list_fmap]. rewrite <- app_assoc. reflexivity.
Qed.

(** With neither [url] nor [udf-params] in the image reference,
    [get_image] does not return: after the files of [download_files]
    are fetched, each under the base name of its url, the unbound
    [image] raises [UnboundLocalError]; nothing is built or
    compressed. *)
Theorem get_image_without_source fails cwd ref log :
  url ref = None ->
  udf_params ref = None ->
  (forall u, fails (Download u (py_basename u)) = None) ->
  get_image fails cwd ref log =
    (Raise UnboundLocalError,
     (log ++ ((fun u => Download u (py_basename u)) <$> default [] (download_files ref)))%list).
Proof.
  intros Hurl Hudf Hok. unfold get_image. rewrite Hurl, Hudf.
  unfold ibind at 1.
  destruct (download_files ref) as [urls|]; cbn [default].
  - rewrite (downloads_succeed fails urls log Hok). reflexivity.
  - cbn. rewrite app_nil_r. reflexivity.
Qed.

Lemma downloads_log fails urls log :
  exists ds,
    snd (ifor_each urls (fun u => ibind (download fails u None) (fun _ => iret tt)) log)
      = (log ++ ds)%list
    /\ Forall (fun a => exists u f, a = Download u f) ds.
Proof.
  revert log. induction urls as [|u urls IH]; intros log.
  - exists []. cbn. rewrite app_nil_r. split; [reflexivity | constructor].
  - cbn [ifor_each]. unfold ibind at 1. unfold ibind at 1. unfold download.
    unfold ibind at 1. unfold perform.
    destruct (fails (Download u (py_basename u))) as [e|]; cbn [iret snd].
    + exists [Download u (py_basename u)]. split; [reflexivity|].
      repeat constructor. eauto.
    + destruct (IH (log ++ [Download u (py_basename u)])%list) as (ds & Hds & Hall).
      exists (Download u (py_basename u) :: ds).
      split; [|constructor; eauto].
      etransitivity; [exact Hds|]. rewrite <- app_assoc. reflexivity.
Qed.

(** With [url] in the image reference, [get_image] never builds an
    image, whatever [udf-params] holds: it fetches the url into
    [snappy.img], and when it returns, the name is [snappy.img.gz] and
    the last two actions are that download and the compression of
    [snappy.img]. *)
Theorem get_image_prefers_url fails cwd ref u log :
  url ref = Some u ->
  let out := get_image fails cwd ref log in
  (forall params, CreateImage params ∈ snd out -> CreateImage params ∈ log)
  /\ (forall name, fst out = Ret name ->
        name = "snappy.img.gz"
        /\ exists log', snd out =
             (log' ++ [Download u "snappy.img"; CompressFile "snappy.img"])%list).
Proof.
  intros Hurl out. subst out.
  destruct (get_image fails cwd ref log) as [r logf] eqn:Hrun. cbn [fst snd].
  unfold get_image in Hrun. rewrite Hurl in Hrun. unfold ibind at 1 in Hrun.
  set (loop := match download_files ref with Some _ => _ | None => _ end) in Hrun.
  assert (Hloop : exists ds, snd (loop log) = (log ++ ds)%list
                    /\ Forall (fun a => exists u f, a = Download u f) ds).
  { subst loop. destruct (download_files ref) as [urls|].
    - apply downloads_log.
    - exists []. cbn. rewrite app_nil_r. split; [reflexivity | constructor]. }
  destruct Hloop as (ds & Hds & Hall).
  assert (Hnone : forall params extra,
            Forall (fun a => exists u f, a = Download u f \/ a = CompressFile f) extra ->
            CreateImage params ∈ ((log ++ ds) ++ extra)%list ->
            CreateImage params ∈ log).
  { intros params extra Hextra Hin.
    rewrite !elem_of_app in Hin. destruct Hin as [[Hin|Hin]|Hin]; [exact Hin| |].
    - rewrite Forall_forall in Hall. destruct (Hall _ Hin) as (u' & f & Heq).
      discriminate.
    - rewrite Forall_forall in Hextra.
      destruct (Hextra _ Hin) as (u' & f & [Heq|Heq]); discriminate. }
  destruct (loop log) as [[[]|e|] log1]; cbn [snd] in Hds; subst log1.
  - unfold ibind at 1 in Hrun. unfold ibind at 1 in Hrun. unfold download in Hrun.
    unfold ibind at 1 in Hrun. unfold perform at 1 in Hrun.
    destruct (fails (Download u IMAGEFILE)) as [e|]; cbn [iret] in Hrun.
    + injection Hrun as <- <-. split; [|discriminate].
      intros params. apply Hnone.
      apply Forall_cons; split; [|apply Forall_nil_2]. exists u, IMAGEFILE. left. reflexivity.
    + unfold compress_file, ibind, perform in Hrun.
      destruct (fails (CompressFile IMAGEFILE)) as [e|]; cbn [iret] in Hrun;
        injection Hrun as <- <-.
      * split; [|discriminate]. intros params. rewrite <- app_assoc.
        apply Hnone.
           apply Forall_cons; split; [exists u, IMAGEFILE; left; reflexivity|].
           apply Forall_cons; split; [|apply Forall_nil_2].
           exists u, IMAGEFILE; right; reflexivity.
      * split.
        -- intros params. rewrite <- app_assoc.
           apply Hnone.
           apply Forall_cons; split; [exists u, IMAGEFILE; left; reflexivity|].
           apply Forall_cons; split; [|apply Forall_nil_2].
           exists u, IMAGEFILE; right; reflexivity.
        -- intros name [= <-]. split; [reflexivity|].
           exists (log ++ ds)%list. rewrite <- !app_assoc. reflexivity.
  - injection Hrun as <- <-. split; [|discriminate].
    intros params Hin. apply (Hnone params []); [apply Forall_nil_2|].
    rewrite app_nil_r. exact Hin.
  - injection Hrun as <- <-. split; [|discriminate].
    intros params Hin. apply (Hnone params []); [apply Forall_nil_2|].
    rewrite app_nil_r. exact Hin.
Qed.

End ImageFacts.

Section CompressFacts.

Import Transfer.

Variable gzip : list bytes -> bytes.

Lemma append_length (a b : string) :
  String.length (a +:+ b) = String.length a + String.length b.
Proof.
  induction a as [|c a IH]; [reflexivity|].
  change (S (String.length (a +:+ b)) = S (String.length a + String.length b)).
  rewrite IH. reflexivity.
Qed.

Lemma gz_name_fresh (filename : string) : filename <> filename +:+ ".gz".
Proof.
  intros Heq. apply (f_equal String.length) in Heq.
  rewrite append_length in Heq. cbn in Heq. lia.
Qed.

(** [compress_file] on a file that exists returns the name with [.gz]
    appended; afterwards the file itself is gone, the [.gz] file holds
    the gzip stream of the contents fed in chunks of 1 to 4096 bytes
    that together are the contents, and every other file is as it
    was. *)
Theorem compress_file_effect (fs : gmap string bytes) filename data :
  fs !! filename = Some data ->
  exists fs' chunks,
    compress_file gzip fs filename = Some (fs', filename +:+ ".gz")
    /\ fs' !! filename = None
    /\ fs' !! (filename +:+ ".gz") = Some (gzip chunks)
    /\ concat chunks = data
    /\ Forall (fun d => 0 < length d <= 4096) chunks
    /\ (forall other, other <> filename -> other <> filename +:+ ".gz" ->
          fs' !! other = fs !! other).
Proof.
  intros Hfile. unfold compress_file. rewrite Hfile.
  eexists _, (read_all COMPRESS_BUFSIZE data). split; [reflexivity|].
  split; [apply lookup_delete_eq|].
  split.
  { rewrite lookup_delete_ne by apply gz_name_fresh. apply lookup_insert_eq. }
  split; [apply read_all_concat; unfold COMPRESS_BUFSIZE; lia|].
  split; [apply read_loop_sizes|].
  intros other Hne Hgz.
  rewrite lookup_delete_ne by congruence. rewrite lookup_insert_ne by congruence.
  reflexivity.
Qed.

End CompressFacts.

(** *** Guards, clean-up and the errors of the recovery *)

Section GuardFacts.

Variable w : world.
Variable config : gmap string cfgval.

(** With [test_device] configured and [device_ip] missing,
    [flash_test_image] reports the wrong key: the [KeyError] of
    [device_ip], raised inside the first [try], is taken for that of
    [test_device].  No process is spawned. *)
Theorem flash_without_device_ip server_ip server_port st dev :
  config !! "test_device" = Some dev ->
  config !! "device_ip" = None ->
  flash_test_image w config server_ip server_port st =
    (Raise (RecoveryError "Device config missing test_device"), st).
Proof.
  intros Hdev Hip.
  unfold flash_test_image, flash_unmount. unfold bind at 1.
  unfold try_except, config_str. unfold bind at 1. rewrite Hdev. cbn [ret].
  unfold bind at 1. rewrite (run_control_no_ip _ _ _ _ _ Hip). reflexivity.
Qed.

(** [wipe_test_device] never raises, and runs one command at most:
    [wipefs] on the test device, on the control host; without
    [test_device] or [device_ip] it runs nothing. *)
Theorem wipe_test_device_effect st :
  fst (wipe_test_device w config st) = Ret tt
  /\ trace (snd (wipe_test_device w config st)) =
       (trace st ++ Entered "wipe_test_device" ::
          match config !! "test_device", config !! "device_ip" with
          | Some dev, Some ip =>
              [Exec (ssh_argv "pi" (py_str ip) ("sudo wipefs -af " +:+ py_str dev))
                 (Some 60)]
          | _, _ => []
          end)%list.
Proof.
  unfold wipe_test_device, bind, log_event, try_except, config_str.
  destruct (config !! "test_device") as [dev|]; [|split; reflexivity].
  cbn [ret]. destruct (config !! "device_ip") as [ip|] eqn:Hip.
  - rewrite (run_control_spec _ _ _ _ _ _ Hip).
    destruct (fst (proc w _)); cbn; rewrite <- app_assoc; split; reflexivity.
  - rewrite (run_control_no_ip _ _ _ _ _ Hip). split; reflexivity.
Qed.

Lemma test_round_true user password st st' :
  test_round w config user password st = (Ret true, st') ->
  exists ip, config !! "device_ip" = Some ip
             /\ ended_on_test_probe w (py_str ip) st'.
Proof.
  unfold test_round, try_except. unfold bind at 1. cbn [time_sleep].
  unfold bind at 1. unfold config_str.
  destruct (config !! "device_ip") as [ip|] eqn:Hip; cbn [ret raise];
    [|discriminate].
  unfold bind at 1.
  match goal with
  | |- context [check_call w ?argv ?t ?s] =>
      destruct (check_call w argv t s) as [[[]|e|] st2]
  end; try discriminate.
  rewrite (is_test_image_booted_spec _ _ _ _ Hip).
  destruct (succeeded (fst (proc w (nexec st2)))) eqn:Eok; [|discriminate].
  intros [= <-]. exists ip. split; [reflexivity|].
  exists (trace st2), (nexec st2). repeat split; solve [reflexivity | exact Eok].
Qed.

Lemma test_poll_true fuel started user password st st' :
  test_poll w config fuel started user password st = (Ret true, st') ->
  now st + 10 <= now st'
  /\ exists ip, config !! "device_ip" = Some ip
                /\ ended_on_test_probe w (py_str ip) st'.
Proof.
  revert st. induction fuel as [|fuel IH]; intros st; cbn [test_poll].
  - discriminate.
  - unfold bind at 1. cbn [time_time].
    destruct (now st - started <? 600)%nat; [|discriminate].
    unfold bind at 1.
    pose proof (test_round_true user password st) as Htrue.
    pose proof (test_round_later w config user password st) as Hlater.
    destruct (test_round w config user password st) as [[[|]|e|] st2];
      cbn [snd] in Hlater; try discriminate.
    + intros [= <-]. split; [exact Hlater|]. apply Htrue. reflexivity.
    + intros H. destruct (IH _ H) as [Hnow Hprobe]. split; [lia | exact Hprobe].
Qed.

(** [ensure_test_image] returns only on the strength of a probe: the
    last process it ran is the probe for the test image, that probe
    succeeded, and 70 seconds or more have passed since the call, the
    60 seconds of settling and the 10 of one round. *)
Theorem ensure_test_image_sound user password st :
  fst (ensure_test_image w config user password st) = Ret tt ->
  let final := snd (ensure_test_image w config user password st) in
  now st + 70 <= now final
  /\ exists ip, config !! "device_ip" = Some ip
                /\ ended_on_test_probe w (py_str ip) final.
Proof.
  destruct (ensure_test_image w config user password st) as [r stf] eqn:Hrun.
  cbn [fst snd]. intros ->.
  unfold ensure_test_image in Hrun. unfold bind at 1 in Hrun.
  pose proof (respects_setboot later later_refl later_trans w config
                (later_spawned w) later_entered "test" st) as Hl1.
  destruct (setboot w config "test" st) as [[[]|e1|] st1]; cbn [fst snd] in *;
    try discriminate.
  unfold bind at 1 in Hrun.
  set (reboot := try_except _ _) in Hrun.
  assert (Hreboot : respects later reboot).
  { subst reboot. apply (respects_try_except later later_trans);
      [|intros; apply (respects_ret later later_refl)].
    apply (respects_bind later later_trans);
      [apply (respects_run_control later later_refl later_trans w config
                (later_spawned w))
      |intros; apply (respects_ret later later_refl)]. }
  specialize (Hreboot st1).
  destruct (reboot st1) as [[[]|e2|] st2]; cbn [fst snd] in *; try discriminate.
  unfold bind at 1 in Hrun. cbn [time_sleep] in Hrun.
  unfold bind at 1 in Hrun. cbn [time_time now] in Hrun.
  unfold bind at 1 in Hrun.
  match type of Hrun with
  | context [test_poll w config ?f ?s user password ?st0] =>
      pose proof (test_poll_true f s user password st0) as Htrue;
      destruct (test_poll w config f s user password st0) as [[[|]|e3|] st3]
  end; cbn [fst snd ret raise] in *; try discriminate.
  injection Hrun as <-.
  destruct (Htrue st3 eq_refl) as [Hnow Hprobe]. cbn [now] in Hnow.
  unfold later in *. split; [lia | exact Hprobe].
Qed.

Lemma is_test_raises st e :
  fst (is_test_image_booted w config st) = Raise e -> e = KeyError (Some "device_ip").
Proof.
  destruct (config !! "device_ip") as [ip|] eqn:Hip.
  - rewrite (is_test_image_booted_spec _ _ _ _ Hip). discriminate.
  - rewrite (is_test_image_booted_no_ip _ _ _ Hip). intros [= <-]. reflexivity.
Qed.

Lemma unknown_poll_raises fuel started st e :
  fst (unknown_poll w config fuel started st) = Raise e ->
  e = KeyError (Some "device_ip").
Proof.
  revert st. induction fuel as [|fuel IH]; intros st; cbn [unknown_poll].
  - discriminate.
  - unfold bind at 1. cbn [time_time].
    destruct (now st - started <? 300)%nat; [|discriminate].
    unfold bind at 1. cbn [time_sleep]. unfold bind at 1.
    match goal with
    | |- context [is_master_image_booted w config ?s] =>
        destruct (is_master_returns w config s) as [b Hb];
        destruct (is_master_image_booted w config s) as [r0 st2]
    end.
    cbn [fst] in Hb. subst r0. destruct b; [discriminate|].
    unfold bind at 1.
    pose proof (is_test_raises st2) as Htest.
    destruct (is_test_image_booted w config st2) as [[[|]|e'|] st3];
      cbn [fst] in *; try discriminate.
    + apply IH.
    + intros [= <-]. apply Htest. reflexivity.
Qed.

(** A run of [ensure_master_image] that nests no deeper than [depth]
    raises nothing but the eight exceptions of [recovery_errors],
    whatever the device does: next to its three [RecoveryError]s, the
    [ProvisioningError] of [setboot], the [KeyError] of a missing
    [device_ip], [select_master_script] or [reboot_script] and the
    [TypeError] of a script that cannot be iterated over leave it as
    they are.  In particular [master_booted] is never read unbound.  A
    run that nests deeper (result [OutOfFuel]) is one that the
    interpreter ends at its recursion limit. *)
Theorem ensure_master_image_errors depth st e :
  fst (ensure_master_image w config depth st) = Raise e ->
  e ∈ recovery_errors.
Proof.
  assert (Hin : forall x, x ∈ recovery_errors <->
            x = TypeError
            \/ x = KeyError (Some "device_ip")
            \/ x = KeyError (Some "select_master_script")
            \/ x = KeyError (Some "reboot_script")
            \/ x = ProvisioningError "timeout reaching control host!"
            \/ x = RecoveryError "timeout reaching control host!"
            \/ x = RecoveryError "Could not reboot to master!"
            \/ x = RecoveryError
                     "Device is in an unknown state, may require manual recovery!").
  { intros x. unfold recovery_errors. rewrite !elem_of_cons, elem_of_nil. tauto. }
  revert st. induction depth as [|depth IH]; intros st; [discriminate|].
  destruct (ensure_master_image w config (S depth) st) as [r stf] eqn:Hrun.
  cbn [fst]. intros ->. cbn [ensure_master_image] in Hrun.
  unfold bind at 1 in Hrun.
  pose proof (is_test_raises st) as Htest.
  destruct (is_test_image_booted w config st) as [[tb|e0|] st1];
    cbn [fst] in *; try discriminate.
  2:{ injection Hrun as <- <-. rewrite (Htest e0 eq_refl). apply Hin. auto 12. }
  clear Htest. unfold bind at 1 in Hrun.
  assert (Hfirst : forall e1 st2,
            (if tb
             then
               setboot w config "master" ;;
               hardreset w config ;;
               let! started := time_time in
               let! r := master_poll w config (poll_fuel 300 10) started None in
               match r with
               | Returned | Rerun => ret true
               | Exhausted None => raise UnboundLocalError
               | Exhausted (Some false) =>
                   raise (RecoveryError "Could not reboot to master!")
               | Exhausted (Some true) => ret false
               end
             else ret false) st1 = (Raise e1, st2) ->
            e1 ∈ recovery_errors).
  { intros e1 st2. destruct tb; [|discriminate].
    unfold bind at 1.
    pose proof (setboot_master_errors w config st1) as Hset.
    destruct (setboot w config "master" st1) as [[[]|e2|] st3]; cbn [fst] in *;
      try discriminate.
    2:{ intros [= <- <-]. apply Hin.
        destruct (Hset e2 eq_refl) as [->|[->| ->]]; auto 12. }
    unfold bind at 1.
    pose proof (hardreset_errors w config st3) as Hreset.
    destruct (hardreset w config st3) as [[[]|e3|] st4]; cbn [fst] in *;
      try discriminate.
    2:{ intros [= <- <-]. apply Hin.
        destruct (Hreset e3 eq_refl) as [->|[->|[-> _]]]; auto 12. }
    unfold bind at 1. cbn [time_time]. unfold bind at 1.
    pose proof (master_wait_exit w config st4) as Hexit.
    pose proof (master_poll_never_raises w config (poll_fuel 300 10) (now st4) None st4)
      as Hnever.
    destruct (master_poll w config (poll_fuel 300 10) (now st4) None st4)
      as [[r0|e4|] st5]; cbn [fst] in *.
    - destruct (Hexit r0 st5 eq_refl) as [->| ->]; cbn [ret raise];
        [discriminate|]. intros [= <- <-]. apply Hin. auto 12.
    - exfalso. exact (Hnever e4 eq_refl).
    - discriminate. }
  match type of Hrun with
  | context [let (_, _) := ?m st1 in _] =>
      destruct (m st1) as [[a|e1|] st2]; try discriminate
  end.
  2:{ injection Hrun as <- <-. apply (Hfirst e1 st2). reflexivity. }
  clear Hfirst. destruct a; [discriminate|].
  unfold bind at 1 in Hrun.
  destruct (is_master_returns w config st2) as [b Hb].
  destruct (is_master_image_booted w config st2) as [r0 st3].
  cbn [fst] in Hb. subst r0. destruct b; [discriminate|].
  unfold bind at 1 in Hrun.
  pose proof (hardreset_errors w config st3) as Hreset.
  destruct (hardreset w config st3) as [[[]|e3|] st4]; cbn [fst] in *;
    try discriminate.
  2:{ injection Hrun as <- <-. apply Hin.
      destruct (Hreset e3 eq_refl) as [->|[->|[-> _]]]; auto 12. }
  unfold bind at 1 in Hrun. cbn [time_time] in Hrun. unfold bind at 1 in Hrun.
  pose proof (unknown_poll_raises (poll_fuel 300 10) (now st4) st4) as Hpoll.
  destruct (unknown_poll w config (poll_fuel 300 10) (now st4) st4)
    as [[r|e4|] st5]; cbn [fst] in *; try discriminate.
  2:{ injection Hrun as <- <-. rewrite (Hpoll e4 eq_refl). apply Hin. auto 12. }
  destruct r as [| |mb]; cbn [ret raise] in Hrun; try discriminate.
  - specialize (IH st5). rewrite Hrun in IH. apply IH. reflexivity.
  - injection Hrun as <- <-. apply Hin. auto 12.
Qed.

End GuardFacts.

(** *** The further properties at concrete inputs *)

Lemma remote_mount_releases_witness :
  fst (remote_mount obliging_world pi_config "sda1" "/mnt"
         (fun _ => @raise unit OSError) idle) = Raise OSError
  /\ trace (snd (remote_mount obliging_world pi_config "sda1" "/mnt"
                   (fun _ => @raise unit OSError) idle)) =
       [Exec (ssh_argv "pi" "10.0.0.2" "sudo mount /dev/sda1 /mnt") (Some 60);
        Exec (ssh_argv "pi" "10.0.0.2" "sudo umount /mnt") (Some 60)].
Proof.
  destruct (remote_mount_releases obliging_world pi_config "sda1" "/mnt"
              (fun _ => @raise unit OSError) idle (VStr "10.0.0.2")
              eq_refl eq_refl) as [Hst Hres].
  - discriminate.
  - rewrite Hst, Hres. split; reflexivity.
Defined.

Lemma remote_mount_failed_mount_witness :
  exists e,
    remote_mount unreachable_world pi_config "sda1" "/mnt" (fun _ => ret tt) idle =
      (Raise e,
       spawned unreachable_world idle
         (ssh_argv "pi" "10.0.0.2" "sudo mount /dev/sda1 /mnt") (Some 60))
    /\ control_result (fst (proc unreachable_world 0)) = Raise e.
Proof.
  apply (remote_mount_failed_mount unreachable_world pi_config "sda1" "/mnt"
           (fun _ => ret tt) idle (VStr "10.0.0.2")); reflexivity.
Defined.

Lemma check_partition_outcome_witness :
  listed_type (fst (proc busy_world 1)) = Some "ubuntu"
  /\ fst (check_partition busy_world pi_config "sda1" idle) = Ret None
  /\ nexec (snd (check_partition busy_world pi_config "sda1" idle)) = 3.
Proof.
  split; [reflexivity|].
  apply (check_partition_outcome busy_world pi_config "sda1" idle (VStr "10.0.0.2")).
  reflexivity.
Defined.

Lemma get_image_type_first_match_witness :
  fst (get_image_type core_image_world pi_config idle) = Ret ("core", "sda1")
  /\ nexec (snd (get_image_type core_image_world pi_config idle)) = 4.
Proof.
  apply (get_image_type_first_match core_image_world pi_config idle
           (VStr "/dev/sda") (VStr "10.0.0.2") "" "" two_partitions
           {| dev_children := Some [ {| child_name := Some "sda1" |};
                                     {| child_name := Some "sda2" |} ] |}
           [] [ {| child_name := Some "sda1" |}; {| child_name := Some "sda2" |} ]
           "sda1" ["sda2"] "core"); reflexivity.
Defined.

Lemma hardreset_runs_until_failure_witness :
  fst (hardreset grumbling_world relay_config after_one) =
    Raise (RecoveryError "timeout reaching control host!")
  /\ trace (snd (hardreset grumbling_world relay_config after_one)) =
       [Entered "hardreset";
        Exec ["relay"; "off"] (Some 120); Exec ["relay"; "on"] (Some 120)].
Proof.
  apply (hardreset_runs_until_failure grumbling_world relay_config after_one
           ["relay off"; "relay" +:+ nbsp +:+ "on"; "relay status"]).
  - reflexivity.
  - repeat constructor; discriminate.
Defined.

Lemma hardreset_raises_witness :
  fst (hardreset obliging_world null_script_config idle) = Raise TypeError
  /\ (TypeError = KeyError (Some "reboot_script")
      \/ TypeError = RecoveryError "timeout reaching control host!"
      \/ (TypeError = TypeError
          /\ exists text,
               null_script_config !! "reboot_script" = Some (VScalar text))).
Proof.
  split; [reflexivity|].
  apply (hardreset_raises obliging_world null_script_config idle). reflexivity.
Defined.

Lemma setboot_runs_until_failure_witness :
  fst (setboot unreachable_world pi_config "test" idle) =
    Raise (ProvisioningError "timeout reaching control host!")
  /\ trace (snd (setboot unreachable_world pi_config "test" idle)) =
       [Entered "setboot"; Exec ["select"; "test"] (Some 60)].
Proof.
  apply (setboot_runs_until_failure unreachable_world pi_config "test"
           "select_test_script" idle ["select test"]).
  - right. split; reflexivity.
  - reflexivity.
  - repeat constructor; discriminate.
Defined.

Lemma setboot_raises_witness :
  fst (setboot obliging_world no_device_config "master" idle) =
    Raise (KeyError (Some "select_master_script"))
  /\ (KeyError (Some "select_master_script") = KeyError None
      \/ KeyError (Some "select_master_script") =
           KeyError (Some "select_master_script")
      \/ KeyError (Some "select_master_script") =
           KeyError (Some "select_test_script")
      \/ KeyError (Some "select_master_script") =
           ProvisioningError "timeout reaching control host!"
      \/ (KeyError (Some "select_master_script") = TypeError
          /\ exists key text,
               ("master" = "master" /\ key = "select_master_script"
                \/ "master" = "test" /\ key = "select_test_script")
               /\ no_device_config !! key = Some (VScalar text))).
Proof.
  split; [reflexivity|].
  apply (setboot_raises obliging_world no_device_config "master" idle). reflexivity.
Defined.

Lemma post_provision_runs_all_witness :
  trace (snd (run_post_provision_script unreachable_world relay_config idle)) =
    [Exec (ssh_argv "pi" "10.0.0.2" "sudo sync") (Some 60);
     Exec (ssh_argv "pi" "10.0.0.2" "sudo partprobe") (Some 60)]
  /\ nexec (snd (run_post_provision_script unreachable_world relay_config idle)) = 2.
Proof.
  apply (post_provision_runs_all unreachable_world relay_config idle
           (VStr "10.0.0.2") ["sudo sync"; "sudo partprobe"]); reflexivity.
Defined.

Lemma create_user_raises_witness :
  fst (create_user unreachable_world pi_config "core" idle) =
    Raise (ProvisioningError "Error creating user files")
  /\ ProvisioningError "Error creating user files" =
       ProvisioningError "Error creating user files".
Proof.
  split; [reflexivity|].
  apply (create_user_raises unreachable_world pi_config "core" idle). reflexivity.
Defined.


Lemma ensure_test_image_failure_witness :
  fst (ensure_test_image silent_device_world pi_config "ubuntu" "ubuntu" idle) =
    Raise (ProvisioningError "Failed to boot test image!")
  /\ 660 <= now (snd (ensure_test_image silent_device_world pi_config
                        "ubuntu" "ubuntu" idle)).
Proof.
  assert (Hrun : fst (ensure_test_image silent_device_world pi_config
                        "ubuntu" "ubuntu" idle) =
                 Raise (ProvisioningError "Failed to boot test image!"))
    by (vm_compute; reflexivity).
  split; [exact Hrun|].
  destruct (ensure_test_image_failure silent_device_world pi_config
              "ubuntu" "ubuntu" idle _ Hrun) as [H|[H|[H|[_ H]]]];
    [discriminate H | discriminate H | discriminate H | exact H].
Defined.

Lemma test_booted_recovery_ends_witness :
  fst (is_test_image_booted obliging_world pi_config idle) = Ret true
  /\ (let r := fst (ensure_master_image obliging_world pi_config 1 idle) in
      r = Ret tt
      \/ r = Raise (RecoveryError "Could not reboot to master!")
      \/ r = Raise (RecoveryError "timeout reaching control host!")
      \/ r = Raise (ProvisioningError "timeout reaching control host!")
      \/ r = Raise (KeyError (Some "select_master_script"))
      \/ r = Raise (KeyError (Some "reboot_script"))
      \/ r = Raise TypeError).
Proof.
  split; [reflexivity|].
  apply (test_booted_recovery_ends obliging_world pi_config 0 idle
           (snd (is_test_image_booted obliging_world pi_config idle))).
  reflexivity.
Defined.

Lemma ensure_master_image_sound_witness :
  fst (ensure_master_image settled_world pi_config 1 idle) = Ret tt
  /\ master_probed settled_world pi_config idle
       (snd (ensure_master_image settled_world pi_config 1 idle)).
Proof.
  split; [reflexivity|].
  apply (ensure_master_image_sound settled_world pi_config 1 idle). reflexivity.
Defined.

Lemma provision_rejects_missing_url_witness :
  provision obliging_world pi_config empty_job idle =
    (Raise (ProvisioningError "Error provisioning system"), idle).
Proof.
  apply (provision_rejects_missing_url obliging_world pi_config empty_job idle ∅).
  - reflexivity.
  - left. reflexivity.
Defined.

Lemma provision_success_stops_server_witness :
  fst (provision obliging_world pi_config ubuntu_job idle) = Ret tt
  /\ file_server (snd (provision obliging_world pi_config ubuntu_job idle))
       <> Listening
  /\ ServerTerminate
       ∈ trace (snd (provision obliging_world pi_config ubuntu_job idle)).
Proof.
  assert (Hrun : fst (provision obliging_world pi_config ubuntu_job idle) = Ret tt)
    by (vm_compute; reflexivity).
  split; [exact Hrun|].
  exact (provision_success_stops_server obliging_world pi_config ubuntu_job idle Hrun).
Defined.

Lemma udf_command_appends_output_witness :
  udf_command "core rolling --channel edge" "/home/agent" "/tmp/tmpk3x" =
    ["sudo"; "ubuntu-device-flash"; "core"; "rolling"; "--channel"; "edge";
     "-o"; "/tmp/tmpk3x/snappy.img"].
Proof.
  apply (udf_command_appends_output "core rolling --channel edge"
           "/home/agent" "/tmp/tmpk3x").
  apply (bool_decide_eq_false_1 (_ ∈ _)). vm_compute. reflexivity.
Defined.

Lemma udf_command_redirects_output_witness :
  udf_command ("core" +:+ nbsp +:+ "rolling -o /srv/my.img --developer-mode")
    "/home/agent" "/tmp/tmpk3x" =
    ["sudo"; "ubuntu-device-flash"; "core"; "rolling";
     "-o"; "/home/agent/snappy.img"; "--developer-mode"].
Proof.
  apply (udf_command_redirects_output
           ("core" +:+ nbsp +:+ "rolling -o /srv/my.img --developer-mode")
           "/home/agent" "/tmp/tmpk3x" ["core"; "rolling"] "/srv/my.img"
           ["--developer-mode"]).
  - reflexivity.
  - apply (bool_decide_eq_false_1 (_ ∈ _)). vm_compute. reflexivity.
Defined.

Lemma udf_command_trailing_option_witness :
  udf_command "core rolling -o" "/home/agent" "/tmp/tmpk3x" =
    ["sudo"; "ubuntu-device-flash"; "core"; "rolling";
     "-o"; "-o"; "/tmp/tmpk3x/snappy.img"].
Proof.
  apply (udf_command_trailing_option "core rolling -o" "/home/agent" "/tmp/tmpk3x"
           ["core"; "rolling"]).
  - reflexivity.
  - apply (bool_decide_eq_false_1 (_ ∈ _)). vm_compute. reflexivity.
Defined.

Lemma get_image_without_source_witness :
  Images.get_image nothing_fails "/home/agent" no_source [] =
    (Raise UnboundLocalError,
     [Images.Download "http://images.example/gadget.snap" "gadget.snap"]).
Proof.
  apply (get_image_without_source nothing_fails "/home/agent" no_source []);
    reflexivity.
Defined.

Lemma get_image_prefers_url_witness :
  let out := Images.get_image nothing_fails "/home/agent" both_sources [] in
  (forall params, Images.CreateImage params ∈ snd out ->
                  Images.CreateImage params ∈ ([] : list Images.action))
  /\ (forall name, fst out = Ret name ->
        name = "snappy.img.gz"
        /\ exists log', snd out =
             (log' ++ [Images.Download "http://images.example/core.img" "snappy.img";
                       Images.CompressFile "snappy.img"])%list).
Proof.
  apply (get_image_prefers_url nothing_fails "/home/agent" both_sources
           "http://images.example/core.img" []).
  reflexivity.
Defined.

Lemma compress_file_effect_witness :
  exists fs' chunks,
    Transfer.compress_file toy_gzip image_on_disk "snappy.img" =
      Some (fs', "snappy.img.gz")
    /\ fs' !! "snappy.img" = None
    /\ fs' !! "snappy.img.gz" = Some (toy_gzip chunks)
    /\ concat chunks = [Byte.x55; Byte.xaa]
    /\ Forall (fun d => 0 < length d <= 4096) chunks
    /\ (forall other, other <> "snappy.img" -> other <> "snappy.img.gz" ->
          fs' !! other = image_on_disk !! other).
Proof.
  apply (compress_file_effect toy_gzip image_on_disk "snappy.img"
           [Byte.x55; Byte.xaa]).
  reflexivity.
Defined.

Lemma flash_without_device_ip_witness :
  flash_test_image obliging_world no_ip_config "10.0.0.1" "4000" idle =
    (Raise (RecoveryError "Device config missing test_device"), idle).
Proof.
  apply (flash_without_device_ip obliging_world no_ip_config "10.0.0.1" "4000"
           idle (VStr "/dev/sda")); reflexivity.
Defined.

Lemma ensure_test_image_sound_witness :
  fst (ensure_test_image slow_boot_world pi_config "ubuntu" "ubuntu" idle) = Ret tt
  /\ 70 <= now (snd (ensure_test_image slow_boot_world pi_config
                       "ubuntu" "ubuntu" idle))
  /\ exists ip,
       pi_config !! "device_ip" = Some ip
       /\ ended_on_test_probe slow_boot_world (py_str ip)
            (snd (ensure_test_image slow_boot_world pi_config
                    "ubuntu" "ubuntu" idle)).
Proof.
  assert (Hrun : fst (ensure_test_image slow_boot_world pi_config
                        "ubuntu" "ubuntu" idle) = Ret tt)
    by (vm_compute; reflexivity).
  split; [exact Hrun|].
  exact (ensure_test_image_sound slow_boot_world pi_config "ubuntu" "ubuntu"
           idle Hrun).
Defined.

Lemma ensure_master_image_errors_witness :
  fst (ensure_master_image unreachable_world pi_config 1 idle) =
    Raise (RecoveryError "timeout reaching control host!")
  /\ RecoveryError "timeout reaching control host!" ∈ recovery_errors.
Proof.
  split; [reflexivity|].
  apply (ensure_master_image_errors unreachable_world pi_config 1 idle).
  reflexivity.
Defined.
